(** * Outline document sync: renderer, marker parser and push/pull engine

    A shallow embedding of [outline_sync.py] (and of the backup routine of
    [outline_consolidate.py]) together with the properties of its
    synchronisation core.

    Python strings are sequences of Unicode code points: a character is a
    code point in [N], a string is a list of them.  Dictionaries are finite
    maps keyed by strings. *)

From Stdlib Require Import NArith ZArith Ascii String List Lia Bool.
From stdpp Require Import gmap list option.

Open Scope list_scope.

(** ** Strings *)

Abbreviation char := N (only parsing).
Abbreviation text := (list N) (only parsing).

(** An ASCII literal of the source, as code points. *)
Definition str (s : string) : text :=
  List.map N_of_ascii (list_ascii_of_string s).

Arguments str s%_string : simpl never.

(** [str.isspace] on one code point, the table of CPython
    ([_PyUnicode_IsWhitespace]); [\s] of [re] and [str.strip] both use it. *)
Definition is_space (c : char) : bool :=
  ((9 <=? c) && (c <=? 13) || (28 <=? c) && (c <=? 32) || (c =? 133) || (c =? 160)
   || (c =? 5760) || (8192 <=? c) && (c <=? 8202) || (c =? 8232) || (c =? 8233)
   || (c =? 8239) || (c =? 8287) || (c =? 12288))%N.

Definition ascii_digit (c : char) : bool := ((48 <=? c) && (c <=? 57))%N.

Definition ascii_alnum (c : char) : bool :=
  (ascii_digit c || (65 <=? c) && (c <=? 90) || (97 <=? c) && (c <=? 122))%N.

Definition NL : char := 10%N.

(** [s.startswith(p)] *)
Fixpoint startswith (p s : text) : bool :=
  match p, s with
  | [], _ => true
  | a :: p', b :: s' => (a =? b)%N && startswith p' s'
  | _ :: _, [] => false
  end.

(** [s == t] *)
Definition text_eqb (s t : text) : bool := bool_decide (s = t).

Fixpoint lstrip (s : text) : text :=
  match s with
  | c :: s' => if is_space c then lstrip s' else s
  | [] => []
  end.

Definition rstrip (s : text) : text := rev (lstrip (rev s)).

(** [s.strip()] *)
Definition strip (s : text) : text := rstrip (lstrip s).

(** [s.find(needle)]: index of the first occurrence. *)
Fixpoint find (needle s : text) : option nat :=
  if startswith needle s then Some 0
  else match s with
       | [] => None
       | _ :: s' => S <$> find needle s'
       end.

(** [needle in s] *)
Definition contains (needle s : text) : bool :=
  match find needle s with Some _ => true | None => false end.

(** [s.split('\n')] *)
Fixpoint split_lines (s : text) : list text :=
  match s with
  | [] => [[]]
  | c :: s' =>
      if (c =? NL)%N then [] :: split_lines s'
      else match split_lines s' with
           | l :: ls => (c :: l) :: ls
           | [] => [[c]]
           end
  end.

(** ["\n".join(lines)] *)
Fixpoint join_lines (ls : list text) : text :=
  match ls with
  | [] => []
  | [l] => l
  | l :: ls' => l ++ NL :: join_lines ls'
  end.

(** [s.replace('_', ' ')] *)
Definition replace_underscore (s : text) : text :=
  List.map (fun c => if (c =? 95)%N then 32%N else c) s.

(** ** Regular expressions

    The patterns of the source use literals, one-character classes under a
    greedy or lazy quantifier (possibly captured as a group) and
    back-references.  [rmatch] is the backtracking matcher of [re] on these:
    alternatives are tried in priority order and the first that lets the
    rest of the pattern match wins. *)

Inductive quant := Greedy | Lazy.

Inductive atom :=
| Lit (l : text)
| Rep (q : quant) (lo : nat) (cls : char -> bool) (cap : option nat)
| Backref (g : nat).

Abbreviation regex := (list atom) (only parsing).
Abbreviation groups := (gmap nat (list N)) (only parsing).

(** Length of the longest prefix of [s] inside the class. *)
Fixpoint span (cls : char -> bool) (s : text) : nat :=
  match s with
  | c :: s' => if cls c then S (span cls s') else 0
  | [] => 0
  end.

(** Repetition counts in the order the matcher tries them. *)
Definition candidates (q : quant) (lo hi : nat) : list nat :=
  match q with
  | Lazy => seq lo (S hi - lo)
  | Greedy => rev (seq lo (S hi - lo))
  end.

Fixpoint first_some {A B} (f : A -> option B) (l : list A) : option B :=
  match l with
  | [] => None
  | x :: l' => match f x with Some y => Some y | None => first_some f l' end
  end.

Definition set_cap (cap : option nat) (v : text) (gs : groups) : groups :=
  match cap with Some g => <[g := v]> gs | None => gs end.

(** Match [r] at the start of [s]: the text left after the match, and the
    groups. *)
Fixpoint rmatch (r : regex) (s : text) (gs : groups) : option (text * groups) :=
  match r with
  | [] => Some (s, gs)
  | Lit l :: r' =>
      if startswith l s then rmatch r' (drop (length l) s) gs else None
  | Rep q lo cls cap :: r' =>
      first_some (fun n => rmatch r' (drop n s) (set_cap cap (take n s) gs))
                 (candidates q lo (span cls s))
  | Backref g :: r' =>
      match gs !! g with
      | Some l => if startswith l s then rmatch r' (drop (length l) s) gs else None
      | None => None
      end
  end.

(** [re.search(r, s)]: the groups of the leftmost match. *)
Fixpoint search (r : regex) (s : text) : option groups :=
  match rmatch r s ∅ with
  | Some (_, gs) => Some gs
  | None => match s with
            | [] => None
            | _ :: s' => search r s'
            end
  end.

(** [re.finditer(r, s)]: the groups of the successive non-overlapping
    matches.  [skip] counts the characters of the current match still to be
    passed over.  (After a match of length zero the scan resumes one
    character further; no pattern of the source matches the empty string.) *)
Fixpoint finditer_from (r : regex) (skip : nat) (s : text) : list groups :=
  match skip with
  | S k => match s with
           | [] => []
           | _ :: s' => finditer_from r k s'
           end
  | O =>
      match rmatch r s ∅ with
      | Some (rest, gs) =>
          gs :: match s with
                | [] => []
                | _ :: s' => finditer_from r (length s - length rest - 1) s'
                end
      | None => match s with
                | [] => []
                | _ :: s' => finditer_from r 0 s'
                end
      end
  end.

Definition finditer (r : regex) (s : text) : list groups := finditer_from r 0 s.

(** [re.sub(r, '', s)]: [s] without its matches. *)
Fixpoint sub_from (r : regex) (skip : nat) (s : text) : text :=
  match skip with
  | S k => match s with
           | [] => []
           | _ :: s' => sub_from r k s'
           end
  | O =>
      match rmatch r s ∅ with
      | Some (rest, _) =>
          match s with
          | [] => []
          | c :: s' =>
              let n := length s - length rest in
              (if Nat.eqb n 0 then [c] else []) ++ sub_from r (n - 1) s'
          end
      | None => match s with
                | [] => []
                | c :: s' => c :: sub_from r 0 s'
                end
      end
  end.

Definition re_sub (r : regex) (s : text) : text := sub_from r 0 s.

(** [m.group(g)] of a group that took part in the match. *)
Definition group (g : nat) (gs : groups) : text := default [] (gs !! g).

(** ** Python values, dictionaries and exceptions *)

Inductive value :=
| VNone
| VStr (s : text)
| VInt (z : Z)
| VTime (iso : text).   (* a timestamp, carried with its [str()] *)

#[global] Instance value_eq_dec : EqDecision value.
Proof. solve_decision. Defined.

Abbreviation dict := (gmap (list N) value) (only parsing).

Inductive exn :=
| KeyError (k : text)
| ValueError
| TypeError
| AttributeError
| HTTPError.

Inductive result (A : Type) :=
| Ok (a : A)
| Raise (e : exn).
Arguments Ok {A} a.
Arguments Raise {A} e.

#[global] Instance result_ret : MRet result := fun A a => Ok a.
#[global] Instance result_bind : MBind result :=
  fun A B f m => match m with Ok a => f a | Raise e => Raise e end.
#[global] Instance result_fmap : FMap result :=
  fun A B f m => match m with Ok a => Ok (f a) | Raise e => Raise e end.

(** [d[k]] *)
Definition subscript (d : dict) (k : text) : result value :=
  match d !! k with Some v => Ok v | None => Raise (KeyError k) end.

(** [d.get(k)] *)
Definition get (d : dict) (k : text) : value := default VNone (d !! k).

(** Truth value of an object, as [if x:] and [x or y] take it. *)
Definition truthy (v : value) : bool :=
  match v with
  | VNone => false
  | VStr s => match s with [] => false | _ => true end
  | VInt z => negb (z =? 0)%Z
  | VTime _ => true
  end.

(** Truth value of a list or string: it is not empty. *)
Definition nonempty {A} (s : list A) : bool :=
  match s with [] => false | _ => true end.

(** ** The marker parser *)

Section Parser.

(** The Unicode tables of the interpreter beyond ASCII: [str.isalnum] on a
    code point, and the value of a decimal digit. *)
Variable uni_alnum : char -> bool.
Variable uni_decimal : char -> option N.

(** [\w] *)
Definition is_word (c : char) : bool :=
  if (c <? 128)%N then ascii_alnum c || (c =? 95)%N else uni_alnum c.

(** [\d] *)
Definition is_digit (c : char) : bool :=
  if (c <? 128)%N then ascii_digit c
  else match uni_decimal c with Some _ => true | None => false end.

Definition digit_value (c : char) : N :=
  if (c <? 128)%N then (c - 48)%N else default 0%N (uni_decimal c).

(** [sys.get_int_max_str_digits()]: the longest run of digits [int] converts,
    4300 unless the interpreter was told otherwise. *)
Definition int_max_str_digits : N := 4300.

Definition int_digits_ok (s : text) : bool :=
  (N.of_nat (length s) <=? int_max_str_digits)%N.

(** [int(s)] on a string of decimal digits; anything else is a
    [ValueError] here (the source only converts [\d+] captures).  A run of
    more than [int_max_str_digits] digits, leading zeros included, is a
    [ValueError] too. *)
Definition py_int (s : text) : result Z :=
  if nonempty s && forallb is_digit s && int_digits_ok s
  then Ok (Z.of_N (fold_left (fun acc c => (10 * acc + digit_value c)%N) s 0%N))
  else Raise ValueError.

(** [.] with and without [re.DOTALL] *)
Definition any_char (c : char) : bool := true.
Definition dot (c : char) : bool := negb (c =? NL)%N.
Definition not_star (c : char) : bool := negb (c =? 42)%N.
Definition not_nl_bar (c : char) : bool := negb (c =? NL)%N && negb (c =? 124)%N.

(** [<!-- FIELD:(\w+) -->\s*(.*?)\s*<!-- /FIELD:\1 -->] *)
Definition field_pattern : regex :=
  [ Lit (str "<!-- FIELD:"); Rep Greedy 1 is_word (Some 1); Lit (str " -->");
    Rep Greedy 0 is_space None; Rep Lazy 0 any_char (Some 2); Rep Greedy 0 is_space None;
    Lit (str "<!-- /FIELD:"); Backref 1; Lit (str " -->") ].

(** [\*\*[^*]+:\*\*\s*(.+)] *)
Definition label_value_pattern : regex :=
  [ Lit (str "**"); Rep Greedy 1 not_star None; Lit (str ":**");
    Rep Greedy 0 is_space None; Rep Greedy 1 dot (Some 1) ].

(** [<!-- ITINERARY_DAY:(\d+) -->\s*(.*?)\s*<!-- /ITINERARY_DAY:\1 -->] *)
Definition day_pattern : regex :=
  [ Lit (str "<!-- ITINERARY_DAY:"); Rep Greedy 1 is_digit (Some 1); Lit (str " -->");
    Rep Greedy 0 is_space None; Rep Lazy 0 any_char (Some 2); Rep Greedy 0 is_space None;
    Lit (str "<!-- /ITINERARY_DAY:"); Backref 1; Lit (str " -->") ].

(** [\*\*Label:\*\*\s*([^\n|]+)] and [\*\*Label:\*\*\s*([^\n]+)] *)
Definition stat_pattern (label : string) : regex :=
  [ Lit (str "**" ++ str label ++ str ":**"); Rep Greedy 0 is_space None;
    Rep Greedy 1 not_nl_bar (Some 1) ].
Definition line_pattern (label : string) : regex :=
  [ Lit (str "**" ++ str label ++ str ":**"); Rep Greedy 0 is_space None;
    Rep Greedy 1 dot (Some 1) ].

(** The patterns removed from a day block to leave its free text:
    [\*\*Label:\*\*[^\n|]+], [\*\*Label:\*\*[^\n]+] and [\|]. *)
Definition stat_removal (label : string) : regex :=
  [ Lit (str "**" ++ str label ++ str ":**"); Rep Greedy 1 not_nl_bar None ].
Definition line_removal (label : string) : regex :=
  [ Lit (str "**" ++ str label ++ str ":**"); Rep Greedy 1 dot None ].
Definition removal_patterns : list regex :=
  [ stat_removal "Miles"; stat_removal "Elevation"; line_removal "Route";
    line_removal "Lodging"; line_removal "Meals"; [Lit (str "|")] ].

Definition LABELED_FIELDS : list text :=
  [ str "meeting_time"; str "meeting_location"; str "tour_rating";
    str "terrain"; str "technical_difficulty"; str "altitude" ].

Record parsed := { fields : gmap (list N) (list N); itinerary_days : list dict }.

(** The body of the loop over field matches. *)
Definition parse_field (fs : gmap (list N) (list N)) (m : groups) : gmap (list N) (list N) :=
  let field_name := group 1 m in
  let field_value := strip (group 2 m) in
  let field_value :=
    if bool_decide (field_name ∈ LABELED_FIELDS) then
      match search label_value_pattern field_value with
      | Some vm =>
          let v := strip (group 1 vm) in
          if text_eqb v (str "_Not specified_") then [] else v
      | None => field_value
      end
    else field_value in
  if nonempty field_value
     && negb (text_eqb field_value (str "_No short description yet._"))
     && negb (text_eqb field_value (str "_No description yet._"))
  then <[field_name := field_value]> fs
  else fs.

Definition capture (key : string) (r : regex) (content : text) (d : dict) : dict :=
  match search r content with
  | Some m => <[str key := VStr (strip (group 1 m))]> d
  | None => d
  end.

(** The body of the loop over day matches. *)
Definition parse_day (m : groups) : result dict :=
  day_num ← py_int (group 1 m);
  let day_content := strip (group 2 m) in
  let day_data : dict := {[ str "day_number" := VInt day_num ]} in
  let day_data := capture "miles" (stat_pattern "Miles") day_content day_data in
  let day_data := capture "elevation" (stat_pattern "Elevation") day_content day_data in
  let day_data := capture "trails_waypoints" (line_pattern "Route") day_content day_data in
  let day_data := capture "camp_lodging" (line_pattern "Lodging") day_content day_data in
  let day_data := capture "meals" (line_pattern "Meals") day_content day_data in
  let remaining := strip (fold_left (fun rem p => re_sub p rem) removal_patterns day_content) in
  Ok (if nonempty remaining then <[str "content" := VStr remaining]> day_data else day_data).

Definition parse_outline_document (doc : text) : result parsed :=
  let fs := fold_left parse_field (finditer field_pattern doc) ∅ in
  days ← mapM parse_day (finditer day_pattern doc);
  Ok {| fields := fs; itinerary_days := days |}.

End Parser.

(** ** Document generation *)

(** Decimal digits of a number, most significant first. *)
Fixpoint digits_fuel (fuel : nat) (n : N) (acc : text) : text :=
  match fuel with
  | O => acc
  | S f =>
      let acc' := (48 + n mod 10)%N :: acc in
      if (n <? 10)%N then acc' else digits_fuel f (n / 10)%N acc'
  end.

Definition str_of_N (n : N) : text := digits_fuel (S (N.size_nat n)) n [].

Definition str_of_Z (z : Z) : text :=
  match z with
  | Zneg p => 45%N :: str_of_N (Npos p)
  | _ => str_of_N (Z.to_N z)
  end.

(** What an f-string puts for [{v}].  The integers of the store are taken
    to print: [str] of an integer of more than [int_max_str_digits] digits
    is refused by the interpreter, and no column of the store holds one. *)
Definition fmt (v : value) : text :=
  match v with
  | VNone => str "None"
  | VStr s => s
  | VInt z => str_of_Z z
  | VTime iso => iso
  end.

(** [x or y] *)
Definition py_or (x y : value) : value := if truthy x then x else y.

(** ["\n".join(lines)], which wants every item to be a string. *)
Definition as_text (v : value) : result text :=
  match v with VStr s => Ok s | _ => Raise TypeError end.

Definition py_join (lines : list value) : result text :=
  ls ← mapM as_text lines; Ok (join_lines ls).

Record datetime := { year : N; month : N; day : N; hour : N; minute : N }.

Definition pad2 (n : N) : text :=
  if (n <? 10)%N then 48%N :: str_of_N n else str_of_N n.

(** [now.strftime('%Y-%m-%d %H:%M')] *)
Definition strftime (now : datetime) : text :=
  str_of_N (year now) ++ str "-" ++ pad2 (month now) ++ str "-" ++ pad2 (day now)
  ++ str " " ++ pad2 (hour now) ++ str ":" ++ pad2 (minute now).

Definition LINK : text := [128279%N].        (* U+1F517 *)
Definition CLIPBOARD : text := [128203%N].   (* U+1F4CB *)
Definition MONEYBAG : text := [128176%N].    (* U+1F4B0 *)
Definition PENCIL : text := [9999%N; 65039%N].   (* U+270F U+FE0F *)
Definition SCROLL : text := [128220%N].      (* U+1F4DC *)
Definition MEMO : text := [128221%N].        (* U+1F4DD *)
Definition WARNING : text := [9888%N; 65039%N].  (* U+26A0 U+FE0F *)
Definition CHECKMARK : text := [9989%N].     (* U+2705 *)

Section Generator.

(** [str.title] of the interpreter. *)
Variable str_title : text -> text.

Definition L (s : string) : value := VStr (str s).

Definition when (b : bool) (ls : list value) : list value := if b then ls else [].

(** The rows of the reference-id table after the title row. *)
Definition reference_rows (tour : dict) : list value :=
  when (truthy (get tour (str "slug")))
       [VStr (str "| **Slug** | `" ++ fmt (get tour (str "slug")) ++ str "` |")]
  ++ when (truthy (get tour (str "website_id")))
       [VStr (str "| **Website ID** | " ++ fmt (get tour (str "website_id")) ++ str " |")]
  ++ when (truthy (get tour (str "arctic_shortname")))
       [VStr (str "| **Arctic Shortname** | `" ++ fmt (get tour (str "arctic_shortname")) ++ str "` |")]
  ++ when (truthy (get tour (str "arctic_id")))
       [VStr (str "| **Arctic ID** | " ++ fmt (get tour (str "arctic_id")) ++ str " |")].

Definition info_items (tour : dict) : list (string * value) :=
  [ ("Tour Type", get tour (str "tour_type")); ("Region", get tour (str "region"));
    ("Duration", get tour (str "duration")); ("Season", get tour (str "season"));
    ("Style", get tour (str "style")); ("Skill Level", get tour (str "skill_level"));
    ("Departs From", get tour (str "departs")); ("Distance", get tour (str "distance")) ]%string.

Definition info_lines (tour : dict) : list value :=
  flat_map (fun '(label, v) =>
              when (truthy v) [VStr (str "- **" ++ str label ++ str ":** " ++ fmt v)])
           (info_items tour)
  ++ when (truthy (get tour (str "permalink")))
       [VStr (str "- **Website:** [" ++ fmt (get tour (str "permalink")) ++ str "]("
              ++ fmt (get tour (str "permalink")) ++ str ")")].

Definition pricing_line (row : text * value * value) : value :=
  let '(ptype, variant, amount) := row in
  let label := str_title (replace_underscore ptype) in
  let label :=
    if truthy variant && negb (bool_decide (variant = VStr (str "default")))
    then label ++ str " (" ++ fmt variant ++ str ")" else label in
  VStr (str "- **" ++ label ++ str ":** " ++ fmt amount).

Definition fee_line (row : text * value) : value :=
  let '(fee_type, amount) := row in
  VStr (str "- " ++ str_title (replace_underscore fee_type) ++ str ": " ++ fmt amount).

(** The pricing section; [note] is its quoted first line. *)
Definition pricing_lines (note : text) (pricing : list (text * value * value))
    (fees : list (text * value)) : list value :=
  when (nonempty pricing || nonempty fees)
    ([L "---"; VStr (str "## " ++ MONEYBAG ++ str " Pricing"); VStr note; L ""]
     ++ List.map pricing_line pricing
     ++ when (nonempty fees) ([L ""; L "**Additional Fees:**"] ++ List.map fee_line fees)
     ++ [L ""]).

(** An editable field between its markers. *)
Definition field_block (name : string) (body : value) : list value :=
  [ VStr (str "<!-- FIELD:" ++ str name ++ str " -->"); body;
    VStr (str "<!-- /FIELD:" ++ str name ++ str " -->"); L "" ].

Definition labeled (label : string) (v : value) (placeholder : string) : value :=
  VStr (str "**" ++ str label ++ str ":** " ++ fmt (py_or v (L placeholder))).

Definition header_day_block (d : dict) : result (list value) :=
  day_num ← subscript d (str "day_number");
  Ok [ VStr (str "#### Day " ++ fmt day_num);
       VStr (str "<!-- ITINERARY_DAY:" ++ fmt day_num ++ str " -->");
       L "";
       labeled "Miles" (get d (str "miles")) "_TBD_";
       labeled "Elevation" (get d (str "elevation")) "_TBD_";
       labeled "Route" (get d (str "trails_waypoints")) "_TBD_";
       labeled "Lodging" (get d (str "camp_lodging")) "_TBD_";
       labeled "Meals" (get d (str "meals")) "_TBD_";
       L "";
       py_or (get d (str "content")) (L "_Day description._");
       L "";
       VStr (str "<!-- /ITINERARY_DAY:" ++ fmt day_num ++ str " -->");
       L "" ].

Definition generate_reference_header (tour : dict) (pricing : list (text * value * value))
    (fees : list (text * value)) (itinerary_days : list dict) : result text :=
  title ← subscript tour (str "title");
  day_blocks ← mapM header_day_block itinerary_days;
  py_join
    ([ L "---"; VStr (str "## " ++ LINK ++ str " Reference IDs");
       L "> Cross-system identifiers for this tour."; L "";
       L "| System | Identifier |"; L "|--------|------------|";
       VStr (str "| **Title** | " ++ fmt title ++ str " |") ]
     ++ reference_rows tour
     ++ [ L ""; L "---"; VStr (str "## " ++ CLIPBOARD ++ str " Tour Information"); L "" ]
     ++ info_lines tour
     ++ [ L "" ]
     ++ pricing_lines (str "> Pricing is managed in Arctic Reservations.") pricing fees
     ++ [ L "---"; VStr (str "## " ++ PENCIL ++ str " Editable Content");
          L "> Edit content between the markers. Changes sync back to database."; L "";
          L "### Short Description" ]
     ++ field_block "short_description"
          (py_or (get tour (str "short_description")) (L "_Enter a brief 1-2 sentence description._"))
     ++ [ L "### Full Description" ]
     ++ field_block "description"
          (py_or (get tour (str "description")) (L "_Enter the full tour description._"))
     ++ [ L "### Special Notes" ]
     ++ field_block "special_notes"
          (py_or (get tour (str "special_notes")) (L "_Any special notes or requirements._"))
     ++ [ L "### Meeting Information" ]
     ++ field_block "meeting_time" (labeled "Time" (get tour (str "meeting_time")) "_e.g., 8:30 AM_")
     ++ field_block "meeting_location"
          (labeled "Location" (get tour (str "meeting_location")) "_e.g., Rim Tours HQ, 1233 S Hwy 191_")
     ++ [ L "### Difficulty & Terrain" ]
     ++ field_block "tour_rating"
          (labeled "Tour Rating" (get tour (str "tour_rating")) "_e.g., Moderate/Intermediate_")
     ++ field_block "terrain" (labeled "Terrain" (get tour (str "terrain")) "_Describe the terrain._")
     ++ field_block "technical_difficulty"
          (labeled "Technical Difficulty" (get tour (str "technical_difficulty")) "_Describe technical aspects._")
     ++ field_block "altitude" (labeled "Altitude" (get tour (str "altitude")) "_e.g., 4,500ft to 6,000ft_")
     ++ when (nonempty itinerary_days) ([ L "### Day-by-Day Itinerary"; L "" ] ++ concat day_blocks)
     ++ [ L "---"; VStr (str "## " ++ SCROLL ++ str " Legacy Content");
          L "> Previous content preserved below. Move relevant info to editable fields above.";
          L "" ]).

(** [" | ".join(stats)] *)
Fixpoint join_bar (ls : list text) : text :=
  match ls with
  | [] => []
  | [l] => l
  | l :: ls' => l ++ str " | " ++ join_bar ls'
  end.

Definition stat (label : string) (v : value) : list text :=
  if truthy v then [str "**" ++ str label ++ str ":** " ++ fmt v] else [].

Definition day_block (d : dict) : result (list value) :=
  day_num ← subscript d (str "day_number");
  let stats := stat "Miles" (get d (str "miles")) ++ stat "Elevation" (get d (str "elevation")) in
  Ok ([ VStr (str "### Day " ++ fmt day_num);
        VStr (str "<!-- ITINERARY_DAY:" ++ fmt day_num ++ str " -->");
        L "" ]
      ++ when (nonempty stats) [ VStr (join_bar stats); L "" ]
      ++ when (truthy (get d (str "trails_waypoints")))
           [ VStr (str "**Route:** " ++ fmt (get d (str "trails_waypoints"))); L "" ]
      ++ when (truthy (get d (str "camp_lodging")))
           [ VStr (str "**Lodging:** " ++ fmt (get d (str "camp_lodging"))); L "" ]
      ++ when (truthy (get d (str "meals")))
           [ VStr (str "**Meals:** " ++ fmt (get d (str "meals"))); L "" ]
      ++ when (truthy (get d (str "content"))) [ get d (str "content"); L "" ]
      ++ [ VStr (str "<!-- /ITINERARY_DAY:" ++ fmt day_num ++ str " -->"); L "" ]).

Definition EDITABLE_NOTE : value :=
  VStr (str "> " ++ CHECKMARK ++ str " **Editable Section** - You can edit this content.").

(** The lines of the full document of a tour; [now] is the clock reading
    that goes in the footer. *)
Definition tour_document_lines (tour : dict) (title : value) (day_blocks : list (list value))
    (pricing : list (text * value * value)) (fees : list (text * value))
    (now : datetime) : list value :=
  [ VStr (str "# " ++ fmt title); L "" ]
  ++ when (truthy (get tour (str "subtitle")))
       [ VStr (str "*" ++ fmt (get tour (str "subtitle")) ++ str "*"); L "" ]
  ++ [ L "---"; VStr (str "## " ++ LINK ++ str " Reference IDs");
       VStr (str "> " ++ WARNING ++ str " **Read-Only** - Cross-system identifiers for this tour.");
       L ""; L "| System | Identifier |"; L "|--------|------------|";
       VStr (str "| **Title** | " ++ fmt title ++ str " |") ]
  ++ reference_rows tour
  ++ [ L ""; L "---"; VStr (str "## " ++ CLIPBOARD ++ str " Tour Information");
       VStr (str "> " ++ WARNING
             ++ str " **Read-Only Section** - This data comes from the website and cannot be edited here.");
       L "" ]
  ++ info_lines tour
  ++ [ L "" ]
  ++ pricing_lines
       (str "> " ++ WARNING ++ str " **Read-Only Section** - Pricing is managed in Arctic Reservations.")
       pricing fees
  ++ [ L "---"; VStr (str "## " ++ PENCIL ++ str " Description"); EDITABLE_NOTE; L "";
       L "### Short Description" ]
  ++ field_block "short_description"
       (py_or (get tour (str "short_description")) (L "_No short description yet._"))
  ++ [ L "### Full Description" ]
  ++ field_block "description" (py_or (get tour (str "description")) (L "_No description yet._"))
  ++ when (truthy (get tour (str "special_notes")))
       ([ L "### Special Notes" ] ++ field_block "special_notes" (get tour (str "special_notes")))
  ++ [ L "---"; VStr (str "## " ++ PENCIL ++ str " Trip Details"); EDITABLE_NOTE; L "";
       L "### Meeting Information" ]
  ++ field_block "meeting_time" (labeled "Time" (get tour (str "meeting_time")) "_Not specified_")
  ++ field_block "meeting_location"
       (labeled "Location" (get tour (str "meeting_location")) "_Not specified_")
  ++ [ L "### Difficulty & Terrain" ]
  ++ field_block "tour_rating" (labeled "Tour Rating" (get tour (str "tour_rating")) "_Not specified_")
  ++ field_block "terrain" (labeled "Terrain" (get tour (str "terrain")) "_Not specified_")
  ++ field_block "technical_difficulty"
       (labeled "Technical Difficulty" (get tour (str "technical_difficulty")) "_Not specified_")
  ++ field_block "altitude" (labeled "Altitude" (get tour (str "altitude")) "_Not specified_")
  ++ when (nonempty day_blocks)
       ([ L "---"; VStr (str "## " ++ PENCIL ++ str " Day-by-Day Itinerary"); EDITABLE_NOTE; L "" ]
        ++ concat day_blocks)
  ++ [ L "---"; L "*This document is synced with the RimTours database.*";
       VStr (str "*Last sync: " ++ strftime now ++ str "*") ].

Definition generate_tour_document (tour : dict) (itinerary_days : list dict)
    (pricing : list (text * value * value)) (fees : list (text * value))
    (now : datetime) : result text :=
  title ← subscript tour (str "title");
  day_blocks ← mapM day_block itinerary_days;
  py_join (tour_document_lines tour title day_blocks pricing fees now).

End Generator.

(** ** Recovering the legacy content of a document *)

(** The index the loop over [enumerate(lines)] stops at: the first [i > 1]
    whose line passes [keep]; [0] when there is none. *)
Fixpoint first_content (keep : text -> bool) (i : nat) (lines : list text) : nat :=
  match lines with
  | [] => 0
  | line :: rest =>
      if Nat.ltb 1 i && keep line then i else first_content keep (S i) rest
  end.

Definition after_marker (marker : text) (keep : text -> bool) (doc : text) : text :=
  let idx := default 0 (find marker doc) in
  let lines := split_lines (drop idx doc) in
  let content_start := first_content keep 0 lines in
  strip (join_lines (drop content_start lines)).

Definition legacy_marker : text := str "## " ++ SCROLL ++ str " Legacy Content".
Definition old_marker : text := str "## " ++ MEMO ++ str " Tour Details".
Definition reference_marker : text := str "## " ++ LINK ++ str " Reference IDs".

Definition strip_existing_header (doc : text) : text :=
  if contains legacy_marker doc then
    after_marker legacy_marker
      (fun line => nonempty (strip line) && negb (startswith (str ">") line)) doc
  else if contains old_marker doc then
    after_marker old_marker
      (fun line => nonempty (strip line) && negb (startswith (str ">") line)
                   && negb (startswith (str "*") line)) doc
  else if contains reference_marker doc then []
  else doc.

(** ** The canonical store

    A table is the list of its rows, a row a dictionary from column names to
    values.  Statements are taken to succeed: failures of the database
    itself are outside this model. *)

(** Field ownership - defines what can be edited in Outline *)
Definition EDITABLE_FIELDS : list text :=
  [ str "title"; str "subtitle"; str "short_description"; str "description";
    str "special_notes"; str "meeting_time"; str "meeting_location"; str "tour_rating";
    str "terrain"; str "technical_difficulty"; str "altitude" ].

Definition READONLY_FIELDS : list text :=
  [ str "website_id"; str "slug"; str "permalink"; str "tour_type"; str "region";
    str "duration"; str "season"; str "style"; str "skill_level"; str "departs";
    str "distance" ].

Record log_entry := {
  sync_type : text;
  log_tour_id : value;
  status : text;
  records_affected : Z;
  details : option (list (text * value));
  error_message : option exn
}.

Record database := {
  tours : list dict;
  tour_itinerary_days : list dict;
  (* the rows of [tour_pricing] and [tour_fees] of a tour, in query order *)
  tour_pricing : value -> list (text * value * value);
  tour_fees : value -> list (text * value);
  sync_log : list log_entry;
  CURRENT_TIMESTAMP : text
}.

Definition set_tours (f : list dict -> list dict) (d : database) : database :=
  {| tours := f (tours d); tour_itinerary_days := tour_itinerary_days d;
     tour_pricing := tour_pricing d; tour_fees := tour_fees d;
     sync_log := sync_log d; CURRENT_TIMESTAMP := CURRENT_TIMESTAMP d |}.

Definition set_itinerary (f : list dict -> list dict) (d : database) : database :=
  {| tours := tours d; tour_itinerary_days := f (tour_itinerary_days d);
     tour_pricing := tour_pricing d; tour_fees := tour_fees d;
     sync_log := sync_log d; CURRENT_TIMESTAMP := CURRENT_TIMESTAMP d |}.

Definition add_log (e : log_entry) (d : database) : database :=
  {| tours := tours d; tour_itinerary_days := tour_itinerary_days d;
     tour_pricing := tour_pricing d; tour_fees := tour_fees d;
     sync_log := sync_log d ++ [e]; CURRENT_TIMESTAMP := CURRENT_TIMESTAMP d |}.

(** SQL [a = b]: never true on NULL. *)
Definition sql_eq (a b : value) : bool :=
  match a, b with
  | VNone, _ | _, VNone => false
  | _, _ => bool_decide (a = b)
  end.

(** [UPDATE t SET ... WHERE cond]: the new table and the row count. *)
Definition sql_update (cond : dict -> bool) (set : dict -> dict) (t : list dict) : list dict :=
  List.map (fun row => if cond row then set row else row) t.

Definition rowcount (cond : dict -> bool) (t : list dict) : nat :=
  length (List.filter cond t).

(** [ORDER BY day_number] *)
Definition day_le (a b : dict) : bool :=
  match get a (str "day_number"), get b (str "day_number") with
  | VInt x, VInt y => (x <=? y)%Z
  | VInt _, _ => true
  | _, VInt _ => false
  | _, _ => true
  end.

Fixpoint insert_sorted (d : dict) (l : list dict) : list dict :=
  match l with
  | [] => [d]
  | x :: l' => if day_le d x then d :: l else x :: insert_sorted d l'
  end.

Definition order_by_day (l : list dict) : list dict := fold_right insert_sorted [] l.

Definition select (cols : list text) (row : dict) : dict :=
  list_to_map (List.map (fun c => (c, get row c)) cols).

Definition get_tour_itinerary (conn : database) (tour_id : value) : list dict :=
  order_by_day
    (List.map (select [ str "day_number"; str "miles"; str "elevation"; str "trails_waypoints";
                        str "camp_lodging"; str "meals"; str "content" ])
       (List.filter (fun row => sql_eq (get row (str "tour_id")) tour_id)
          (tour_itinerary_days conn))).

Definition get_tour_pricing (conn : database) (tour_id : value) := tour_pricing conn tour_id.
Definition get_tour_fees (conn : database) (tour_id : value) := tour_fees conn tour_id.

Definition update_tour_outline_doc_id (conn : database) (tour_id doc_id : value) : database :=
  set_tours
    (sql_update (fun row => sql_eq (get row (str "id")) tour_id)
       (fun row => <[str "outline_doc_id" := doc_id]>
                     (<[str "last_outline_sync" := VTime (CURRENT_TIMESTAMP conn)]> row)))
    conn.

(** Update tour fields from Outline (only editable fields): the store
    afterwards and the row count returned. *)
Definition update_tour_from_outline (conn : database) (tour_id : value)
    (updates : gmap (list N) (list N)) : database * nat :=
  let safe_updates := filter (fun kv => kv.1 ∈ EDITABLE_FIELDS) updates in
  if bool_decide (safe_updates = ∅) then (conn, 0)
  else
    let cond := fun row => sql_eq (get row (str "id")) tour_id in
    (set_tours
       (sql_update cond
          (fun row => (VStr <$> safe_updates)
                      ∪ <[str "last_outline_sync" := VTime (CURRENT_TIMESTAMP conn)]> row))
       conn,
     rowcount cond (tours conn)).

(** The values an [INSERT ... ON CONFLICT] statement carries for a parsed
    day: [day.get(...)] for every sub-field, and the source tag. *)
Definition excluded_row (day : dict) : dict :=
  <[str "miles" := get day (str "miles")]>
  (<[str "elevation" := get day (str "elevation")]>
  (<[str "trails_waypoints" := get day (str "trails_waypoints")]>
  (<[str "camp_lodging" := get day (str "camp_lodging")]>
  (<[str "meals" := get day (str "meals")]>
  (<[str "content" := get day (str "content")]>
  (<[str "source" := VStr (str "outline")]> ∅)))))).

(** [INSERT ... ON CONFLICT (tour_id, day_number) DO UPDATE SET ...] for one
    parsed day. *)
Definition conflict_with (tour_id day_num : value) (row : dict) : bool :=
  sql_eq (get row (str "tour_id")) tour_id && sql_eq (get row (str "day_number")) day_num.

Definition upsert_day (now : text) (tour_id day_num : value) (day : dict) (t : list dict)
  : list dict :=
  if existsb (conflict_with tour_id day_num) t
  then sql_update (conflict_with tour_id day_num)
         (fun row => excluded_row day ∪ <[str "updated_at" := VTime now]> row) t
  else t ++ [ <[str "tour_id" := tour_id]> (<[str "day_number" := day_num]> (excluded_row day)) ].

Definition update_itinerary_from_outline (conn : database) (tour_id : value)
    (days : list dict) : database * nat :=
  fold_left
    (fun '(conn, count) day =>
       let day_num := get day (str "day_number") in
       if negb (truthy day_num) then (conn, count)
       else (set_itinerary (upsert_day (CURRENT_TIMESTAMP conn) tour_id day_num day) conn,
             S count))
    days (conn, 0).

Definition log_sync (conn : database) (sync_type : text) (tour_id : value) (status : text)
    (details : list (text * value)) (error : option exn) : database :=
  add_log {| sync_type := sync_type; log_tour_id := tour_id; status := status;
             records_affected := if text_eqb status (str "success") then 1 else 0;
             details := if nonempty details then Some details else None;
             error_message := error |} conn.

(** ** The document store and the world

    The Outline server is an external collaborator: its state is an
    arbitrary type, and [outline_api] gives, for a request and a state, the
    [data] member of the JSON answer (or the exception of a non-200 status)
    and the next state.  Every request made is recorded in [calls]. *)

Inductive request :=
| documents_info (id : value)
| documents_create (title : value) (body : text) (collection_id : text)
    (parent_doc_id : option text)
| documents_update (id : value) (title : option text) (body : option text)
| documents_list (collection_id : text) (limit : nat) (offset : option nat).

(** A file of a backup directory. *)
Inductive file :=
| DocumentFile (doc : dict)
| ManifestFile (count : nat) (documents : list dict).

Definition is_write (rq : request) : bool :=
  match rq with
  | documents_create _ _ _ _ | documents_update _ _ _ => true
  | _ => false
  end.

Section Engine.

Variable server : Type.
Variable outline_api : request -> server -> result (option dict) * server.

Variables OUTLINE_COLLECTION_ID OUTLINE_DAY_TOURS_DOC_ID OUTLINE_MD_TOURS_DOC_ID : text.

Variable str_title : text -> text.
Variable str_lower : text -> text.
Variable uni_alnum : char -> bool.
Variable uni_decimal : char -> option N.

Record world := {
  db : database;
  remote : server;
  calls : list request;          (* requests made so far, oldest first *)
  files : gmap (list N) file;    (* the backups directory *)
  now : datetime                 (* [datetime.now()] *)
}.

Definition with_db (f : database -> database) (w : world) : world :=
  {| db := f (db w); remote := remote w; calls := calls w; files := files w; now := now w |}.

(** Computations that read and change the world and may raise. *)
Definition M (A : Type) : Type := world -> result A * world.

Definition ret {A} (a : A) : M A := fun w => (Ok a, w).
Definition bind {A B} (m : M A) (f : A -> M B) : M B :=
  fun w => match m w with
           | (Ok a, w') => f a w'
           | (Raise e, w') => (Raise e, w')
           end.
Definition lift {A} (r : result A) : M A := fun w => (r, w).
Definition try_except {A} (body : M A) (handler : exn -> M A) : M A :=
  fun w => match body w with
           | (Raise e, w') => handler e w'
           | ok => ok
           end.
Definition read {A} (f : world -> A) : M A := fun w => (Ok (f w), w).
Definition write_db (f : database -> database) : M unit := fun w => (Ok tt, with_db f w).

Notation "x <- m ;; k" := (bind m (fun x => k))
  (at level 100, m at next level, k at level 200, right associativity).
Notation "m ;;; k" := (bind m (fun _ => k))
  (at level 100, k at level 200, right associativity).

Definition outline_request (rq : request) : M (option dict) :=
  fun w =>
    let '(r, s) := outline_api rq (remote w) in
    (r, {| db := db w; remote := s; calls := calls w ++ [rq]; files := files w; now := now w |}).

Definition get_outline_document (doc_id : value) : M (option dict) :=
  outline_request (documents_info doc_id).

Definition create_outline_document (title : value) (body : text) (collection_id : text)
    (parent_doc_id : text) : M (option dict) :=
  outline_request
    (documents_create title body collection_id
       (if nonempty parent_doc_id then Some parent_doc_id else None)).

Definition update_outline_document (doc_id : value) (title body : option text)
  : M (option dict) :=
  outline_request
    (documents_update doc_id
       (match title with Some t => if nonempty t then Some t else None | None => None end)
       (match body with Some t => if nonempty t then Some t else None | None => None end)).

(** [doc[k]] on what a request returned: [None] cannot be subscripted. *)
Definition subscript_doc (doc : option dict) (k : text) : result value :=
  match doc with
  | Some d => subscript d k
  | None => Raise TypeError
  end.

(** [(v or '').lower()] *)
Definition lower_or_empty (v : value) : result text :=
  match py_or v (VStr []) with
  | VStr s => Ok (str_lower s)
  | _ => Raise AttributeError
  end.

Definition is_day_tour (tour : dict) : result bool :=
  tour_type ← lower_or_empty (get tour (str "tour_type"));
  if contains (str "multi-day") tour_type || contains (str "multi day") tour_type then Ok false
  else if contains (str "day tour") tour_type || contains (str "day-tour") tour_type then Ok true
  else
    duration ← lower_or_empty (get tour (str "duration"));
    Ok (contains (str "half") duration || contains (str "full day") duration
        || bool_decide (duration ∈ [str "1 day"; str "1-day"])).

(** The dictionaries [push_tour_to_outline] returns, by their [action]. *)
Inductive push_outcome :=
| PushPlanned (tour_id title slug : value) (action : text) (existing_doc_id : value)
| PushSkipped (tour_id title slug : value)        (* 'skipped', reason 'markers_exist' *)
| PushDone (tour_id title slug : value) (action : text) (doc_id : value)
| PushError (tour_id title slug : value) (error : exn).

Definition editable_heading : text := str "## " ++ PENCIL ++ str " Editable Content".

(** [needle in v] *)
Definition contains_value (needle : text) (v : value) : result bool :=
  match v with
  | VStr s => Ok (contains needle s)
  | _ => Raise TypeError
  end.

Definition as_str (v : value) : text := match v with VStr s => s | _ => [] end.

Definition is_dict_true (d : option dict) : bool :=
  match d with Some d => negb (bool_decide (d = ∅)) | None => false end.

(** Push a single tour to Outline - prepends reference header to existing docs. *)
Definition push_tour_to_outline (tour : dict) (existing_docs : gmap (list N) dict)
    (dry_run force_update : bool) : M push_outcome :=
  tour_id <- lift (subscript tour (str "id")) ;;
  let slug := default (VStr []) (tour !! str "slug") in
  itinerary_days <- read (fun w => get_tour_itinerary (db w) tour_id) ;;
  pricing <- read (fun w => get_tour_pricing (db w) tour_id) ;;
  fees <- read (fun w => get_tour_fees (db w) tour_id) ;;
  let existing := match slug with VStr s => existing_docs !! s | _ => None end in
  if dry_run then
    title <- lift (subscript tour (str "title")) ;;
    existing_id <- lift (if is_dict_true existing then subscript_doc existing (str "id")
                         else Ok VNone) ;;
    ret (PushPlanned tour_id title slug
           (if is_dict_true existing && force_update then str "update"
            else if is_dict_true existing then str "prepend" else str "create")
           existing_id)
  else
    try_except
      (let finish doc action :=
         write_db (fun conn => log_sync conn (str "outline_push") tour_id (str "success")
                                 [(str "action", VStr action)] None) ;;;
         title <- lift (subscript tour (str "title")) ;;
         doc_id <- lift (subscript_doc doc (str "id")) ;;
         ret (PushDone tour_id title slug action doc_id) in
       if is_dict_true existing then
         existing_id <- lift (subscript_doc existing (str "id")) ;;
         existing_doc <- get_outline_document existing_id ;;
         let existing_text :=
           if is_dict_true existing_doc
           then default (VStr []) (default ∅ existing_doc !! str "text") else VStr [] in
         has_markers <- lift (contains_value editable_heading existing_text) ;;
         if has_markers && negb force_update then
           title <- lift (subscript tour (str "title")) ;;
           ret (PushSkipped tour_id title slug)
         else
           let legacy_content := strip_existing_header (as_str existing_text) in
           header <- lift (generate_reference_header str_title tour pricing fees itinerary_days) ;;
           let new_text :=
             if nonempty legacy_content then header ++ str "
" ++ legacy_content else header in
           doc <- update_outline_document existing_id None (Some new_text) ;;
           write_db (fun conn => update_tour_outline_doc_id conn tour_id existing_id) ;;;
           finish doc (if force_update then str "updated" else str "prepended")
       else
         clock <- read now ;;
         doc_text <- lift (generate_tour_document str_title tour itinerary_days pricing fees clock) ;;
         day_tour <- lift (is_day_tour tour) ;;
         let parent_doc_id :=
           if day_tour then OUTLINE_DAY_TOURS_DOC_ID else OUTLINE_MD_TOURS_DOC_ID in
         title <- lift (if truthy slug then Ok slug else subscript tour (str "title")) ;;
         doc <- create_outline_document title doc_text OUTLINE_COLLECTION_ID parent_doc_id ;;
         doc_id <- lift (subscript_doc doc (str "id")) ;;
         write_db (fun conn => update_tour_outline_doc_id conn tour_id doc_id) ;;;
         finish doc (str "created"))
      (fun e =>
         write_db (fun conn => log_sync conn (str "outline_push") tour_id (str "failed") [] (Some e)) ;;;
         title <- lift (subscript tour (str "title")) ;;
         ret (PushError tour_id title slug e)).

(** The dictionaries [pull_tour_from_outline] returns, by their [action]. *)
Inductive pull_outcome :=
| PullSkipped (tour_id title : value)             (* 'skipped', reason 'no_doc_id' *)
| PullNotFound (tour_id title : value)            (* 'error', 'Document not found' *)
| PullError (tour_id title : value) (error : exn)
| PullWouldUpdate (tour_id title : value) (fields : list text) (itinerary_days : nat)
| PullUpdated (tour_id title : value) (fields_updated days_updated : nat).

(** [re.finditer(pattern, v)] wants a string. *)
Definition parse_value (v : value) : result parsed :=
  match v with
  | VStr s => parse_outline_document uni_alnum uni_decimal s
  | _ => Raise TypeError
  end.

(** Pull changes from Outline document back to PostgreSQL. *)
Definition pull_tour_from_outline (tour : dict) (dry_run : bool) : M pull_outcome :=
  tour_id <- lift (subscript tour (str "id")) ;;
  let doc_id := get tour (str "outline_doc_id") in
  if negb (truthy doc_id) then
    title <- lift (subscript tour (str "title")) ;;
    ret (PullSkipped tour_id title)
  else
    try_except
      (doc <- get_outline_document doc_id ;;
       if negb (is_dict_true doc) then
         title <- lift (subscript tour (str "title")) ;;
         ret (PullNotFound tour_id title)
       else
         p <- lift (parse_value (default (VStr []) (default ∅ doc !! str "text"))) ;;
         if dry_run then
           title <- lift (subscript tour (str "title")) ;;
           ret (PullWouldUpdate tour_id title (map_to_list (fields p)).*1
                  (length (itinerary_days p)))
         else
           fields_updated <-
             (fun w => let '(conn, n) := update_tour_from_outline (db w) tour_id (fields p) in
                       (Ok n, with_db (fun _ => conn) w)) ;;
           days_updated <-
             (if nonempty (itinerary_days p) then
                fun w => let '(conn, n) :=
                           update_itinerary_from_outline (db w) tour_id (itinerary_days p) in
                         (Ok n, with_db (fun _ => conn) w)
              else ret 0) ;;
           write_db (fun conn =>
             log_sync conn (str "outline_pull") tour_id (str "success")
               [ (str "fields_updated", VInt (Z.of_nat fields_updated));
                 (str "days_updated", VInt (Z.of_nat days_updated)) ] None) ;;;
           title <- lift (subscript tour (str "title")) ;;
           ret (PullUpdated tour_id title fields_updated days_updated))
      (fun e =>
         write_db (fun conn => log_sync conn (str "outline_pull") tour_id (str "failed") [] (Some e)) ;;;
         title <- lift (subscript tour (str "title")) ;;
         ret (PullError tour_id title e)).

(** What a Pull of [tour] fetches and parses in the world [w], when the
    request and the parse succeed. *)
Definition pulled_document (w : world) (tour : dict) : option parsed :=
  match outline_api (documents_info (get tour (str "outline_doc_id"))) (remote w) with
  | (Ok (Some doc), _) =>
      match parse_value (default (VStr []) (doc !! str "text")) with
      | Ok p => Some p
      | Raise _ => None
      end
  | _ => None
  end.

End Engine.

Arguments db {server} w.
Arguments remote {server} w.
Arguments calls {server} w.
Arguments files {server} w.
Arguments now {server} w.

(** ** Notions used to state the properties *)

(** The groups a pattern captures. *)
Definition captures (r : regex) : list nat :=
  flat_map (fun a => match a with Rep _ _ _ (Some g) => [g] | _ => [] end) r.

(** The markers of an editable field. *)
Definition field_open (name : text) : text := str "<!-- FIELD:" ++ name ++ str " -->".
Definition field_close (name : text) : text := str "<!-- /FIELD:" ++ name ++ str " -->".

(** What the parser returns when it finds nothing. *)
Definition empty_parse : parsed := {| fields := ∅; itinerary_days := [] |}.

(** A row holds exactly the sub-fields of the parsed day, absent ones as
    NULL, and is marked as coming from the document store. *)
Definition replaced_by (day row : dict) : Prop :=
  row !! str "miles" = Some (get day (str "miles"))
  /\ row !! str "elevation" = Some (get day (str "elevation"))
  /\ row !! str "trails_waypoints" = Some (get day (str "trails_waypoints"))
  /\ row !! str "camp_lodging" = Some (get day (str "camp_lodging"))
  /\ row !! str "meals" = Some (get day (str "meals"))
  /\ row !! str "content" = Some (get day (str "content"))
  /\ row !! str "source" = Some (VStr (str "outline")).

(** The row of an itinerary table for a tour and a day number. *)
Definition has_key (tour_id day_num : value) (row : dict) : Prop :=
  get row (str "tour_id") = tour_id /\ get row (str "day_number") = day_num.

(** ** An in-memory document store

    A store to run the engine on examples: the documents by id.  A request
    for an unknown document is answered with an HTTP error. *)

Definition mem_update (title body : option text) (d : dict) : dict :=
  let d := match title with Some t => <[str "title" := VStr t]> d | None => d end in
  match body with Some b => <[str "text" := VStr b]> d | None => d end.

Definition mem_api (rq : request) (s : gmap (list N) dict)
  : result (option dict) * gmap (list N) dict :=
  match rq with
  | documents_info (VStr id) =>
      match s !! id with
      | Some d => (Ok (Some d), s)
      | None => (Raise HTTPError, s)
      end
  | documents_update (VStr id) title body =>
      match s !! id with
      | Some d => (Ok (Some (mem_update title body d)), <[id := mem_update title body d]> s)
      | None => (Raise HTTPError, s)
      end
  | documents_create title body _ _ =>
      let id := str "doc-" ++ str_of_N (N.of_nat (size s)) in
      let d : dict := <[str "id" := VStr id]> (<[str "title" := title]> (<[str "text" := VStr body]> ∅)) in
      (Ok (Some d), <[id := d]> s)
  | _ => (Raise HTTPError, s)
  end.

(** ASCII-only stand-ins for the interpreter's Unicode tables and case
    mappings, to run examples. *)
Definition no_alnum (c : char) : bool := false.
Definition no_decimal (c : char) : option N := None.
Definition ascii_lower (s : text) : text :=
  List.map (fun c => if (65 <=? c)%N && (c <=? 90)%N then (c + 32)%N else c) s.
Definition ascii_upper_char (c : char) : char :=
  if (97 <=? c)%N && (c <=? 122)%N then (c - 32)%N else c.
Fixpoint ascii_title_from (prev_cased : bool) (s : text) : text :=
  match s with
  | [] => []
  | c :: s' =>
      let cased := (65 <=? c)%N && (c <=? 90)%N || (97 <=? c)%N && (c <=? 122)%N in
      (if prev_cased then (if (65 <=? c)%N && (c <=? 90)%N then (c + 32)%N else c)
       else ascii_upper_char c) :: ascii_title_from cased s'
  end.
Definition ascii_title (s : text) : text := ascii_title_from false s.

(** ** Example data *)

Definition example_tour : dict :=
  list_to_map
    [ (str "id", VInt 42); (str "title", VStr (str "Moab Classic"));
      (str "slug", VStr (str "moab-classic")); (str "region", VStr (str "Moab"));
      (str "description", VStr (str "A classic ride.")); (str "terrain", VStr (str "Slickrock"));
      (str "outline_doc_id", VStr (str "doc-1")) ].

Definition example_day (n : Z) (miles : string) : dict :=
  list_to_map
    [ (str "tour_id", VInt 42); (str "day_number", VInt n); (str "miles", VStr (str miles));
      (str "elevation", VStr (str "1200ft")); (str "content", VStr (str "Old text."));
      (str "source", VStr (str "website")) ].

Definition example_database : database :=
  {| tours := [ <[str "last_outline_sync" := VNone]> example_tour ];
     tour_itinerary_days := [ example_day 0 "10"; example_day 3 "18-22" ];
     tour_pricing := fun _ => [];
     tour_fees := fun _ => [];
     sync_log := [];
     CURRENT_TIMESTAMP := str "2025-03-09 07:45:00" |}.

Definition example_now : datetime :=
  {| year := 2025; month := 3; day := 9; hour := 7; minute := 45 |}.

(** A world whose store holds one document, [doc-1], with the given body. *)
Definition example_world (body : text) : world (gmap (list N) dict) :=
  {| db := example_database;
     remote := {[ str "doc-1" :=
                  <[str "id" := VStr (str "doc-1")]>
                  (<[str "title" := VStr (str "moab-classic")]>
                  (<[str "text" := VStr body]> ∅)) ]};
     calls := [];
     files := ∅;
     now := example_now |}.

(** A document in which somebody inserted a block for the read-only [slug]. *)
Definition edited_document : text :=
  str "<!-- FIELD:slug -->
hacked
<!-- /FIELD:slug -->
<!-- FIELD:description -->
A better ride.
<!-- /FIELD:description -->".

Definition text_of (r : result (list N)) : text :=
  match r with Ok t => t | Raise _ => [] end.

(** The document the create path of Push writes for the example tour. *)
Definition created_document : text :=
  text_of (generate_tour_document ascii_title example_tour
             (get_tour_itinerary example_database (VInt 42)) [] [] example_now).

(** The header the prepend path of Push writes for the example tour. *)
Definition example_header : text :=
  text_of (generate_reference_header ascii_title example_tour [] []
             (get_tour_itinerary example_database (VInt 42))).

(** A document that already went through the prepend path. *)
Definition marked_document : text := example_header ++ str "
Notes written by hand.".

Definition example_existing_docs : gmap (list N) dict :=
  {[ str "moab-classic" :=
       <[str "id" := VStr (str "doc-1")]>
       (<[str "title" := VStr (str "moab-classic")]>
       (<[str "parent" := VStr (str "multi-day")]> ∅)) ]}.

Definition example_push (body : text) (dry_run force_update : bool) :=
  push_tour_to_outline (gmap (list N) dict) mem_api (str "collection") (str "day-tours")
    (str "multi-day-tours") ascii_title ascii_lower example_tour example_existing_docs
    dry_run force_update (example_world body).

(** A day block whose number has one digit more than [int] converts. *)
Definition long_number : text := replicate 4301 49%N.
Definition long_day_document : text :=
  str "<!-- ITINERARY_DAY:" ++ long_number ++ str " -->
Ride.
<!-- /ITINERARY_DAY:" ++ long_number ++ str " -->".

(** An unterminated description marker, followed by that day block. *)
Definition unterminated_long_document : text :=
  str "<!-- FIELD:description -->
Half an edit
" ++ long_day_document.

(** A document with the reference and editable headings of the header and
    hand-written notes, but without the legacy heading. *)
Definition headed_document : text :=
  reference_marker ++ str "
" ++ editable_heading ++ str "
Notes written by hand.".

(** The tour of the scenario: nothing filled in yet. *)
Definition blank_tour : dict :=
  list_to_map
    [ (str "id", VInt 42); (str "title", VStr (str "Moab Classic"));
      (str "slug", VStr (str "moab-classic")); (str "description", VStr (str ""));
      (str "outline_doc_id", VStr (str "doc-1")) ].

(** What the two generators write for it. *)
Definition blank_document : text :=
  text_of (generate_tour_document ascii_title blank_tour [] [] [] example_now).
Definition blank_header : text :=
  text_of (generate_reference_header ascii_title blank_tour [] [] []).

(** ** The parts of a generated document

    The sections [generate_tour_document] writes one after the other, and
    the notions the properties of a rendered document are stated with. *)

(** The lines of a day between its markers: statistics, route, lodging,
    meals and free text, each followed by an empty line when present. *)
Definition day_items (d : dict) : list value :=
  let stats := stat "Miles" (get d (str "miles")) ++ stat "Elevation" (get d (str "elevation")) in
  when (nonempty stats) [ VStr (join_bar stats); L "" ]
  ++ when (truthy (get d (str "trails_waypoints")))
       [ VStr (str "**Route:** " ++ fmt (get d (str "trails_waypoints"))); L "" ]
  ++ when (truthy (get d (str "camp_lodging")))
       [ VStr (str "**Lodging:** " ++ fmt (get d (str "camp_lodging"))); L "" ]
  ++ when (truthy (get d (str "meals")))
       [ VStr (str "**Meals:** " ++ fmt (get d (str "meals"))); L "" ]
  ++ when (truthy (get d (str "content"))) [ get d (str "content"); L "" ].


(** READ-ONLY: title, reference identifiers, classification info, pricing *)
Definition read_only_lines (str_title : text -> text) (tour : dict) (title : value)
    (pricing : list (text * value * value)) (fees : list (text * value)) : list value :=
  [ VStr (str "# " ++ fmt title); L "" ]
  ++ when (truthy (get tour (str "subtitle")))
       [ VStr (str "*" ++ fmt (get tour (str "subtitle")) ++ str "*"); L "" ]
  ++ [ L "---"; VStr (str "## " ++ LINK ++ str " Reference IDs");
       VStr (str "> " ++ WARNING ++ str " **Read-Only** - Cross-system identifiers for this tour.");
       L ""; L "| System | Identifier |"; L "|--------|------------|";
       VStr (str "| **Title** | " ++ fmt title ++ str " |") ]
  ++ reference_rows tour
  ++ [ L ""; L "---"; VStr (str "## " ++ CLIPBOARD ++ str " Tour Information");
       VStr (str "> " ++ WARNING
             ++ str " **Read-Only Section** - This data comes from the website and cannot be edited here.");
       L "" ]
  ++ info_lines tour
  ++ [ L "" ]
  ++ pricing_lines str_title
       (str "> " ++ WARNING ++ str " **Read-Only Section** - Pricing is managed in Arctic Reservations.")
       pricing fees.

(** EDITABLE: Description *)
Definition description_lines (tour : dict) : list value :=
  [ L "---"; VStr (str "## " ++ PENCIL ++ str " Description"); EDITABLE_NOTE; L "";
    L "### Short Description" ]
  ++ field_block "short_description"
       (py_or (get tour (str "short_description")) (L "_No short description yet._"))
  ++ [ L "### Full Description" ]
  ++ field_block "description" (py_or (get tour (str "description")) (L "_No description yet._"))
  ++ when (truthy (get tour (str "special_notes")))
       ([ L "### Special Notes" ] ++ field_block "special_notes" (get tour (str "special_notes"))).

(** EDITABLE: Trip Details *)
Definition trip_details_lines (tour : dict) : list value :=
  [ L "---"; VStr (str "## " ++ PENCIL ++ str " Trip Details"); EDITABLE_NOTE; L "";
    L "### Meeting Information" ]
  ++ field_block "meeting_time" (labeled "Time" (get tour (str "meeting_time")) "_Not specified_")
  ++ field_block "meeting_location"
       (labeled "Location" (get tour (str "meeting_location")) "_Not specified_")
  ++ [ L "### Difficulty & Terrain" ]
  ++ field_block "tour_rating" (labeled "Tour Rating" (get tour (str "tour_rating")) "_Not specified_")
  ++ field_block "terrain" (labeled "Terrain" (get tour (str "terrain")) "_Not specified_")
  ++ field_block "technical_difficulty"
       (labeled "Technical Difficulty" (get tour (str "technical_difficulty")) "_Not specified_")
  ++ field_block "altitude" (labeled "Altitude" (get tour (str "altitude")) "_Not specified_").

(** EDITABLE: Itinerary *)
Definition itinerary_lines (day_blocks : list (list value)) : list value :=
  when (nonempty day_blocks)
    ([ L "---"; VStr (str "## " ++ PENCIL ++ str " Day-by-Day Itinerary"); EDITABLE_NOTE; L "" ]
     ++ concat day_blocks).

(** Footer with sync info; [now] is the clock reading. *)
Definition footer_lines (now : datetime) : list value :=
  [ L "---"; L "*This document is synced with the RimTours database.*";
    VStr (str "*Last sync: " ++ strftime now ++ str "*") ].


(** The character [c] does not occur in [s]. *)
Definition lacks (c : char) (s : text) : bool := forallb (fun x => negb (x =? c)%N) s.

(** [l] cannot start at the head of [p], whatever follows [p]: the two
    differ at a position both have. *)
Fixpoint clash (l p : text) : bool :=
  match l, p with
  | a :: l', b :: p' => if (a =? b)%N then clash l' p' else true
  | _, _ => false
  end.

(** [l] cannot start anywhere inside [p], whatever follows [p]. *)
Fixpoint quiet (l p : text) : bool :=
  match p with
  | [] => true
  | _ :: p' => clash l p && quiet l p'
  end.

(** ["".join(line + "\n" for line in lines)] *)
Definition unlines (ls : list text) : text := concat (List.map (fun l => l ++ [NL]) ls).

(** Paragraphs separated by an empty line. *)
Fixpoint sep_join (ps : list text) : text :=
  match ps with
  | [] => []
  | [p] => p
  | p :: ps' => p ++ NL :: NL :: sep_join ps'
  end.

(** What follows a paragraph: nothing, or an empty line and the later
    paragraphs. *)
Definition sep_tail (ps : list text) : text :=
  match ps with
  | [] => []
  | _ => NL :: NL :: sep_join ps
  end.

(** The editable fields the renderer wraps in Field Blocks, in the order of
    the document. *)
Definition BLOCK_FIELDS : list text :=
  [ str "short_description"; str "description"; str "special_notes";
    str "meeting_time"; str "meeting_location"; str "tour_rating";
    str "terrain"; str "technical_difficulty"; str "altitude" ].

(** The texts the parser takes for a rendered default. *)
Definition is_placeholder (name v : text) : bool :=
  bool_decide (name ∈ LABELED_FIELDS) && text_eqb v (str "_Not specified_")
  || text_eqb v (str "_No short description yet._")
  || text_eqb v (str "_No description yet._").

(** The value of a record for a field, when it has a real one. *)
Definition field_value (tour : dict) (name : text) : option text :=
  match get tour name with
  | VStr v => if nonempty v && negb (is_placeholder name v) then Some v else None
  | _ => None
  end.

(** The map from the given fields to the values of the record, placeholders
    and empty values excluded. *)
Definition field_values (names : list text) (tour : dict) : gmap (list N) (list N) :=
  fold_left (fun fs name => match field_value tour name with
                            | Some v => <[name := v]> fs
                            | None => fs
                            end) names ∅.

Definition DAY_FIELDS : list text :=
  [ str "miles"; str "elevation"; str "trails_waypoints"; str "camp_lodging";
    str "meals"; str "content" ].

(** An itinerary day as a parse gives it back: the day number and the
    sub-fields that have a value. *)
Definition restored_day (d : dict) : dict :=
  fold_left (fun acc k => match get d k with
                          | VStr v => if nonempty v then <[k := VStr v]> acc else acc
                          | _ => acc
                          end) DAY_FIELDS {[ str "day_number" := get d (str "day_number") ]}.

(** A value is missing, empty, or a trimmed string without the given
    characters. *)
Definition plain_value (excluded : list char) (v : value) : Prop :=
  v = VNone
  \/ exists s, v = VStr s
               /\ (s = [] \/ (strip s = s /\ forallb (fun c => lacks c s) excluded = true)).

(** A record the round trip holds for: no value prints with a ['<'], the
    values of the block fields are trimmed, and those rendered after a label
    are on one line. *)
Definition wf_tour (tour : dict) : Prop :=
  (forall k v, tour !! k = Some v -> lacks 60 (fmt v) = true)
  /\ (forall name, name ∈ [str "short_description"; str "description"; str "special_notes"] ->
                   plain_value [] (get tour name))
  /\ (forall name, name ∈ LABELED_FIELDS -> plain_value [NL] (get tour name)).

(** A day the round trip holds for: a day number that is not negative and
    that [int] reads back (it prints in at most [int_max_str_digits]
    digits), and sub-fields that are trimmed and free of ['<'], ['*'] and
    ['|']; those rendered after a label are on one line. *)
Definition wf_day (d : dict) : Prop :=
  (exists n, d !! str "day_number" = Some (VInt n) /\ (0 <= n)%Z
             /\ int_digits_ok (str_of_Z n) = true)
  /\ (forall k, k ∈ [str "miles"; str "elevation"; str "trails_waypoints"; str "camp_lodging";
                     str "meals"] ->
                plain_value [60%N; 42%N; 124%N; NL] (get d k))
  /\ plain_value [60%N; 42%N; 124%N] (get d (str "content")).

Definition wf_pricing (pricing : list (text * value * value)) (fees : list (text * value))
  : Prop :=
  Forall (fun row => lacks 60 row.1.1 = true /\ lacks 60 (fmt row.1.2) = true
                     /\ lacks 60 (fmt row.2) = true) pricing
  /\ Forall (fun row => lacks 60 row.1 = true /\ lacks 60 (fmt row.2) = true) fees.

(** A line of the document that is a string without ['<']. *)
Definition is_str (v : value) : Prop := exists s, v = VStr s.
Definition clean_line (v : value) : Prop := is_str v /\ lacks 60 (as_str v) = true.

(** A field between its markers, as the renderer writes it. *)
Definition block_text (name : string) (body : text) : text :=
  field_open (str name) ++ NL :: body ++ NL :: field_close (str name).

(** The paragraphs with their text removed. *)
Definition blank_of (ps : list text) : list text := List.map (fun _ => []) ps.

(** The paragraphs the renderer writes for a day between its markers. *)
Definition stats_paragraph (d : dict) : list text :=
  let stats := stat "Miles" (get d (str "miles")) ++ stat "Elevation" (get d (str "elevation")) in
  if nonempty stats then [join_bar stats] else [].

(** The statistics line of a day that has both. *)
Definition both_stats (m e : text) : text :=
  (str "**" ++ str "Miles" ++ str ":**") ++ 32%N :: m ++ str " | "
  ++ (str "**" ++ str "Elevation" ++ str ":**") ++ 32%N :: e.

Definition line_paragraphs (d : dict) : list text :=
  stat "Route" (get d (str "trails_waypoints"))
  ++ stat "Lodging" (get d (str "camp_lodging"))
  ++ stat "Meals" (get d (str "meals")).

Definition content_paragraph (d : dict) : list text :=
  if truthy (get d (str "content")) then [as_str (get d (str "content"))] else [].

Definition day_paragraphs (d : dict) : list text :=
  stats_paragraph d ++ line_paragraphs d ++ content_paragraph d.


(** The lines [generate_tour_document] writes for a day that has a day
    number. *)
Definition rendered_day (d : dict) : list value :=
  [ VStr (str "### Day " ++ fmt (get d (str "day_number")));
    VStr (str "<!-- ITINERARY_DAY:" ++ fmt (get d (str "day_number")) ++ str " -->");
    L "" ]
  ++ day_items d
  ++ [ VStr (str "<!-- /ITINERARY_DAY:" ++ fmt (get d (str "day_number")) ++ str " -->");
       L "" ].

(** A value ['\n'.join] accepts where the renderer writes it as a line of
    its own: a string, or a value that counts as false (and is replaced by
    a placeholder or left out). *)
Definition text_or_empty (v : value) : bool :=
  match v with
  | VStr _ => true
  | _ => negb (truthy v)
  end.

(** The free-text values the renderer writes as lines of their own. *)
Definition raw_lines_ok (tour : dict) (days : list dict) : Prop :=
  text_or_empty (get tour (str "short_description")) = true
  /\ text_or_empty (get tour (str "description")) = true
  /\ text_or_empty (get tour (str "special_notes")) = true
  /\ Forall (fun d => text_or_empty (get d (str "content")) = true) days.

(** ** The commands: all tours at once

    [push_all_to_outline] and [pull_all_from_outline] print their progress
    and return nothing; here they return what their last lines print, the
    dictionary of counters, and [None] when they stop for want of an API
    key.  The connection to the database is the store of the world. *)

(** Dictionaries with any value as key, as [docs_by_slug] is. *)
#[global] Instance value_countable : Countable value.
Proof.
  refine (inj_countable'
            (fun v => match v with
                      | VNone => inl tt
                      | VStr s => inr (inl s)
                      | VInt z => inr (inr (inl z))
                      | VTime t => inr (inr (inr t))
                      end)
            (fun x => match x with
                      | inl _ => VNone
                      | inr (inl s) => VStr s
                      | inr (inr (inl z)) => VInt z
                      | inr (inr (inr t)) => VTime t
                      end) _).
  intros [| | |]; reflexivity.
Defined.

(** The columns [get_tours_from_db] selects. *)
Definition TOUR_COLUMNS : list text :=
  [ str "id"; str "website_id"; str "title"; str "slug"; str "permalink";
    str "tour_type"; str "region"; str "duration"; str "season"; str "style";
    str "skill_level";
    str "subtitle"; str "short_description"; str "description"; str "special_notes";
    str "departs"; str "distance"; str "scheduled_dates";
    str "meeting_time"; str "meeting_location";
    str "tour_rating"; str "terrain"; str "technical_difficulty"; str "altitude";
    str "reservation_link"; str "outline_doc_id";
    str "arctic_id"; str "arctic_shortname" ].

(** [results[key] += 1] *)
Definition count (key : string) (results : gmap (list N) nat) : result (gmap (list N) nat) :=
  match results !! str key with
  | Some n => Ok (<[str key := S n]> results)
  | None => Raise (KeyError (str key))
  end.

(** [result['action']] *)
Definition pull_action (o : pull_outcome) : text :=
  match o with
  | PullSkipped _ _ => str "skipped"
  | PullNotFound _ _ | PullError _ _ _ => str "error"
  | PullWouldUpdate _ _ _ _ => str "would_update"
  | PullUpdated _ _ _ _ => str "updated"
  end.

Definition push_action (o : push_outcome) : text :=
  match o with
  | PushPlanned _ _ _ action _ | PushDone _ _ _ action _ => action
  | PushSkipped _ _ _ => str "skipped"
  | PushError _ _ _ _ => str "error"
  end.

(** The entries of [existing_docs] a string slug can find. *)
Definition text_keys (docs : gmap value dict) : gmap (list N) dict :=
  map_fold (fun k (doc : dict) (acc : gmap (list N) dict) =>
              match k with VStr s => <[s := doc]> acc | _ => acc end) ∅ docs.

Section Commands.

Variable server : Type.
Variable outline_api : request -> server -> result (option dict) * server.
(** The [data] member of the answer to [documents.list], [[]] when it is
    missing. *)
Variable outline_list_api : request -> server -> result (list dict) * server.

Variables OUTLINE_API_KEY OUTLINE_COLLECTION_ID : text.
Variables OUTLINE_DAY_TOURS_DOC_ID OUTLINE_MD_TOURS_DOC_ID : text.

Variable str_title : text -> text.
Variable str_lower : text -> text.
Variable uni_alnum : char -> bool.
Variable uni_decimal : char -> option N.

(** [ORDER BY t.title], under the collation of the database. *)
Variable order_by_title : list dict -> list dict.

Notation "x <- m ;; k" := (bind server m (fun x => k))
  (at level 100, m at next level, k at level 200, right associativity).

(** Fetch all tours from PostgreSQL. *)
Definition get_tours_from_db (conn : database) : list dict :=
  List.map (select TOUR_COLUMNS) (order_by_title (tours conn)).

(** [outline_request('documents.list', ...)] and the list it returns. *)
Definition outline_list_request (rq : request) : M server (list dict) :=
  fun w =>
    let '(r, s) := outline_list_api rq (remote w) in
    (r, {| db := db w; remote := s; calls := calls w ++ [rq]; files := files w; now := now w |}).

(** The body of the loop of [get_existing_tour_docs]. *)
Definition tour_doc_entry (docs_by_slug : gmap value dict) (doc : dict)
  : result (gmap value dict) :=
  let parent := get doc (str "parentDocumentId") in
  if bool_decide (parent = VStr OUTLINE_DAY_TOURS_DOC_ID)
     || bool_decide (parent = VStr OUTLINE_MD_TOURS_DOC_ID) then
    slug ← subscript doc (str "title");
    id ← subscript doc (str "id");
    title ← subscript doc (str "title");
    Ok (<[slug := <[str "id" := id]>
                  (<[str "title" := title]>
                  (<[str "parent" := if bool_decide (parent = VStr OUTLINE_DAY_TOURS_DOC_ID)
                                      then VStr (str "day") else VStr (str "multi-day")]> ∅))]>
          docs_by_slug)
  else Ok docs_by_slug.

Fixpoint fold_result {A S} (body : S -> A -> result S) (l : list A) (s : S) : result S :=
  match l with
  | [] => Ok s
  | x :: l' => s' ← body s x; fold_result body l' s'
  end.

(** Get all existing tour documents under Day Tours and Multi-Day parents. *)
Definition get_existing_tour_docs : M server (gmap value dict) :=
  docs <- outline_list_request (documents_list OUTLINE_COLLECTION_ID 100 None) ;;
  lift server (fold_result tour_doc_entry docs ∅).

(** A [for] loop that carries [results] along. *)
Fixpoint for_each {A S} (body : S -> A -> M server S) (l : list A) (s : S) : M server S :=
  match l with
  | [] => ret server s
  | x :: l' => s' <- body s x ;; for_each body l' s'
  end.

(** The branches on [result['action']] in the loop of a Pull of all tours;
    the lines printed for an update and for an error name the title. *)
Definition tally_pull (results : gmap (list N) nat) (tour : dict) (o : pull_outcome)
  : result (gmap (list N) nat) :=
  let action := pull_action o in
  if text_eqb action (str "updated") || text_eqb action (str "would_update") then
    results ← count "updated" results; _ ← subscript tour (str "title"); Ok results
  else if text_eqb action (str "skipped") then count "skipped" results
  else if text_eqb action (str "error") then
    results ← count "errors" results; _ ← subscript tour (str "title"); Ok results
  else Ok results.

(** Pull changes from all Outline documents back to PostgreSQL. *)
Definition pull_all_from_outline (dry_run : bool) : M server (option (gmap (list N) nat)) :=
  if negb (nonempty OUTLINE_API_KEY) then ret server None
  else
    tours <- read server (fun w => get_tours_from_db (db w)) ;;
    let linked_tours :=
      List.filter (fun t => truthy (get t (str "outline_doc_id"))) tours in
    results <-
      for_each
        (fun results tour =>
           result <- pull_tour_from_outline server outline_api uni_alnum uni_decimal tour dry_run ;;
           lift server (tally_pull results tour result))
        linked_tours
        (<[str "updated" := 0]> (<[str "skipped" := 0]> (<[str "errors" := 0]> ∅))) ;;
    ret server (Some results).

(** The branches on [result['action']] in the loop of a Push of all tours. *)
Definition tally_push (results : gmap (list N) nat) (o : push_outcome)
  : result (gmap (list N) nat) :=
  let action := push_action o in
  if text_eqb action (str "create") || text_eqb action (str "created") then
    count "created" results
  else if text_eqb action (str "update") || text_eqb action (str "updated") then
    count "updated" results
  else if text_eqb action (str "prepend") || text_eqb action (str "prepended") then
    count "prepended" results
  else if text_eqb action (str "skipped") then count "skipped" results
  else if text_eqb action (str "error") then count "errors" results
  else Ok results.

(** Push all tours to Outline. *)
Definition push_all_to_outline (dry_run force_update : bool)
  : M server (option (gmap (list N) nat)) :=
  if negb (nonempty OUTLINE_API_KEY) then ret server None
  else
    existing_docs <- get_existing_tour_docs ;;
    tours <- read server (fun w => get_tours_from_db (db w)) ;;
    results <-
      for_each
        (fun results tour =>
           let slug := default (VStr []) (tour !! str "slug") in
           if negb (truthy slug) then
             lift server (results ← count "no_slug" results;
                          _ ← subscript tour (str "title"); Ok results)
           else
             result <- push_tour_to_outline server outline_api OUTLINE_COLLECTION_ID
                         OUTLINE_DAY_TOURS_DOC_ID OUTLINE_MD_TOURS_DOC_ID str_title str_lower
                         tour (text_keys existing_docs) dry_run force_update ;;
             lift server (tally_push results result))
        tours
        (<[str "created" := 0]> (<[str "updated" := 0]> (<[str "prepended" := 0]>
           (<[str "skipped" := 0]> (<[str "errors" := 0]> (<[str "no_slug" := 0]> ∅)))))) ;;
    ret server (Some results).

End Commands.

(** ** The file names of the local preview

    The name [generate_local_preview] gives the file of a tour.  The two
    substitutions are written out: [re.sub(r'[^\w\s-]', '', s)] drops the
    characters outside the class, and [re.sub(r'[-\s]+', '-', s)] puts one
    ['-'] for every maximal run of dashes and white space. *)
Section Preview.

Variable uni_alnum : char -> bool.

(** [[\w\s-]] *)
Definition name_char (c : char) : bool :=
  is_word uni_alnum c || is_space c || (c =? 45)%N.

(** [[-\s]] *)
Definition dash_or_space (c : char) : bool := (c =? 45)%N || is_space c.

Fixpoint dash_runs (in_run : bool) (s : text) : text :=
  match s with
  | [] => []
  | c :: s' =>
      if dash_or_space c
      then (if in_run then dash_runs true s' else 45%N :: dash_runs true s')
      else c :: dash_runs false s'
  end.

Definition safe_name (tour : dict) : result text :=
  title ← subscript tour (str "title");
  match title with
  | VStr t => Ok (dash_runs false (strip (List.filter name_char t)))
  | _ => Raise TypeError
  end.

Definition filename (output_dir : text) (tour : dict) : result text :=
  name ← safe_name tour;
  Ok (output_dir ++ str "/" ++ name ++ str ".md").

End Preview.

(** ** An example listing

    What [documents.list] answers in the examples: one document under each
    parent and one elsewhere. *)
Definition example_listing : list dict :=
  [ <[str "id" := VStr (str "doc-1")]> (<[str "title" := VStr (str "moab-classic")]>
      (<[str "parentDocumentId" := VStr (str "multi-day-tours")]> ∅));
    <[str "id" := VStr (str "doc-2")]> (<[str "title" := VStr (str "slickrock-loop")]>
      (<[str "parentDocumentId" := VStr (str "day-tours")]> ∅));
    <[str "id" := VStr (str "doc-3")]> (<[str "title" := VStr (str "Staff notes")]>
      (<[str "parentDocumentId" := VNone]> ∅)) ].

Definition mem_list_api (rq : request) (s : gmap (list N) dict)
  : result (list dict) * gmap (list N) dict :=
  match rq with
  | documents_list _ _ _ => (Ok example_listing, s)
  | _ => (Raise HTTPError, s)
  end.

(** ** The end of the reference header

    The last section [generate_reference_header] writes; it starts with the
    marker [strip_existing_header] looks for. *)
Definition legacy_section : text :=
  legacy_marker ++ str "
> Previous content preserved below. Move relevant info to editable fields above.
".



(** ** The matcher *)

Section RegexFacts.

Lemma startswith_app (p s : list N) : startswith p (p ++ s) = true.
Proof. induction p as [|a p IH]; simpl; auto. rewrite N.eqb_refl. exact IH. Qed.

Lemma startswith_true (p s : list N) :
  startswith p s = true <-> exists s', s = p ++ s'.
Proof.
  revert s. induction p as [|a p IH]; intros s; simpl.
  - split; eauto.
  - destruct s as [|b s].
    + split; [discriminate | intros [s' H]; discriminate H].
    + rewrite andb_true_iff, N.eqb_eq, IH. split.
      * intros [-> [s' ->]]. eauto.
      * intros [s' [= -> ->]]. eauto.
Qed.

Lemma drop_length_app (p s : list N) : drop (length p) (p ++ s) = s.
Proof. induction p; simpl; auto. Qed.

Lemma first_some_Some {A B} (f : A -> option B) (l : list A) (y : B) :
  first_some f l = Some y -> exists x, In x l /\ f x = Some y.
Proof.
  induction l as [|x l IH]; simpl; [discriminate|].
  destruct (f x) eqn:E.
  - intros [= <-]. eauto.
  - intros H. destruct (IH H) as (x' & Hin & Hx). eauto.
Qed.

Lemma first_some_None {A B} (f : A -> option B) (l : list A) :
  (forall x, In x l -> f x = None) -> first_some f l = None.
Proof.
  induction l as [|x l IH]; simpl; auto.
  intros H. rewrite (H x) by auto. apply IH. auto.
Qed.

Lemma candidates_range (q : quant) (lo hi n : nat) :
  In n (candidates q lo hi) <-> lo <= n <= hi.
Proof.
  unfold candidates. destruct q; [rewrite <- in_rev|]; rewrite in_seq; lia.
Qed.

Lemma span_take (cls : N -> bool) (s : list N) (n : nat) :
  n <= span cls s -> forallb cls (take n s) = true /\ length (take n s) = n.
Proof.
  revert n. induction s as [|c s IH]; intros n; simpl.
  - intros H. assert (n = 0) by lia. subst. auto.
  - destruct (cls c) eqn:E.
    + destruct n as [|n]; simpl; auto. intros H. rewrite E. simpl.
      destruct (IH n) as [H1 H2]; [lia|]. rewrite H1, H2. auto.
    + intros H. assert (n = 0) by lia. subst. auto.
Qed.

(** Inversion of a successful match, atom by atom. *)
Lemma rmatch_lit (l : list N) (r : list atom) (s : list N) (gs : gmap nat (list N))
    (res : list N * gmap nat (list N)) :
  rmatch (Lit l :: r) s gs = Some res ->
  exists s', s = l ++ s' /\ rmatch r s' gs = Some res.
Proof.
  simpl. destruct (startswith l s) eqn:E; [|discriminate].
  apply startswith_true in E as [s' ->]. rewrite drop_length_app. eauto.
Qed.

Lemma rmatch_rep (q : quant) (lo : nat) (cls : N -> bool) (cap : option nat) (r : list atom)
    (s : list N) (gs : gmap nat (list N)) (res : list N * gmap nat (list N)) :
  rmatch (Rep q lo cls cap :: r) s gs = Some res ->
  exists v s', s = v ++ s' /\ lo <= length v /\ forallb cls v = true
               /\ rmatch r s' (set_cap cap v gs) = Some res.
Proof.
  simpl. intros H. apply first_some_Some in H as (n & Hin & Hn).
  apply candidates_range in Hin. destruct (span_take cls s n) as [Hc Hl]; [lia|].
  exists (take n s), (drop n s). rewrite take_drop. repeat split; auto. lia.
Qed.

Lemma rmatch_backref (g : nat) (r : list atom) (s : list N) (gs : gmap nat (list N))
    (res : list N * gmap nat (list N)) :
  rmatch (Backref g :: r) s gs = Some res ->
  exists v s', gs !! g = Some v /\ s = v ++ s' /\ rmatch r s' gs = Some res.
Proof.
  simpl. destruct (gs !! g) as [v|]; [|discriminate].
  destruct (startswith v s) eqn:E; [|discriminate].
  apply startswith_true in E as [s' ->]. rewrite drop_length_app. eauto.
Qed.

(** A match leaves alone the groups its pattern does not capture. *)
Lemma rmatch_frame (r : list atom) (g : nat) :
  ~ In g (captures r) ->
  forall (s : list N) (gs : gmap nat (list N)) (rest : list N) (gs' : gmap nat (list N)),
    rmatch r s gs = Some (rest, gs') -> gs' !! g = gs !! g.
Proof.
  induction r as [|a r IH]; intros Hg s gs rest gs' H.
  - simpl in H. congruence.
  - destruct a as [l|q lo cls cap|b].
    + apply rmatch_lit in H as (s' & -> & H). eapply IH; eauto.
    + apply rmatch_rep in H as (v & s' & -> & _ & _ & H).
      unfold captures in Hg. simpl in Hg. fold (captures r) in Hg.
      rewrite in_app_iff in Hg.
      rewrite (IH (fun Hin => Hg (or_intror Hin)) _ _ _ _ H).
      destruct cap as [c|]; simpl; auto.
      apply lookup_insert_ne. intros ->. apply Hg. left. left. reflexivity.
    + apply rmatch_backref in H as (v & s' & _ & -> & H). eapply IH; eauto.
Qed.

(** Every element of [finditer] is a match at some position. *)
Lemma finditer_from_In (r : list atom) (s : list N) (k : nat) (gs : gmap nat (list N)) :
  In gs (finditer_from r k s) ->
  exists a b rest, s = a ++ b /\ rmatch r b ∅ = Some (rest, gs).
Proof.
  revert k. induction s as [|c s IH]; intros k.
  - destruct k; simpl; [|tauto].
    destruct (rmatch r [] ∅) as [[rest g0]|] eqn:E; simpl; [|tauto].
    intros [<- | []]. exists [], [], rest. auto.
  - assert (Hrec : forall k', In gs (finditer_from r k' s) ->
                     exists a b rest, c :: s = a ++ b /\ rmatch r b ∅ = Some (rest, gs)).
    { intros k' H. destruct (IH k' H) as (a & b & rest & -> & Hm).
      exists (c :: a), b, rest. auto. }
    destruct k; simpl; [|apply Hrec].
    destruct (rmatch r (c :: s) ∅) as [[rest g0]|] eqn:E; simpl.
    + intros [<- | H]; [|eapply Hrec; eauto]. exists [], (c :: s), rest. auto.
    + apply Hrec.
Qed.

(** A pattern that starts with a literal which does not occur finds
    nothing. *)
Lemma find_None_startswith (l a b : list N) :
  find l (a ++ b) = None -> startswith l b = false.
Proof.
  induction a as [|c a IH]; simpl.
  - destruct b; simpl; destruct (startswith l _); auto; discriminate.
  - destruct (startswith l (c :: a ++ b)); [discriminate|].
    destruct (find l (a ++ b)); [discriminate|]. auto.
Qed.

Lemma finditer_no_literal (l : list N) (r : list atom) (s : list N) :
  contains l s = false -> finditer (Lit l :: r) s = [].
Proof.
  unfold contains, finditer. intros H.
  destruct (finditer_from (Lit l :: r) 0 s) as [|gs t] eqn:E; auto. exfalso.
  assert (Hin : In gs (finditer_from (Lit l :: r) 0 s)) by (rewrite E; left; reflexivity).
  apply finditer_from_In in Hin as (a & b & rest & -> & Hm).
  apply rmatch_lit in Hm as (s' & -> & _).
  destruct (find l (a ++ l ++ s')) eqn:F; [discriminate|].
  apply find_None_startswith in F. rewrite startswith_app in F. discriminate F.
Qed.

Lemma contains_app (l a c : list N) : contains l (a ++ l ++ c) = true.
Proof.
  unfold contains. destruct (find l (a ++ l ++ c)) eqn:F; auto.
  apply find_None_startswith in F. rewrite startswith_app in F. discriminate F.
Qed.

End RegexFacts.


(** ** The marker parser *)

Section ParserFacts.

Variable uni_alnum : N -> bool.
Variable uni_decimal : N -> option N.

Local Abbreviation parse := (parse_outline_document uni_alnum uni_decimal).

(** A match of the field pattern spans an open marker and the close
    marker of the same name; group 1 is that name. *)
Lemma field_match_markers (b rest : list N) (gs : gmap nat (list N)) :
  rmatch (field_pattern uni_alnum) b ∅ = Some (rest, gs) ->
  exists name mid,
    gs !! 1 = Some name /\ b = field_open name ++ mid ++ field_close name ++ rest.
Proof.
  unfold field_pattern. intros H.
  apply rmatch_lit in H as (s1 & -> & H).
  apply rmatch_rep in H as (name & s2 & -> & _ & _ & H).
  apply rmatch_lit in H as (s3 & -> & H).
  apply rmatch_rep in H as (w1 & s4 & -> & _ & _ & H).
  apply rmatch_rep in H as (v & s5 & -> & _ & _ & H).
  apply rmatch_rep in H as (w2 & s6 & -> & _ & _ & H).
  apply rmatch_lit in H as (s7 & -> & H).
  apply rmatch_backref in H as (name' & s8 & Hg & -> & H).
  apply rmatch_lit in H as (s9 & -> & H).
  simpl in H. injection H as <- <-.
  simpl in Hg. rewrite lookup_insert_ne in Hg by discriminate.
  rewrite lookup_insert_eq in Hg. injection Hg as <-.
  exists name, (w1 ++ v ++ w2). split.
  - simpl. rewrite lookup_insert_ne by discriminate. apply lookup_insert_eq.
  - unfold field_open, field_close. rewrite <- !app_assoc. reflexivity.
Qed.

(** A match of the day pattern captures a non-empty run of digits. *)
Lemma day_match_digits (b rest : list N) (gs : gmap nat (list N)) :
  rmatch (day_pattern uni_decimal) b ∅ = Some (rest, gs) ->
  exists ds, gs !! 1 = Some ds /\ nonempty ds = true
             /\ forallb (is_digit uni_decimal) ds = true.
Proof.
  unfold day_pattern. intros H.
  apply rmatch_lit in H as (s1 & -> & H).
  apply rmatch_rep in H as (ds & s2 & -> & Hlen & Hds & H).
  exists ds. repeat split; auto.
  - erewrite rmatch_frame; [| |exact H].
    + simpl. apply lookup_insert_eq.
    + simpl. intros [E | []]. discriminate E.
  - destruct ds; simpl in *; [lia | reflexivity].
Qed.

Lemma mapM_result_total {A B} (f : A -> result B) (l : list A) :
  (forall x, In x l -> exists y, f x = Ok y) -> exists ys, mapM f l = Ok ys.
Proof.
  induction l as [|x l IH]; intros H; simpl.
  - eexists. reflexivity.
  - destruct (H x) as [y Hy]; [left; reflexivity|].
    destruct IH as [ys Hys]; [intros; apply H; right; assumption|].
    rewrite Hy. cbn [mbind result_bind]. rewrite Hys. eexists. reflexivity.
Qed.

Lemma parse_day_ok (m : gmap nat (list N)) (ds : list N) :
  m !! 1 = Some ds -> nonempty ds = true -> forallb (is_digit uni_decimal) ds = true ->
  int_digits_ok ds = true ->
  exists d, parse_day uni_decimal m = Ok d.
Proof.
  intros Hm Hne Hds Hlen. unfold parse_day, py_int, group. rewrite Hm.
  cbn [default from_option id].
  rewrite Hne, Hds, Hlen. cbn [andb mbind result_bind]. eexists. reflexivity.
Qed.

(** A day number of more than [int_max_str_digits] digits is refused. *)
Lemma parse_day_long (m : gmap nat (list N)) :
  int_digits_ok (group 1 m) = false -> parse_day uni_decimal m = Raise ValueError.
Proof.
  intros Hlen. unfold parse_day, py_int. rewrite Hlen, andb_false_r. reflexivity.
Qed.

Lemma parse_day_raises (m : gmap nat (list N)) (e : exn) :
  parse_day uni_decimal m = Raise e -> e = ValueError.
Proof.
  unfold parse_day, py_int. destruct (_ && _); cbn [mbind result_bind]; congruence.
Qed.

Lemma mapM_parse_day_long (ms : list (gmap nat (list N))) :
  Exists (fun m => int_digits_ok (group 1 m) = false) ms ->
  mapM (parse_day uni_decimal) ms = Raise ValueError.
Proof.
  induction 1 as [m ms Hm | m ms _ IH]; cbn [mapM].
  - rewrite (parse_day_long m Hm). reflexivity.
  - destruct (parse_day uni_decimal m) as [d|e] eqn:Hd; cbn [mbind result_bind].
    + rewrite IH. reflexivity.
    + rewrite (parse_day_raises m e Hd). reflexivity.
Qed.

(** The parser returns when every day number is within the limit. *)
Lemma parse_returns (doc : list N) :
  Forall (fun m => int_digits_ok (group 1 m) = true) (finditer (day_pattern uni_decimal) doc) ->
  exists p, parse doc = Ok p.
Proof.
  intros Hlen. unfold parse_outline_document.
  destruct (mapM_result_total (parse_day uni_decimal) (finditer (day_pattern uni_decimal) doc))
    as [days Hdays].
  - intros m Hin. pose proof (proj1 (Forall_forall _ _) Hlen m Hin) as Hm.
    apply finditer_from_In in Hin as (a & b & rest & _ & Hmatch).
    apply day_match_digits in Hmatch as (ds & H1 & H2 & H3).
    eapply parse_day_ok; eauto. unfold group in Hm. rewrite H1 in Hm. exact Hm.
  - rewrite Hdays. cbn [mbind result_bind]. eexists. reflexivity.
Qed.

(** The keys of the field map are names captured by some match. *)
Lemma parse_field_keys (ms : list (gmap nat (list N))) (fs : gmap (list N) (list N))
    (name v : list N) :
  fold_left parse_field ms fs !! name = Some v ->
  is_Some (fs !! name) \/ exists m, In m ms /\ group 1 m = name.
Proof.
  revert fs. induction ms as [|m ms IH]; intros fs; simpl.
  - intros H. left. eauto.
  - intros H. destruct (IH _ H) as [Hs | (m' & Hin & Hg)].
    + unfold parse_field in Hs.
      match type of Hs with
      | is_Some ((if ?c then _ else _) !! _) => destruct c
      end; auto.
      destruct (decide (group 1 m = name)) as [E | E].
      * right. exists m. auto.
      * rewrite lookup_insert_ne in Hs by exact E. auto.
    + right. exists m'. auto.
Qed.

(** A field is in the map only when an open marker of its name is followed
    by the close marker of the same name. *)
Lemma parsed_field_markers (doc name : list N) (p : parsed) :
  ~ (exists a b c, doc = a ++ field_open name ++ b ++ field_close name ++ c) ->
  parse doc = Ok p -> fields p !! name = None.
Proof.
  intros Hno Hp. unfold parse_outline_document in Hp.
  destruct (mapM _ _) as [days|]; cbn [mbind result_bind] in Hp; [|discriminate].
  injection Hp as <-. cbn [fields].
  destruct (fold_left _ _ _ !! name) as [v|] eqn:E; auto. exfalso.
  apply parse_field_keys in E as [[x Hx] | (m & Hin & Hg)].
  - rewrite lookup_empty in Hx. discriminate Hx.
  - apply finditer_from_In in Hin as (a & b & rest & -> & Hm).
    apply field_match_markers in Hm as (name' & mid & Hg1 & ->).
    unfold group in Hg. rewrite Hg1 in Hg. simpl in Hg. subst name'.
    apply Hno. exists a, mid, rest. reflexivity.
Qed.



End ParserFacts.

Lemma no_close_marker_no_block (doc name : list N) :
  contains (field_close name) doc = false ->
  ~ (exists a b c, doc = a ++ field_open name ++ b ++ field_close name ++ c).
Proof.
  intros Hc (a & b & c & ->).
  replace (a ++ field_open name ++ b ++ field_close name ++ c)
    with ((a ++ field_open name ++ b) ++ field_close name ++ c) in Hc
    by (rewrite <- !app_assoc; reflexivity).
  rewrite contains_app in Hc. discriminate Hc.
Qed.





(** The scenario of the renderer's own defaults: every placeholder
    [generate_tour_document] writes is left out of the field map. *)
Lemma parse_blank_document :
  contains (str "<!-- FIELD:description -->
_No description yet._
<!-- /FIELD:description -->") blank_document = true
  /\ parse_outline_document no_alnum no_decimal blank_document = Ok empty_parse.
Proof. split; vm_compute; reflexivity. Qed.

(** C9, at a failing input. The placeholders [generate_reference_header]
    writes are not recognised: parsing the header generated for a tour
    without description yields the placeholder texts as field values, and a
    Pull of that document overwrites the stored description with one. *)
Lemma parse_keeps_header_placeholders :
  (fields <$> parse_outline_document no_alnum no_decimal blank_header)
  = Ok (list_to_map
          [ (str "short_description", str "_Enter a brief 1-2 sentence description._");
            (str "description", str "_Enter the full tour description._");
            (str "special_notes", str "_Any special notes or requirements._");
            (str "meeting_time", str "_e.g., 8:30 AM_");
            (str "meeting_location", str "_e.g., Rim Tours HQ, 1233 S Hwy 191_");
            (str "tour_rating", str "_e.g., Moderate/Intermediate_");
            (str "terrain", str "_Describe the terrain._");
            (str "technical_difficulty", str "_Describe technical aspects._");
            (str "altitude", str "_e.g., 4,500ft to 6,000ft_") ])
  /\ List.map (fun row : dict => row !! str "description")
       (tours (db (example_world blank_header)))
     = [ Some (VStr (str "A classic ride.")) ]
  /\ List.map (fun row : dict => row !! str "description")
       (tours (db (pull_tour_from_outline _ mem_api no_alnum no_decimal example_tour false
                     (example_world blank_header)).2))
     = [ Some (VStr (str "_Enter the full tour description._")) ].
Proof. repeat split; vm_compute; reflexivity. Qed.

(** * Properties *)

(** ** The canonical store under Pull *)

Section StoreFacts.

Lemma sql_update_length (cond : dict -> bool) (upd : dict -> dict) (t : list dict) :
  length (sql_update cond upd t) = length t.
Proof. unfold sql_update. apply length_map. Qed.

Lemma Forall2_sql_update (P : dict -> dict -> Prop) (cond : dict -> bool) (upd : dict -> dict) (t : list dict) :
  (forall row, P row row) ->
  (forall row, cond row = true -> P row (upd row)) ->
  Forall2 P t (sql_update cond upd t).
Proof.
  intros Hrefl Hset. induction t as [|row t IH]; simpl; constructor; auto.
  destruct (cond row) eqn:E; auto.
Qed.

(** The row written by [update_tour_from_outline] agrees with the old one
    on every column that is not an editable key of [updates], the
    timestamp apart. *)
Lemma safe_updates_frame (updates : gmap (list N) (list N)) (stamp : value) (row : dict) (f : list N) :
  f <> str "last_outline_sync" ->
  f ∉ EDITABLE_FIELDS \/ updates !! f = None ->
  ((VStr <$> filter (fun kv => kv.1 ∈ EDITABLE_FIELDS) updates)
     ∪ <[str "last_outline_sync" := stamp]> row) !! f = row !! f.
Proof.
  intros Hts Hf.
  rewrite lookup_union_r.
  - rewrite lookup_insert_ne; auto.
  - rewrite lookup_fmap.
    replace (filter (fun kv => kv.1 ∈ EDITABLE_FIELDS) updates !! f) with (@None (list N)); auto.
    symmetry. apply map_lookup_filter_None. destruct Hf as [Hf | Hf]; [right | left; auto].
    intros v _ Hin. simpl in Hin. contradiction.
Qed.

Lemma update_tour_from_outline_frame (conn : database) tour_id updates (f : list N) :
  f <> str "last_outline_sync" ->
  f ∉ EDITABLE_FIELDS \/ updates !! f = None ->
  Forall2 (fun row row' => row' !! f = row !! f)
          (tours conn) (tours (update_tour_from_outline conn tour_id updates).1).
Proof.
  intros Hts Hf. unfold update_tour_from_outline.
  case_bool_decide; simpl.
  - apply Forall2_same_length_lookup_2; auto. intros i x y Hx Hy. congruence.
  - apply Forall2_sql_update; auto.
    intros row _. apply safe_updates_frame; auto.
Qed.

Lemma Forall2_sql_update_cond (Q R : dict -> dict -> Prop) (cond : dict -> bool)
    (upd : dict -> dict) (t : list dict) :
  (forall row, cond row = true -> Q row (upd row)) ->
  (forall row, cond row = false -> R row row) ->
  Forall2 (fun row row' => if cond row then Q row row' else R row row')
          t (sql_update cond upd t).
Proof.
  intros HQ HR. induction t as [|row t IH]; simpl; constructor; auto.
  destruct (cond row) eqn:E; auto.
Qed.

(** An update that reports a row has stamped the rows of the tour, and
    only those. *)
Lemma update_tour_from_outline_stamps (conn : database) (tour_id : value)
    (updates : gmap (list N) (list N)) :
  0 < (update_tour_from_outline conn tour_id updates).2 ->
  Forall2 (fun row row' : dict =>
             if sql_eq (get row (str "id")) tour_id
             then row' !! str "last_outline_sync" = Some (VTime (CURRENT_TIMESTAMP conn))
             else row' = row)
          (tours conn) (tours (update_tour_from_outline conn tour_id updates).1).
Proof.
  unfold update_tour_from_outline. case_bool_decide; cbn [fst snd]; [lia|]. intros _.
  cbn [set_tours tours].
  apply (Forall2_sql_update_cond
           (fun _ row' : dict =>
              row' !! str "last_outline_sync" = Some (VTime (CURRENT_TIMESTAMP conn)))
           (fun row row' : dict => row' = row)); [|reflexivity].
  intros row _. rewrite lookup_union_r; [apply lookup_insert_eq|].
  rewrite lookup_fmap.
  replace (filter (fun kv => kv.1 ∈ EDITABLE_FIELDS) updates !! str "last_outline_sync")
    with (@None (list N)); auto.
  symmetry. apply map_lookup_filter_None. right. intros v _ Hin. cbn [fst] in Hin.
  vm_compute in Hin.
  repeat (apply elem_of_cons in Hin as [Hin | Hin]; [discriminate Hin|]). inversion Hin.
Qed.

Lemma update_itinerary_tours (conn : database) tour_id days :
  tours (update_itinerary_from_outline conn tour_id days).1 = tours conn.
Proof.
  unfold update_itinerary_from_outline.
  set (step := fun '(conn, count) day => _).
  assert (H : forall days (acc : database * nat), tours (fold_left step days acc).1 = tours acc.1).
  { clear. intros days. induction days as [|d days IH]; intros [c n]; simpl; auto.
    rewrite IH. destruct (negb _); reflexivity. }
  apply (H days (conn, 0)).
Qed.

End StoreFacts.

Section PullFacts.

Variable server : Type.
Variable outline_api : request -> server -> result (option dict) * server.
Variable uni_alnum : N -> bool.
Variable uni_decimal : N -> option N.

Local Abbreviation pull := (pull_tour_from_outline server outline_api uni_alnum uni_decimal).
Local Abbreviation pulled := (pulled_document server outline_api uni_alnum uni_decimal).

(** The tours table after a Pull: untouched, or rewritten by
    [update_tour_from_outline] with the fields parsed from the fetched
    document. *)
Lemma pull_tours_cases (w : world server) (tour : dict) (dry_run : bool) :
  tours (db (pull tour dry_run w).2) = tours (db w)
  \/ exists p tour_id,
       pulled w tour = Some p
       /\ tours (db (pull tour dry_run w).2)
          = tours (update_tour_from_outline (db w) tour_id (fields p)).1.
Proof.
  unfold pull_tour_from_outline, pulled_document, bind, lift, ret, try_except, write_db,
    get_outline_document, outline_request.
  destruct (subscript tour (str "id")) as [tour_id|e]; simpl; auto.
  destruct (truthy (get tour (str "outline_doc_id"))); simpl.
  2:{ destruct (subscript tour (str "title")); simpl; auto. }
  destruct (outline_api _ (remote w)) as [[doc|e] s]; simpl.
  2:{ destruct (subscript tour (str "title")); simpl; auto. }
  destruct doc as [doc|]; simpl.
  2:{ destruct (subscript tour (str "title")); simpl; auto. }
  case_bool_decide; simpl.
  { destruct (subscript tour (str "title")); simpl; auto. }
  destruct (parse_value _ _ _) as [p|e]; simpl.
  2:{ destruct (subscript tour (str "title")); simpl; auto. }
  destruct dry_run; simpl.
  { destruct (subscript tour (str "title")); simpl; auto. }
  right. exists p, tour_id. split; auto.
  destruct (update_tour_from_outline (db w) tour_id (fields p)) as [conn n] eqn:Hu; simpl.
  destruct (nonempty (itinerary_days p)); simpl.
  - destruct (update_itinerary_from_outline conn tour_id (itinerary_days p)) as [conn' n'] eqn:Hi.
    simpl.
    assert (Ht : tours conn' = tours conn).
    { pose proof (update_itinerary_tours conn tour_id (itinerary_days p)) as Hk.
      rewrite Hi in Hk. exact Hk. }
    destruct (subscript tour (str "title")); simpl; auto.
  - destruct (subscript tour (str "title")); simpl; auto.
Qed.

(** A Pull that reports an update has run [update_tour_from_outline] with
    the parsed fields, and reports the row count it returned. *)
Lemma pull_updated_tours (w : world server) (tour : dict) (dry_run : bool)
    (tour_id title : value) (n days : nat) :
  (pull tour dry_run w).1 = Ok (PullUpdated tour_id title n days) ->
  exists p,
    pulled w tour = Some p
    /\ tours (db (pull tour dry_run w).2)
       = tours (update_tour_from_outline (db w) tour_id (fields p)).1
    /\ n = (update_tour_from_outline (db w) tour_id (fields p)).2.
Proof.
  unfold pull_tour_from_outline, pulled_document, bind, lift, ret, try_except, write_db,
    get_outline_document, outline_request.
  destruct (subscript tour (str "id")) as [tid|e]; simpl; [|discriminate].
  destruct (truthy (get tour (str "outline_doc_id"))); simpl.
  2:{ destruct (subscript tour (str "title")); simpl; discriminate. }
  destruct (outline_api _ (remote w)) as [[doc|e] s]; simpl.
  2:{ destruct (subscript tour (str "title")); simpl; discriminate. }
  destruct doc as [doc|]; simpl.
  2:{ destruct (subscript tour (str "title")); simpl; discriminate. }
  case_bool_decide; simpl.
  { destruct (subscript tour (str "title")); simpl; discriminate. }
  destruct (parse_value _ _ _) as [p|e]; simpl.
  2:{ destruct (subscript tour (str "title")); simpl; discriminate. }
  destruct dry_run; simpl.
  { destruct (subscript tour (str "title")); simpl; discriminate. }
  destruct (update_tour_from_outline (db w) tid (fields p)) as [conn k] eqn:Hu; simpl.
  destruct (nonempty (itinerary_days p)); simpl.
  - destruct (update_itinerary_from_outline conn tid (itinerary_days p)) as [conn' k'] eqn:Hi.
    simpl.
    assert (Ht : tours conn' = tours conn).
    { pose proof (update_itinerary_tours conn tid (itinerary_days p)) as Hk.
      rewrite Hi in Hk. exact Hk. }
    destruct (subscript tour (str "title")); simpl; intros Hres; inversion Hres; subst.
    exists p. rewrite Hu. auto.
  - destruct (subscript tour (str "title")); simpl; intros Hres; inversion Hres; subst.
    exists p. rewrite Hu. auto.
Qed.

Lemma pull_other_tables (w : world server) (tour : dict) (dry_run : bool) :
  tour_pricing (db (pull tour dry_run w).2) = tour_pricing (db w)
  /\ tour_fees (db (pull tour dry_run w).2) = tour_fees (db w).
Proof.
  assert (Hi : forall conn tour_id days,
             tour_pricing (update_itinerary_from_outline conn tour_id days).1 = tour_pricing conn
             /\ tour_fees (update_itinerary_from_outline conn tour_id days).1 = tour_fees conn).
  { intros conn tour_id days. unfold update_itinerary_from_outline.
    generalize 0. revert conn.
    induction days as [|d days IH]; intros conn k; simpl; auto.
    destruct (negb _); [apply IH|].
    destruct (IH (set_itinerary
                    (upsert_day (CURRENT_TIMESTAMP conn) tour_id (get d (str "day_number")) d) conn)
                 (S k)) as [-> ->]. auto. }
  assert (Hu : forall conn tour_id updates,
             tour_pricing (update_tour_from_outline conn tour_id updates).1 = tour_pricing conn
             /\ tour_fees (update_tour_from_outline conn tour_id updates).1 = tour_fees conn).
  { intros. unfold update_tour_from_outline. case_bool_decide; auto. }
  unfold pull_tour_from_outline, bind, lift, ret, try_except, write_db,
    get_outline_document, outline_request.
  destruct (subscript tour (str "id")) as [tour_id|e]; simpl; auto.
  destruct (truthy (get tour (str "outline_doc_id"))); simpl.
  2:{ destruct (subscript tour (str "title")); simpl; auto. }
  destruct (outline_api _ (remote w)) as [[doc|e] s]; simpl.
  2:{ destruct (subscript tour (str "title")); simpl; auto. }
  destruct doc as [doc|]; simpl.
  2:{ destruct (subscript tour (str "title")); simpl; auto. }
  case_bool_decide; simpl.
  { destruct (subscript tour (str "title")); simpl; auto. }
  destruct (parse_value _ _ _) as [p|e]; simpl.
  2:{ destruct (subscript tour (str "title")); simpl; auto. }
  destruct dry_run; simpl.
  { destruct (subscript tour (str "title")); simpl; auto. }
  destruct (Hu (db w) tour_id (fields p)) as [Hu1 Hu2].
  destruct (update_tour_from_outline (db w) tour_id (fields p)) as [conn n] eqn:Hupd; simpl in *.
  destruct (nonempty (itinerary_days p)); simpl.
  - destruct (Hi conn tour_id (itinerary_days p)) as [Hi1 Hi2].
    destruct (update_itinerary_from_outline conn tour_id (itinerary_days p)) as [conn' n'].
    simpl in *. destruct (subscript tour (str "title")); simpl; split; congruence.
  - destruct (subscript tour (str "title")); simpl; auto.
Qed.

(** C6. For every field name [f] that is editable (more generally: that
    is not the last-sync timestamp) and absent from the field map parsed
    from the fetched document, a Pull leaves column [f] of every row of
    the tours table as it was, so it is never set to NULL: only fields
    present in the parsed map, plus the last-sync timestamp, are written. *)
Theorem pull_leaves_absent_fields (w : world server) (tour : dict) (dry_run : bool)
    (f : list N) :
  f ∈ EDITABLE_FIELDS \/ f <> str "last_outline_sync" ->
  (forall p, pulled w tour = Some p -> fields p !! f = None) ->
  Forall2 (fun row row' : dict => row' !! f = row !! f)
          (tours (db w)) (tours (db (pull tour dry_run w).2)).
Proof.
  intros Hf Habs.
  assert (Hts : f <> str "last_outline_sync").
  { destruct Hf as [Hf | Hf]; auto. intros ->. vm_compute in Hf.
    repeat (apply elem_of_cons in Hf as [Hf | Hf]; [discriminate Hf|]). inversion Hf. }
  destruct (pull_tours_cases w tour dry_run) as [-> | (p & tour_id & Hp & ->)].
  - apply Forall2_same_length_lookup_2; auto. intros i x y Hx Hy. congruence.
  - apply update_tour_from_outline_frame; auto.
Qed.

(** C2 (as amended). For every field name [f] outside [EDITABLE_FIELDS],
    other than the last-sync timestamp that Pull itself stamps, and for
    every document the store may return, a Pull leaves column [f] of
    every row of the tours table as it was, whatever Field Blocks the
    document contains; the pricing and fee tables are left as they were.
    The last-sync timestamp is stamped by every Pull that reports an
    updated row (it has written an editable field): in every row of the
    tour it then holds the current timestamp, and the rows of other tours
    keep theirs. *)
Theorem pull_respects_ownership (w : world server) (tour : dict) (dry_run : bool)
    (f : list N) :
  f ∉ EDITABLE_FIELDS ->
  f <> str "last_outline_sync" ->
  Forall2 (fun row row' : dict => row' !! f = row !! f)
          (tours (db w)) (tours (db (pull tour dry_run w).2))
  /\ tour_pricing (db (pull tour dry_run w).2) = tour_pricing (db w)
  /\ tour_fees (db (pull tour dry_run w).2) = tour_fees (db w)
  /\ forall (tour_id title : value) (fields_updated days_updated : nat),
       (pull tour dry_run w).1 = Ok (PullUpdated tour_id title fields_updated days_updated) ->
       0 < fields_updated ->
       Forall2 (fun row row' : dict =>
                  if sql_eq (get row (str "id")) tour_id
                  then row' !! str "last_outline_sync"
                       = Some (VTime (CURRENT_TIMESTAMP (db w)))
                  else row' !! str "last_outline_sync" = row !! str "last_outline_sync")
               (tours (db w)) (tours (db (pull tour dry_run w).2)).
Proof.
  intros Hf Hts. split; [|split; [apply pull_other_tables|split; [apply pull_other_tables|]]].
  - destruct (pull_tours_cases w tour dry_run) as [-> | (p & tour_id & Hp & ->)].
    + apply Forall2_same_length_lookup_2; auto. intros i x y Hx Hy. congruence.
    + apply update_tour_from_outline_frame; auto.
  - intros tour_id title n days Hres Hn.
    destruct (pull_updated_tours w tour dry_run tour_id title n days Hres) as (p & _ & -> & ->).
    pose proof (update_tour_from_outline_stamps (db w) tour_id (fields p) Hn) as Hstamp.
    revert Hstamp. apply Forall2_impl.
    intros row row' H. destruct (sql_eq _ _); [exact H | rewrite H; reflexivity].
Qed.

End PullFacts.

Lemma pull_leaves_absent_fields_witness :
  Forall2 (fun row row' : dict => row' !! str "terrain" = row !! str "terrain")
    (tours (db (example_world edited_document)))
    (tours (db (pull_tour_from_outline _ mem_api no_alnum no_decimal example_tour false
                  (example_world edited_document)).2)).
Proof.
  apply (pull_leaves_absent_fields _ mem_api no_alnum no_decimal
           (example_world edited_document) example_tour false (str "terrain")).
  - right. intros H. vm_compute in H. discriminate H.
  - intros p Hp. vm_compute in Hp. injection Hp as <-. vm_compute. reflexivity.
Defined.

Lemma pull_respects_ownership_witness :
  Forall2 (fun row row' : dict => row' !! str "slug" = row !! str "slug")
    (tours (db (example_world edited_document)))
    (tours (db (pull_tour_from_outline _ mem_api no_alnum no_decimal example_tour false
                  (example_world edited_document)).2))
  /\ tour_pricing (db (pull_tour_from_outline _ mem_api no_alnum no_decimal example_tour false
                         (example_world edited_document)).2)
     = tour_pricing (db (example_world edited_document))
  /\ tour_fees (db (pull_tour_from_outline _ mem_api no_alnum no_decimal example_tour false
                      (example_world edited_document)).2)
     = tour_fees (db (example_world edited_document))
  /\ Forall2 (fun row row' : dict =>
                if sql_eq (get row (str "id")) (VInt 42)
                then row' !! str "last_outline_sync"
                     = Some (VTime (CURRENT_TIMESTAMP (db (example_world edited_document))))
                else row' !! str "last_outline_sync" = row !! str "last_outline_sync")
       (tours (db (example_world edited_document)))
       (tours (db (pull_tour_from_outline _ mem_api no_alnum no_decimal example_tour false
                     (example_world edited_document)).2)).
Proof.
  destruct (pull_respects_ownership _ mem_api no_alnum no_decimal
              (example_world edited_document) example_tour false (str "slug"))
    as (H1 & H2 & H3 & H4).
  - intros H. vm_compute in H.
    repeat (apply elem_of_cons in H as [H | H]; [discriminate H|]). inversion H.
  - intros H. vm_compute in H. discriminate H.
  - split; [exact H1|]. split; [exact H2|]. split; [exact H3|].
    apply (H4 (VInt 42) (VStr (str "Moab Classic")) 1 0); [vm_compute; reflexivity | lia].
Defined.

Lemma Forall2_column (f : list N) (t t' : list dict) :
  Forall2 (fun row row' : dict => row' !! f = row !! f) t t' ->
  List.map (fun row : dict => row !! f) t' = List.map (fun row : dict => row !! f) t.
Proof. induction 1; simpl; congruence. Qed.

(** The last-sync timestamp is not an editable field, and a Pull that
    writes a field changes it. *)
Lemma pull_stamps_last_sync :
  (str "last_outline_sync" ∉ EDITABLE_FIELDS)
  /\ (~ Forall2 (fun row row' : dict =>
                  row' !! str "last_outline_sync" = row !! str "last_outline_sync")
        (tours (db (example_world edited_document)))
        (tours (db (pull_tour_from_outline _ mem_api no_alnum no_decimal example_tour false
                      (example_world edited_document)).2))).
Proof.
  split.
  - intros H. vm_compute in H.
    repeat (apply elem_of_cons in H as [H | H]; [discriminate H|]). inversion H.
  - intros H. apply Forall2_column in H. vm_compute in H. discriminate H.
Qed.


(** ** Itinerary days under Pull *)

Section DayFacts.

Ltac key_ne := let H := fresh in intros H; vm_compute in H; discriminate H.
Ltac lookup_ins :=
  repeat first
    [ rewrite lookup_insert_eq
    | rewrite lookup_insert_ne by key_ne
    | rewrite lookup_empty ].

Lemma sql_eq_true (a b : value) : sql_eq a b = true <-> a = b /\ a <> VNone.
Proof.
  unfold sql_eq. destruct a, b; simpl; split;
    try (intros H; discriminate H);
    try (intros [H1 H2]; congruence);
    try (intros H; apply bool_decide_eq_true in H; split; congruence);
    try (intros [H1 H2]; apply bool_decide_eq_true; congruence).
Qed.

Lemma excluded_replaced (day m : dict) : replaced_by day (excluded_row day ∪ m).
Proof.
  unfold replaced_by, excluded_row.
  repeat split; apply lookup_union_Some_l; lookup_ins; reflexivity.
Qed.

Lemma excluded_keeps_key (day m : dict) (stamp tour_id day_num : value) :
  has_key tour_id day_num (excluded_row day ∪ <[str "updated_at" := stamp]> m)
  <-> has_key tour_id day_num m.
Proof.
  unfold has_key, get, excluded_row.
  rewrite !lookup_union_r by (lookup_ins; reflexivity).
  lookup_ins. reflexivity.
Qed.

Lemma inserted_replaced (day : dict) (tour_id day_num : value) :
  replaced_by day (<[str "tour_id" := tour_id]> (<[str "day_number" := day_num]> (excluded_row day)))
  /\ has_key tour_id day_num
       (<[str "tour_id" := tour_id]> (<[str "day_number" := day_num]> (excluded_row day))).
Proof.
  unfold replaced_by, has_key, get, excluded_row. repeat split; lookup_ins; reflexivity.
Qed.

Lemma conflict_with_true (tour_id day_num : value) (row : dict) :
  tour_id <> VNone -> day_num <> VNone ->
  conflict_with tour_id day_num row = true <-> has_key tour_id day_num row.
Proof.
  intros Ht Hd. unfold conflict_with, has_key.
  rewrite andb_true_iff, !sql_eq_true. intuition congruence.
Qed.

(** One upsert: afterwards the table has a row for the key, and every row
    for the key holds the parsed day. *)
Lemma upsert_day_hits (stamp : list N) (tour_id day_num : value) (day : dict) (t : list dict) :
  tour_id <> VNone -> day_num <> VNone ->
  let t' := upsert_day stamp tour_id day_num day t in
  (exists row, row ∈ t' /\ has_key tour_id day_num row)
  /\ (forall row, row ∈ t' -> has_key tour_id day_num row -> replaced_by day row).
Proof.
  intros Ht Hd. unfold upsert_day.
  destruct (existsb (conflict_with tour_id day_num) t) eqn:E; simpl.
  - split.
    + apply existsb_exists in E as (row & Hin & Hc).
      exists (excluded_row day ∪ <[str "updated_at" := VTime stamp]> row). split.
      * unfold sql_update. apply list_elem_of_In, in_map_iff. exists row. rewrite Hc. auto.
      * apply excluded_keeps_key. apply conflict_with_true in Hc; auto.
    + intros row Hin Hk. unfold sql_update in Hin.
      apply list_elem_of_In, in_map_iff in Hin as (r0 & Heq & Hin0).
      destruct (conflict_with tour_id day_num r0) eqn:Ec.
      * subst row. apply excluded_replaced.
      * subst row. apply conflict_with_true in Hk; auto. congruence.
  - destruct (inserted_replaced day tour_id day_num) as [Hr Hk]. split.
    + eexists. split; [apply list_elem_of_In, in_or_app; right; left; reflexivity | exact Hk].
    + intros row Hin Hkey. apply list_elem_of_In, in_app_or in Hin as [Hin | [<- | []]]; auto.
      exfalso. apply conflict_with_true in Hkey; auto.
      assert (existsb (conflict_with tour_id day_num) t = true) by (apply existsb_exists; eauto).
      congruence.
Qed.

(** An upsert for another day number leaves the rows of this key alone. *)
Lemma upsert_day_other (stamp : list N) (tour_id day_num other : value) (day : dict)
    (t : list dict) (row : dict) :
  other <> day_num ->
  has_key tour_id day_num row ->
  row ∈ upsert_day stamp tour_id other day t <-> row ∈ t.
Proof.
  intros Hne Hk. unfold upsert_day.
  assert (Hnc : forall r, has_key tour_id day_num r -> conflict_with tour_id other r = false).
  { intros r [H1 H2]. unfold conflict_with. apply andb_false_iff. right.
    destruct (sql_eq _ _) eqn:E; auto. apply sql_eq_true in E as [E _]. congruence. }
  destruct (existsb (conflict_with tour_id other) t) eqn:E.
  - unfold sql_update. rewrite !list_elem_of_In, in_map_iff. split.
    + intros (r0 & Heq & Hin). destruct (conflict_with tour_id other r0) eqn:Ec.
      * subst row. apply excluded_keeps_key in Hk. apply Hnc in Hk. congruence.
      * subst. auto.
    + intros Hin. exists row. rewrite (Hnc row Hk). auto.
  - rewrite !list_elem_of_In, in_app_iff. split; auto.
    intros [Hin | [<- | []]]; auto. exfalso.
    destruct Hk as [_ Hk]. unfold get in Hk. revert Hk. lookup_ins. simpl. congruence.
Qed.

(** The step of the loop of [update_itinerary_from_outline]. *)
Lemma update_itinerary_step (conn : database) (tour_id : value) (days : list dict) (acc : database * nat) :
  exists step,
    (forall c k d, step (c, k) d =
       if negb (truthy (get d (str "day_number"))) then (c, k)
       else (set_itinerary (upsert_day (CURRENT_TIMESTAMP c) tour_id (get d (str "day_number")) d) c, S k))
    /\ update_itinerary_from_outline conn tour_id days = fold_left step days (conn, 0).
Proof. eexists. split; [|reflexivity]. intros c k d. reflexivity. Qed.

(** C5 (as amended). For every parsed itinerary day with a non-zero day
    number [n] (the last such day of the list, when the number is repeated),
    [update_itinerary_from_outline] leaves a row for (tour, n), and every
    row for (tour, n) then holds the parsed values in all sub-fields
    (miles, elevation, trails/waypoints, lodging, meals, content): a
    sub-field absent from the parsed day is NULL, nothing of the previous
    row's sub-fields is kept, and the source is 'outline'. *)
Theorem update_itinerary_replaces_day (conn : database) (tour_id : value)
    (pre post : list dict) (day : dict) (n : Z) :
  tour_id <> VNone ->
  get day (str "day_number") = VInt n ->
  n <> 0%Z ->
  (forall d, d ∈ post -> get d (str "day_number") <> VInt n) ->
  let conn' := (update_itinerary_from_outline conn tour_id (pre ++ day :: post)).1 in
  (exists row, row ∈ tour_itinerary_days conn' /\ has_key tour_id (VInt n) row)
  /\ (forall row, row ∈ tour_itinerary_days conn' ->
                  has_key tour_id (VInt n) row -> replaced_by day row).
Proof.
  intros Ht Hn Hz Hpost conn'. subst conn'.
  destruct (update_itinerary_step conn tour_id (pre ++ day :: post) (conn, 0)) as (step & Hstep & ->).
  rewrite fold_left_app. simpl.
  destruct (fold_left step pre (conn, 0)) as [c1 k1].
  rewrite (Hstep c1 k1 day), Hn. simpl.
  replace (negb (negb (n =? 0)%Z)) with false by (destruct (Z.eqb_spec n 0); [lia | reflexivity]).
  set (Q := fun t : list dict =>
    (exists row, row ∈ t /\ has_key tour_id (VInt n) row)
    /\ (forall row, row ∈ t -> has_key tour_id (VInt n) row -> replaced_by day row)).
  assert (H0 : Q (tour_itinerary_days
                   (set_itinerary (upsert_day (CURRENT_TIMESTAMP c1) tour_id (VInt n) day) c1))).
  { simpl. apply upsert_day_hits; auto; discriminate. }
  generalize dependent (set_itinerary (upsert_day (CURRENT_TIMESTAMP c1) tour_id (VInt n) day) c1).
  generalize (S k1). clear c1 k1.
  induction post as [|d post IH]; intros k c HQ; simpl; auto.
  rewrite (Hstep c k d).
  destruct (negb (truthy (get d (str "day_number")))) eqn:Ed.
  - apply IH; auto. intros d' Hd'. apply Hpost. apply list_elem_of_further. exact Hd'.
  - apply IH.
    + intros d' Hd'. apply Hpost. apply list_elem_of_further. exact Hd'.
    + cbn [tour_itinerary_days set_itinerary]. destruct HQ as [(row & Hin & Hk) Hall].
      assert (Hd : get d (str "day_number") <> VInt n) by (apply Hpost, list_elem_of_here).
      split.
      * exists row. split; auto.
        apply (proj2 (upsert_day_other _ tour_id (VInt n) _ d _ row Hd Hk)). exact Hin.
      * intros r Hin' Hk'. apply Hall; auto.
        apply (proj1 (upsert_day_other (CURRENT_TIMESTAMP c) tour_id (VInt n) _ d _ r Hd Hk')).
        exact Hin'.
Qed.

End DayFacts.

(** A parsed day numbered 0 is skipped: the stored row for day 0 keeps its
    old sub-fields. *)
Lemma update_itinerary_skips_day_zero :
  let day : dict := <[str "day_number" := VInt 0]> (<[str "miles" := VStr (str "5")]> ∅) in
  let conn' := (update_itinerary_from_outline example_database (VInt 42) [day]).1 in
  get day (str "day_number") = VInt 0
  /\ tour_itinerary_days conn' = tour_itinerary_days example_database
  /\ example_day 0 "10" ∈ tour_itinerary_days conn'
  /\ has_key (VInt 42) (VInt 0) (example_day 0 "10")
  /\ ~ replaced_by day (example_day 0 "10").
Proof.
  repeat split.
  - apply list_elem_of_here.
  - intros (H & _). vm_compute in H. discriminate H.
Qed.

Lemma update_itinerary_replaces_day_witness :
  let day : dict := <[str "day_number" := VInt 3]> (<[str "miles" := VStr (str "5")]> ∅) in
  let conn' := (update_itinerary_from_outline example_database (VInt 42) ([] ++ day :: [])).1 in
  (exists row, row ∈ tour_itinerary_days conn' /\ has_key (VInt 42) (VInt 3) row)
  /\ (forall row, row ∈ tour_itinerary_days conn' ->
                  has_key (VInt 42) (VInt 3) row -> replaced_by day row).
Proof.
  intros day.
  apply (update_itinerary_replaces_day example_database (VInt 42) [] [] day 3).
  - discriminate.
  - reflexivity.
  - lia.
  - intros d Hd. inversion Hd.
Defined.


(** ** Push *)

Lemma join_lines_nonempty (l : list N) (ls : list (list N)) :
  l <> [] -> join_lines (l :: ls) <> [].
Proof. intros Hl. destruct ls; simpl; auto. destruct l; [congruence | discriminate]. Qed.

Section PushFacts.

Variable server : Type.
Variable outline_api : request -> server -> result (option dict) * server.
Variables OUTLINE_COLLECTION_ID OUTLINE_DAY_TOURS_DOC_ID OUTLINE_MD_TOURS_DOC_ID : list N.
Variable str_title : list N -> list N.
Variable str_lower : list N -> list N.

Local Abbreviation push :=
  (push_tour_to_outline server outline_api OUTLINE_COLLECTION_ID OUTLINE_DAY_TOURS_DOC_ID
     OUTLINE_MD_TOURS_DOC_ID str_title str_lower).

(** The header of [generate_reference_header] is never empty. *)
Lemma generate_reference_header_nonempty (tour : dict)
    (pricing : list (list N * value * value)) (fees : list (list N * value))
    (days : list dict) (header : list N) :
  generate_reference_header str_title tour pricing fees days = Ok header -> header <> [].
Proof.
  unfold generate_reference_header, py_join.
  destruct (subscript tour (str "title")) as [title|]; cbn [mbind result_bind]; [|discriminate].
  destruct (mapM header_day_block days) as [blocks|]; cbn [mbind result_bind]; [|discriminate].
  cbn [app].
  match goal with |- context [mapM as_text (?x :: ?rest)] => generalize rest end.
  intros rest. cbn [mapM mbind result_bind L as_text].
  destruct (mapM as_text rest) as [ls|]; cbn [mbind result_bind mret result_ret]; [|discriminate].
  intros [= <-]. apply join_lines_nonempty. discriminate.
Qed.

(** Computations that leave the backups directory alone. *)
Lemma bind_files {A B} (m : M server A) (f : A -> M server B) :
  (forall w, files (m w).2 = files w) ->
  (forall a w, files (f a w).2 = files w) ->
  forall w, files (bind server m f w).2 = files w.
Proof.
  intros Hm Hf w. unfold bind. specialize (Hm w).
  destruct (m w) as [[a|e] w']; simpl in *; [rewrite Hf|]; auto.
Qed.

Lemma try_files {A} (m : M server A) (h : exn -> M server A) :
  (forall w, files (m w).2 = files w) ->
  (forall e w, files (h e w).2 = files w) ->
  forall w, files (try_except server m h w).2 = files w.
Proof.
  intros Hm Hh w. unfold try_except. specialize (Hm w).
  destruct (m w) as [[a|e] w']; simpl in *; [|rewrite Hh]; auto.
Qed.

Lemma request_files (rq : request) :
  forall w, files (outline_request server outline_api rq w).2 = files w.
Proof. intros w. unfold outline_request. destruct (outline_api rq (remote w)); reflexivity. Qed.

Ltac files_step :=
  first
    [ apply bind_files; [|intros ?]
    | apply try_files; [|intros ?]
    | apply request_files
    | (intros ?; reflexivity)
    | match goal with |- context [if ?b then _ else _] => destruct b end ].

(** Push never writes to the backups directory. *)
Lemma push_keeps_files (tour : dict) (existing_docs : gmap (list N) dict)
    (dry_run force_update : bool) (w : world server) :
  files (push tour existing_docs dry_run force_update w).2 = files w.
Proof.
  revert w. unfold push_tour_to_outline, get_outline_document, update_outline_document,
    create_outline_document.
  cbv zeta.
  repeat files_step.
Qed.

Lemma is_dict_true_lookup (d : dict) (k : list N) (v : value) :
  d !! k = Some v -> is_dict_true (Some d) = true.
Proof.
  intros H. unfold is_dict_true. case_bool_decide; auto. subst d.
  rewrite lookup_empty in H. discriminate H.
Qed.

(** When the fetched document carries the "Editable Content" heading and
    no force flag is given, Push reports the tour as skipped and makes no
    request besides the fetch. *)
Lemma push_skips_marked_document (w : world server) (tour : dict)
    (existing_docs : gmap (list N) dict) (tour_id existing_id title : value) (slug doc : list N)
    (existing fetched : dict) (s : server) :
  tour !! str "id" = Some tour_id ->
  tour !! str "title" = Some title ->
  tour !! str "slug" = Some (VStr slug) ->
  existing_docs !! slug = Some existing ->
  existing !! str "id" = Some existing_id ->
  outline_api (documents_info existing_id) (remote w) = (Ok (Some fetched), s) ->
  fetched !! str "text" = Some (VStr doc) ->
  contains editable_heading doc = true ->
  (push tour existing_docs false false w).1 = Ok (PushSkipped tour_id title (VStr slug))
  /\ calls (push tour existing_docs false false w).2 = calls w ++ [documents_info existing_id].
Proof.
  intros Hid Htitle Hslug Hex Hexid Hfetch Htext Hmark.
  unfold push_tour_to_outline, bind, lift, ret, read, try_except, write_db,
    get_outline_document, update_outline_document, outline_request, subscript_doc, subscript.
  rewrite Hid, Hslug. cbn [default from_option id]. rewrite Hex.
  rewrite (is_dict_true_lookup existing _ _ Hexid). rewrite Hexid.
  cbn [remote db]. rewrite Hfetch.
  rewrite (is_dict_true_lookup fetched _ _ Htext). cbn [default from_option id]. rewrite Htext.
  cbn [default from_option id contains_value as_str remote db calls].
  rewrite Hmark, Htitle. cbn [andb negb fst snd calls]. auto.
Qed.

(** C10 (as amended). A document with the reference-ids heading but neither
    the legacy-content heading nor the old tour-details heading has no
    legacy content for [strip_existing_header]: the result is the empty
    string.  Consequently a push that reaches the update of such a document
    (found by slug, fetched, and not skipped: the document lacks the
    editable-content heading, or the push is forced) sends an update whose
    body is exactly the freshly generated header: nothing of the old body is
    kept.  When the document has the editable-content heading and the push
    is not forced, the push is skipped: the fetch is its only request and
    the document stays as it is. *)
Theorem strip_existing_header_reference_only (doc : list N) :
  contains reference_marker doc = true ->
  contains legacy_marker doc = false ->
  contains old_marker doc = false ->
  strip_existing_header doc = []
  /\ (forall (w : world server) (tour : dict) (existing_docs : gmap (list N) dict)
         (force_update : bool) (tour_id existing_id : value) (slug : list N)
         (existing fetched : dict) (s : server) (header : list N),
       tour !! str "id" = Some tour_id ->
       tour !! str "slug" = Some (VStr slug) ->
       existing_docs !! slug = Some existing ->
       existing !! str "id" = Some existing_id ->
       outline_api (documents_info existing_id) (remote w) = (Ok (Some fetched), s) ->
       fetched !! str "text" = Some (VStr doc) ->
       contains editable_heading doc = false \/ force_update = true ->
       generate_reference_header str_title tour (get_tour_pricing (db w) tour_id)
         (get_tour_fees (db w) tour_id) (get_tour_itinerary (db w) tour_id) = Ok header ->
       calls (push tour existing_docs false force_update w).2
       = calls w ++ [ documents_info existing_id;
                      documents_update existing_id None (Some header) ])
  /\ (forall (w : world server) (tour : dict) (existing_docs : gmap (list N) dict)
         (tour_id existing_id title : value) (slug : list N)
         (existing fetched : dict) (s : server),
       tour !! str "id" = Some tour_id ->
       tour !! str "title" = Some title ->
       tour !! str "slug" = Some (VStr slug) ->
       existing_docs !! slug = Some existing ->
       existing !! str "id" = Some existing_id ->
       outline_api (documents_info existing_id) (remote w) = (Ok (Some fetched), s) ->
       fetched !! str "text" = Some (VStr doc) ->
       contains editable_heading doc = true ->
       (push tour existing_docs false false w).1 = Ok (PushSkipped tour_id title (VStr slug))
       /\ calls (push tour existing_docs false false w).2
          = calls w ++ [documents_info existing_id]).
Proof.
  intros Href Hleg Hold.
  assert (Hstrip : strip_existing_header doc = []).
  { unfold strip_existing_header. rewrite Hleg, Hold, Href. reflexivity. }
  split; [exact Hstrip|]. split.
  2:{ intros w tour existing_docs tour_id existing_id title slug existing fetched s.
      apply push_skips_marked_document. }
  intros w tour existing_docs force_update tour_id existing_id slug existing fetched s header
    Hid Hslug Hex Hexid Hfetch Htext Hcond Hheader.
  assert (Hne : nonempty header = true).
  { apply generate_reference_header_nonempty in Hheader. destruct header; [congruence|reflexivity]. }
  unfold push_tour_to_outline, bind, lift, ret, read, try_except, write_db,
    get_outline_document, update_outline_document, outline_request, subscript_doc, subscript.
  rewrite Hid, Hslug. cbn [default from_option id]. rewrite Hex.
  rewrite (is_dict_true_lookup existing _ _ Hexid). rewrite Hexid.
  cbn [remote db]. rewrite Hfetch.
  rewrite (is_dict_true_lookup fetched _ _ Htext). cbn [default from_option id]. rewrite Htext.
  cbn [default from_option id contains_value as_str remote db calls].
  replace (contains editable_heading doc && negb force_update) with false
    by (destruct Hcond as [-> | ->]; [reflexivity | rewrite andb_false_r; reflexivity]).
  rewrite Hheader, Hstrip. cbn [nonempty]. rewrite Hne.
  cbn [with_db db remote calls files now fst snd].
  destruct (outline_api (documents_update existing_id None (Some header)) s) as [[[d|]|e] s2];
    cbn [with_db db remote calls files now fst snd];
    repeat (match goal with
            | |- context [match tour !! ?k with _ => _ end] => destruct (tour !! k)
            | |- context [match d !! ?k with _ => _ end] => destruct (d !! k)
            end; cbn [with_db db remote calls files now fst snd]);
    rewrite <- app_assoc; reflexivity.
Qed.

End PushFacts.

Lemma strip_existing_header_reference_only_witness :
  strip_existing_header created_document = []
  /\ calls (example_push created_document false false).2
     = calls (example_world created_document)
       ++ [ documents_info (VStr (str "doc-1"));
            documents_update (VStr (str "doc-1")) None (Some example_header) ].
Proof.
  destruct (strip_existing_header_reference_only (gmap (list N) dict) mem_api
              (str "collection") (str "day-tours") (str "multi-day-tours")
              ascii_title ascii_lower created_document) as (Hs & Hp & _).
  - vm_compute. reflexivity.
  - vm_compute. reflexivity.
  - vm_compute. reflexivity.
  - split; [exact Hs|].
    apply (Hp (example_world created_document) example_tour example_existing_docs false
              (VInt 42) (VStr (str "doc-1")) (str "moab-classic")
              (<[str "id" := VStr (str "doc-1")]>
               (<[str "title" := VStr (str "moab-classic")]>
               (<[str "parent" := VStr (str "multi-day")]> ∅)))
              (<[str "id" := VStr (str "doc-1")]>
               (<[str "title" := VStr (str "moab-classic")]>
               (<[str "text" := VStr created_document]> ∅)))
              (remote (example_world created_document)) example_header).
    + vm_compute. reflexivity.
    + vm_compute. reflexivity.
    + vm_compute. reflexivity.
    + vm_compute. reflexivity.
    + vm_compute. reflexivity.
    + vm_compute. reflexivity.
    + left. vm_compute. reflexivity.
    + vm_compute. reflexivity.
Defined.

(** C10, the claim as it was stated: a document with the reference-ids
    and the editable-content headings and without the legacy heading has no
    legacy content, yet a push without the force flag does not replace its
    body: it is skipped, makes no write and leaves the document as it is. *)
Lemma push_skips_headed_document :
  contains reference_marker headed_document = true
  /\ contains legacy_marker headed_document = false
  /\ contains old_marker headed_document = false
  /\ strip_existing_header headed_document = []
  /\ (example_push headed_document false false).1
     = Ok (PushSkipped (VInt 42) (VStr (str "Moab Classic")) (VStr (str "moab-classic")))
  /\ calls (example_push headed_document false false).2
     = [ documents_info (VStr (str "doc-1")) ]
  /\ remote (example_push headed_document false false).2
     = remote (example_world headed_document).
Proof. repeat split; vm_compute; reflexivity. Qed.

(** C3, at a failing input. The document that the create path of Push wrote
    for the example tour contains Field Blocks (the parser reads its
    description back), yet a later Push without the force flag does not skip
    it: it sends an update that replaces the body by the generated header. *)
Lemma push_rewrites_document_with_field_blocks :
  contains (str "<!-- FIELD:description -->") created_document = true
  /\ (fields <$> parse_outline_document no_alnum no_decimal created_document)
     = Ok {[ str "description" := str "A classic ride."; str "terrain" := str "Slickrock" ]}
  /\ (example_push created_document false false).1
     = Ok (PushDone (VInt 42) (VStr (str "Moab Classic")) (VStr (str "moab-classic"))
             (str "prepended") (VStr (str "doc-1")))
  /\ calls (example_push created_document false false).2
     = [ documents_info (VStr (str "doc-1"));
         documents_update (VStr (str "doc-1")) None (Some example_header) ]
  /\ existsb is_write (calls (example_push created_document false false).2) = true.
Proof. repeat split; vm_compute; reflexivity. Qed.

(** C4, at a failing input. A forced Push of a document that already has
    the markers fetches it and overwrites it: no other request is made and
    nothing is written under the backups directory. *)
Lemma push_force_update_without_backup :
  contains editable_heading marked_document = true
  /\ (example_push marked_document false true).1
     = Ok (PushDone (VInt 42) (VStr (str "Moab Classic")) (VStr (str "moab-classic"))
             (str "updated") (VStr (str "doc-1")))
  /\ calls (example_push marked_document false true).2
     = [ documents_info (VStr (str "doc-1"));
         documents_update (VStr (str "doc-1")) None
           (Some (example_header ++ str "
Notes written by hand.")) ]
  /\ files (example_push marked_document false true).2 = ∅.
Proof.
  split; [vm_compute; reflexivity|].
  split; [vm_compute; reflexivity|].
  split; [vm_compute; reflexivity|].
  apply (push_keeps_files (gmap (list N) dict) mem_api).
Qed.


(** ** The sections of the generated document *)

Lemma tour_document_lines_parts (str_title : list N -> list N) (tour : dict) (title : value)
    (day_blocks : list (list value)) (pricing : list (list N * value * value))
    (fees : list (list N * value)) (now : datetime) :
  tour_document_lines str_title tour title day_blocks pricing fees now
  = read_only_lines str_title tour title pricing fees
    ++ description_lines tour
    ++ trip_details_lines tour
    ++ itinerary_lines day_blocks
    ++ footer_lines now.
Proof.
  unfold tour_document_lines, read_only_lines, description_lines, trip_details_lines,
    itinerary_lines, footer_lines.
  rewrite <- !app_assoc. reflexivity.
Qed.

Lemma day_block_items (d : dict) :
  day_block d
  = match subscript d (str "day_number") with
    | Ok day_num =>
        Ok ([ VStr (str "### Day " ++ fmt day_num);
              VStr (str "<!-- ITINERARY_DAY:" ++ fmt day_num ++ str " -->");
              L "" ]
            ++ day_items d
            ++ [ VStr (str "<!-- /ITINERARY_DAY:" ++ fmt day_num ++ str " -->"); L "" ])
    | Raise e => Raise e
    end.
Proof.
  unfold day_block, day_items.
  destruct (subscript d (str "day_number")) as [day_num | e]; [|reflexivity].
  cbn [mbind]. unfold result_bind. f_equal. rewrite <- !app_assoc. reflexivity.
Qed.


(** * The generated document and its parse *)

(** ** Strings *)

Ltac flat := repeat (progress (rewrite <- ?app_assoc; cbn [app])).

Section TextFacts.

Lemma lacks_app (c : N) (a b : list N) : lacks c (a ++ b) = lacks c a && lacks c b.
Proof. apply forallb_app. Qed.

Lemma lacks_cons (c x : N) (a : list N) : lacks c (x :: a) = negb (x =? c)%N && lacks c a.
Proof. reflexivity. Qed.

Lemma lacks_drop (c : N) (s : list N) (n : nat) : lacks c s = true -> lacks c (drop n s) = true.
Proof.
  revert n. induction s as [|x s IH]; intros n H; destruct n; simpl in *; auto.
  apply andb_true_iff in H as [_ H]. auto.
Qed.

Lemma startswith_lacks (c : N) (l : list N) (x : N) (xs y : list N) :
  lacks c (x :: xs) = true -> startswith (c :: l) ((x :: xs) ++ y) = false.
Proof.
  simpl. intros H. apply andb_true_iff in H as [H _]. rewrite N.eqb_sym.
  destruct (x =? c)%N; [discriminate H | reflexivity].
Qed.

Lemma forallb_all_app (f : N -> bool) (a b : list N) :
  forallb f a = true -> forallb f b = true -> forallb f (a ++ b) = true.
Proof. intros Ha Hb. rewrite forallb_app, Ha, Hb. reflexivity. Qed.




Lemma take_length_app (p s : list N) : take (length p) (p ++ s) = p.
Proof. induction p; simpl; auto. f_equal. auto. Qed.

(** *** Clashing and quiet segments *)

Lemma clash_app (l p s : list N) : clash l p = true -> clash l (p ++ s) = true.
Proof.
  revert p. induction l as [|a l IH]; intros p; simpl; [discriminate|].
  destruct p as [|b p]; simpl; [discriminate|].
  destruct (a =? b)%N; auto.
Qed.

Lemma clash_startswith (l p : list N) : clash l p = true -> startswith l p = false.
Proof.
  revert p. induction l as [|a l IH]; intros p; simpl; [discriminate|].
  destruct p as [|b p]; [reflexivity|].
  destruct (a =? b)%N; simpl; auto.
Qed.

Lemma quiet_app (l a b : list N) : quiet l a = true -> quiet l b = true -> quiet l (a ++ b) = true.
Proof.
  intros Ha Hb. induction a as [|c a IH]; simpl in *; auto.
  apply andb_true_iff in Ha as [H1 H2].
  rewrite IH by exact H2. pose proof (clash_app l (c :: a) b H1) as Hc.
  cbn [app] in Hc. rewrite Hc. reflexivity.
Qed.

Lemma quiet_lacks (c : N) (l a : list N) : lacks c a = true -> quiet (c :: l) a = true.
Proof.
  induction a as [|x a IH]; simpl; auto.
  intros H. apply andb_true_iff in H as [H1 H2]. rewrite IH by exact H2.
  rewrite N.eqb_sym. destruct (x =? c)%N; [discriminate H1 | reflexivity].
Qed.

Lemma quiet_concat (l : list N) (ps : list (list N)) :
  Forall (fun p => quiet l p = true) ps -> quiet l (concat ps) = true.
Proof. induction 1; simpl; auto using quiet_app. Qed.

Lemma quiet_drop (l p : list N) (n : nat) : quiet l p = true -> quiet l (drop n p) = true.
Proof.
  revert n. induction p as [|c p IH]; intros n H; destruct n; simpl in *; auto.
  apply andb_true_iff in H as [_ H]. auto.
Qed.

(** *** Stripping *)

Lemma lstrip_ws (w s : list N) : forallb is_space w = true -> lstrip (w ++ s) = lstrip s.
Proof.
  induction w as [|c w IH]; simpl; auto.
  intros H. apply andb_true_iff in H as [-> H]. auto.
Qed.

Lemma lstrip_all_ws (w : list N) : forallb is_space w = true -> lstrip w = [].
Proof. intros H. rewrite <- (app_nil_r w), lstrip_ws by exact H. reflexivity. Qed.

Lemma lstrip_head (c : N) (s : list N) : is_space c = false -> lstrip (c :: s) = c :: s.
Proof. intros H. simpl. rewrite H. reflexivity. Qed.

Lemma lstrip_app_head (c : N) (s t : list N) :
  is_space c = false -> lstrip ((c :: s) ++ t) = (c :: s) ++ t.
Proof. intros H. simpl. rewrite H. reflexivity. Qed.

Lemma rstrip_ws (w s : list N) : forallb is_space w = true -> rstrip (s ++ w) = rstrip s.
Proof.
  intros H. unfold rstrip. rewrite rev_app_distr, lstrip_ws; auto.
  rewrite forallb_forall in *. intros x Hx. apply H. apply in_rev. exact Hx.
Qed.

Lemma lstrip_spec (s : list N) :
  exists w, s = w ++ lstrip s /\ forallb is_space w = true
            /\ (lstrip s = [] \/ exists c t, lstrip s = c :: t /\ is_space c = false).
Proof.
  induction s as [|c s (w & Hs & Hw & Hl)]; simpl.
  - exists []. auto.
  - destruct (is_space c) eqn:E.
    + exists (c :: w). simpl. rewrite E, Hw. split; [congruence|]. auto.
    + exists []. simpl. split; auto. split; auto. right. eauto.
Qed.

Lemma rstrip_spec (s : list N) :
  exists w, s = rstrip s ++ w /\ forallb is_space w = true
            /\ (rstrip s = [] \/ exists t c, rstrip s = t ++ [c] /\ is_space c = false).
Proof.
  unfold rstrip. destruct (lstrip_spec (rev s)) as (w & Hs & Hw & Hl).
  exists (rev w). split; [|split].
  - rewrite <- rev_app_distr, <- Hs, rev_involutive. reflexivity.
  - rewrite forallb_forall in *. intros x Hx. apply Hw. apply in_rev. exact Hx.
  - destruct Hl as [-> | (c & t & -> & Hc)]; auto.
    right. exists (rev t), c. simpl. auto.
Qed.

(** A string is its leading whitespace, its stripped core and its trailing
    whitespace; the core is empty or begins and ends outside whitespace. *)
Lemma strip_spec (s : list N) :
  exists w1 w2,
    s = w1 ++ strip s ++ w2
    /\ forallb is_space w1 = true /\ forallb is_space w2 = true
    /\ (strip s = []
        \/ (exists c t, strip s = c :: t /\ is_space c = false)
           /\ (exists t c, strip s = t ++ [c] /\ is_space c = false)).
Proof.
  unfold strip. destruct (lstrip_spec s) as (w1 & Hs & Hw1 & Hl).
  destruct (rstrip_spec (lstrip s)) as (w2 & Hr & Hw2 & Hrl).
  exists w1, w2. split; [|split; [|split]]; auto.
  - rewrite <- Hr. exact Hs.
  - destruct Hrl as [E | (t & c & E & Hc)]; auto. right. split; [|eauto].
    destruct Hl as [El | (c0 & t0 & El & Hc0)].
    + rewrite El in E. destruct t; discriminate E.
    + rewrite E in Hr. rewrite El in Hr. rewrite E.
      destruct t as [|x t]; simpl in *.
      * eauto.
      * injection Hr as -> _. eauto.
Qed.

Lemma strip_core (w1 x w2 : list N) :
  forallb is_space w1 = true -> forallb is_space w2 = true ->
  x = [] \/ ((exists c t, x = c :: t /\ is_space c = false)
             /\ (exists t c, x = t ++ [c] /\ is_space c = false)) ->
  strip (w1 ++ x ++ w2) = x.
Proof.
  intros H1 H2 Hx. unfold strip. rewrite lstrip_ws by exact H1.
  destruct Hx as [-> | [(c & t & E & Hc) (t' & c' & E' & Hc')]].
  - simpl. rewrite lstrip_all_ws by exact H2. reflexivity.
  - rewrite E. rewrite lstrip_app_head by exact Hc. rewrite <- E.
    rewrite rstrip_ws by exact H2. rewrite E'. unfold rstrip.
    rewrite rev_app_distr. simpl. rewrite Hc'. simpl. rewrite rev_involutive. reflexivity.
Qed.

Lemma strip_shape (x : list N) :
  strip x = x ->
  x = [] \/ ((exists c t, x = c :: t /\ is_space c = false)
             /\ (exists t c, x = t ++ [c] /\ is_space c = false)).
Proof.
  intros E. destruct (strip_spec x) as (w1 & w2 & _ & _ & _ & H). rewrite E in H. exact H.
Qed.

Lemma strip_padded (w1 x w2 : list N) :
  forallb is_space w1 = true -> forallb is_space w2 = true -> strip x = x ->
  strip (w1 ++ x ++ w2) = x.
Proof. intros H1 H2 E. apply strip_core; auto. apply strip_shape. exact E. Qed.

Lemma strip_idem (s : list N) : strip (strip s) = strip s.
Proof.
  destruct (strip_spec s) as (w1 & w2 & _ & _ & _ & H).
  rewrite <- (app_nil_r (strip s)) at 1. change (strip s ++ []) with ([] ++ strip s ++ []).
  apply strip_core; auto.
Qed.

Lemma strip_ws_padding (w1 s w2 : list N) :
  forallb is_space w1 = true -> forallb is_space w2 = true ->
  strip (w1 ++ s ++ w2) = strip s.
Proof.
  intros H1 H2. destruct (strip_spec s) as (v1 & v2 & Hs & Hv1 & Hv2 & H).
  rewrite Hs at 1.
  replace (w1 ++ (v1 ++ strip s ++ v2) ++ w2) with ((w1 ++ v1) ++ strip s ++ (v2 ++ w2))
    by (rewrite <- !app_assoc; reflexivity).
  apply strip_core; auto using forallb_all_app.
Qed.

End TextFacts.


(** ** Decimal numbers *)

Section DigitFacts.

Lemma digit_char (n : N) : ascii_digit (48 + n mod 10) = true.
Proof.
  unfold ascii_digit. pose proof (N.mod_upper_bound n 10 ltac:(discriminate)) as H.
  generalize dependent (n mod 10)%N. intros m H.
  apply andb_true_iff. split; apply N.leb_le; lia.
Qed.

Lemma digits_fuel_digits (fuel : nat) (n : N) (acc : list N) :
  forallb ascii_digit acc = true -> forallb ascii_digit (digits_fuel fuel n acc) = true.
Proof.
  revert n acc. induction fuel as [|f IH]; intros n acc Hacc; simpl; auto.
  destruct (n <? 10)%N.
  - simpl. rewrite digit_char, Hacc. reflexivity.
  - apply IH. simpl. rewrite digit_char, Hacc. reflexivity.
Qed.

Lemma str_of_N_digits (n : N) : forallb ascii_digit (str_of_N n) = true.
Proof. apply digits_fuel_digits. reflexivity. Qed.

Lemma digits_fuel_nonempty (fuel : nat) (n : N) (acc : list N) :
  nonempty acc = true -> nonempty (digits_fuel fuel n acc) = true.
Proof.
  revert n acc. induction fuel as [|f IH]; intros n acc Hacc; simpl; auto.
  destruct (n <? 10)%N; auto.
Qed.

Lemma str_of_N_nonempty (n : N) : nonempty (str_of_N n) = true.
Proof.
  unfold str_of_N. simpl. destruct (n <? 10)%N; auto. apply digits_fuel_nonempty. reflexivity.
Qed.

Lemma digits_lack (c : N) (s : list N) :
  ascii_digit c = false -> forallb ascii_digit s = true -> lacks c s = true.
Proof.
  intros Hc Hs. unfold lacks. rewrite forallb_forall in *. intros x Hx.
  specialize (Hs x Hx). destruct (N.eqb_spec x c); auto. subst. congruence.
Qed.

Lemma str_of_N_lacks (c : N) (n : N) : ascii_digit c = false -> lacks c (str_of_N n) = true.
Proof. intros H. apply digits_lack; auto using str_of_N_digits. Qed.

Lemma str_of_Z_lacks (c : N) (z : Z) :
  ascii_digit c = false -> c <> 45%N -> lacks c (str_of_Z z) = true.
Proof.
  intros H Hm. destruct z; cbn [str_of_Z]; try apply str_of_N_lacks; auto.
  rewrite lacks_cons, str_of_N_lacks by exact H.
  destruct (N.eqb_spec 45 c); [congruence | reflexivity].
Qed.

Lemma size_nat_bound (n : N) : (n < 2 ^ N.of_nat (N.size_nat n))%N.
Proof.
  destruct n as [|p]; [reflexivity|]. simpl.
  induction p as [p IH|p IH|]; cbn [Pos.size_nat].
  - rewrite Nat2N.inj_succ, N.pow_succ_r'. lia.
  - rewrite Nat2N.inj_succ, N.pow_succ_r'. lia.
  - reflexivity.
Qed.

Section Value.

Variable uni_decimal : N -> option N.

Let step := fun (acc : N) (c : N) => (10 * acc + digit_value uni_decimal c)%N.

Lemma digit_value_char (n : N) : (n < 10)%N -> digit_value uni_decimal (48 + n) = n.
Proof.
  intros H. unfold digit_value.
  replace (48 + n <? 128)%N with true by (symmetry; apply N.ltb_lt; lia). lia.
Qed.

Lemma digits_fuel_value (fuel : nat) (n : N) (acc : list N) :
  (n < 2 ^ N.of_nat fuel)%N -> 1 <= fuel ->
  fold_left step (digits_fuel fuel n acc) 0%N = fold_left step acc n.
Proof.
  revert n acc. induction fuel as [|f IH]; intros n acc Hn Hf; [lia|].
  cbn [digits_fuel]. destruct (N.ltb_spec n 10) as [Hlt | Hge].
  - cbn [fold_left]. unfold step at 2. rewrite N.mod_small by exact Hlt.
    rewrite digit_value_char by exact Hlt. f_equal.
  - rewrite Nat2N.inj_succ, N.pow_succ_r' in Hn.
    assert (Hq : (n / 10 < 2 ^ N.of_nat f)%N).
    { apply N.Div0.div_lt_upper_bound; lia. }
    assert (Hq1 : (1 <= n / 10)%N).
    { apply N.div_le_lower_bound; lia. }
    rewrite IH; auto.
    + cbn [fold_left]. unfold step at 2.
      rewrite digit_value_char by (apply N.mod_upper_bound; discriminate).
      f_equal. rewrite (N.div_mod n 10) at 3 by discriminate. reflexivity.
    + destruct f; [simpl in Hq; lia | lia].
Qed.

Lemma is_digit_ascii (s : list N) :
  forallb ascii_digit s = true -> forallb (is_digit uni_decimal) s = true.
Proof.
  intros H. rewrite forallb_forall in *. intros x Hx. specialize (H x Hx).
  unfold is_digit. unfold ascii_digit in H. apply andb_true_iff in H as [H1 H2].
  apply N.leb_le in H1, H2.
  replace (x <? 128)%N with true by (symmetry; apply N.ltb_lt; lia).
  unfold ascii_digit. apply andb_true_iff. split; apply N.leb_le; lia.
Qed.

(** [int(str(n)) == n] *)
Lemma py_int_str_of_N (n : N) :
  int_digits_ok (str_of_N n) = true -> py_int uni_decimal (str_of_N n) = Ok (Z.of_N n).
Proof.
  intros Hlen.
  unfold py_int. rewrite str_of_N_nonempty, is_digit_ascii, Hlen by apply str_of_N_digits.
  cbn [andb]. f_equal. f_equal. unfold str_of_N.
  fold step. rewrite digits_fuel_value.
  - reflexivity.
  - rewrite Nat2N.inj_succ, N.pow_succ_r'. pose proof (size_nat_bound n). lia.
  - lia.
Qed.

End Value.

End DigitFacts.


(** ** Computing matches *)

Section MatchFacts.

Lemma span_all (cls : N -> bool) (v t : list N) :
  forallb cls v = true ->
  t = [] \/ (exists c t', t = c :: t' /\ cls c = false) ->
  span cls (v ++ t) = length v.
Proof.
  intros Hv Ht. induction v as [|x v IH]; simpl in *.
  - destruct Ht as [-> | (c & t' & -> & Hc)]; simpl; auto. rewrite Hc. reflexivity.
  - apply andb_true_iff in Hv as [-> Hv]. rewrite IH by exact Hv. reflexivity.
Qed.

Lemma span_le_length (cls : N -> bool) (s : list N) : span cls s <= length s.
Proof. induction s as [|c s IH]; simpl; [lia|]. destruct (cls c); simpl; lia. Qed.

Lemma span_stops (cls : N -> bool) (t : list N) (c : N) (y : list N) :
  cls c = false -> span cls ((t ++ [c]) ++ y) <= length t.
Proof.
  intros Hc. induction t as [|x t IH]; simpl.
  - rewrite Hc. lia.
  - destruct (cls x); simpl; lia.
Qed.

Lemma first_some_app {A B} (f : A -> option B) (l1 l2 : list A) (x : A) (y : B) :
  (forall z, In z l1 -> f z = None) -> f x = Some y ->
  first_some f (l1 ++ x :: l2) = Some y.
Proof.
  intros H1 Hx. induction l1 as [|z l1 IH]; simpl.
  - rewrite Hx. reflexivity.
  - rewrite (H1 z) by (left; reflexivity). apply IH. intros; apply H1; right; assumption.
Qed.

Lemma candidates_greedy_top (lo hi : nat) :
  lo <= hi -> exists l, candidates Greedy lo hi = hi :: l.
Proof.
  intros H. unfold candidates. replace (S hi - lo) with (S (hi - lo)) by lia.
  rewrite seq_S, rev_app_distr. simpl. replace (lo + (hi - lo)) with hi by lia. eauto.
Qed.

Lemma candidates_greedy_second (lo hi : nat) :
  lo <= hi -> exists l, candidates Greedy lo (S hi) = S hi :: hi :: l.
Proof.
  intros H. unfold candidates. replace (S (S hi) - lo) with (S (S (hi - lo))) by lia.
  rewrite !seq_S, !rev_app_distr. simpl.
  replace (lo + S (hi - lo)) with (S hi) by lia. replace (lo + (hi - lo)) with hi by lia. eauto.
Qed.

Lemma candidates_lazy_split (hi k : nat) :
  k <= hi -> candidates Lazy 0 hi = seq 0 k ++ k :: seq (S k) (hi - k).
Proof.
  intros H. unfold candidates. replace (S hi - 0) with (k + S (hi - k)) by lia.
  rewrite seq_app. simpl. reflexivity.
Qed.

Lemma rmatch_rep_eq (q : quant) (lo : nat) (cls : N -> bool) (cap : option nat)
    (r : list atom) (s : list N) (gs : gmap nat (list N)) :
  rmatch (Rep q lo cls cap :: r) s gs
  = first_some (fun n => rmatch r (drop n s) (set_cap cap (take n s) gs))
               (candidates q lo (span cls s)).
Proof. reflexivity. Qed.

Lemma rmatch_lit_app (l : list N) (r : list atom) (t : list N) (gs : gmap nat (list N)) :
  rmatch (Lit l :: r) (l ++ t) gs = rmatch r t gs.
Proof. simpl. rewrite startswith_app, drop_length_app. reflexivity. Qed.

Lemma rmatch_lit_clash (l : list N) (r : list atom) (s : list N) (gs : gmap nat (list N)) :
  startswith l s = false -> rmatch (Lit l :: r) s gs = None.
Proof. simpl. intros ->. reflexivity. Qed.

Lemma rmatch_backref_app (g : nat) (v : list N) (r : list atom) (t : list N)
    (gs : gmap nat (list N)) :
  gs !! g = Some v -> rmatch (Backref g :: r) (v ++ t) gs = rmatch r t gs.
Proof. simpl. intros ->. rewrite startswith_app, drop_length_app. reflexivity. Qed.

(** The longest repetition is tried first. *)
Lemma rmatch_greedy_first (lo : nat) (cls : N -> bool) (cap : option nat) (r : list atom)
    (v t : list N) (gs : gmap nat (list N)) (res : list N * gmap nat (list N)) :
  forallb cls v = true -> lo <= length v ->
  t = [] \/ (exists c t', t = c :: t' /\ cls c = false) ->
  rmatch r t (set_cap cap v gs) = Some res ->
  rmatch (Rep Greedy lo cls cap :: r) (v ++ t) gs = Some res.
Proof.
  intros Hv Hlo Ht Hres. cbn [rmatch]. rewrite span_all by assumption.
  destruct (candidates_greedy_top lo (length v) Hlo) as [l ->].
  cbn [first_some]. rewrite take_length_app, drop_length_app, Hres. reflexivity.
Qed.

(** When the longest repetition fails, one character is given back. *)
Lemma rmatch_greedy_second (lo : nat) (cls : N -> bool) (cap : option nat) (r : list atom)
    (v : list N) (c : N) (t : list N) (gs : gmap nat (list N))
    (res : list N * gmap nat (list N)) :
  forallb cls v = true -> cls c = true -> lo <= length v ->
  t = [] \/ (exists c' t', t = c' :: t' /\ cls c' = false) ->
  rmatch r t (set_cap cap (v ++ [c]) gs) = None ->
  rmatch r (c :: t) (set_cap cap v gs) = Some res ->
  rmatch (Rep Greedy lo cls cap :: r) (v ++ c :: t) gs = Some res.
Proof.
  intros Hv Hc Hlo Ht Hnone Hres. cbn [rmatch].
  replace (v ++ c :: t) with ((v ++ [c]) ++ t) by (rewrite <- app_assoc; reflexivity).
  rewrite span_all; [|rewrite forallb_app, Hv; simpl; rewrite Hc; reflexivity|exact Ht].
  assert (Hl : length (v ++ [c]) = S (length v)) by (rewrite length_app; simpl; lia).
  rewrite Hl.
  destruct (candidates_greedy_second lo (length v) Hlo) as [l ->].
  cbn [first_some]. rewrite <- Hl at 1 2.
  rewrite take_length_app, drop_length_app, Hnone.
  rewrite <- app_assoc. cbn [app]. rewrite take_length_app, drop_length_app, Hres. reflexivity.
Qed.

(** The shortest repetition that lets the rest match wins. *)
Lemma rmatch_lazy_first (cls : N -> bool) (cap : option nat) (r : list atom)
    (v t : list N) (gs : gmap nat (list N)) (res : list N * gmap nat (list N)) :
  forallb cls v = true ->
  (forall j, j < length v ->
     rmatch r (drop j (v ++ t)) (set_cap cap (take j (v ++ t)) gs) = None) ->
  rmatch r t (set_cap cap v gs) = Some res ->
  rmatch (Rep Lazy 0 cls cap :: r) (v ++ t) gs = Some res.
Proof.
  intros Hv Hnone Hres. cbn [rmatch].
  assert (Hk : length v <= span cls (v ++ t)).
  { clear -Hv. induction v as [|x v IH]; simpl in *; [lia|].
    apply andb_true_iff in Hv as [-> Hv]. specialize (IH Hv). lia. }
  rewrite (candidates_lazy_split _ _ Hk).
  apply first_some_app.
  - intros j Hj. apply in_seq in Hj. apply Hnone. lia.
  - rewrite take_length_app, drop_length_app. exact Hres.
Qed.

(** The part of the block patterns after the open marker, on a body
    without ['<']: the lazy group is the stripped body. *)
Lemma rmatch_block_tail (C B name mid rest : list N) (gs : gmap nat (list N)) :
  gs !! 1 = Some name ->
  lacks 60 mid = true ->
  rmatch [ Rep Greedy 0 is_space None; Rep Lazy 0 any_char (Some 2);
           Rep Greedy 0 is_space None; Lit (60%N :: C); Backref 1; Lit B ]
         (mid ++ (60%N :: C) ++ name ++ B ++ rest) gs
  = Some (rest, <[2 := strip mid]> gs).
Proof.
  intros Hg Hmid.
  set (close := (60%N :: C) ++ name ++ B ++ rest).
  assert (Hclose : forall (g' : gmap nat (list N)), g' !! 1 = Some name ->
            rmatch [Lit (60%N :: C); Backref 1; Lit B] close g' = Some (rest, g')).
  { intros g' Hg'. unfold close. rewrite rmatch_lit_app.
    rewrite (rmatch_backref_app 1 name) by exact Hg'. rewrite rmatch_lit_app. reflexivity. }
  assert (Hstop : close = [] \/ exists c t', close = c :: t' /\ is_space c = false).
  { right. exists 60%N, (C ++ name ++ B ++ rest). split; reflexivity. }
  assert (Hg2 : forall v, (<[2 := v]> gs : gmap nat (list N)) !! 1 = Some name).
  { intros v. rewrite lookup_insert_ne by discriminate. exact Hg. }
  destruct (strip_spec mid) as (w1 & w2 & Hsplit & Hw1 & Hw2 & Hshape).
  destruct Hshape as [Hempty | [(c & t & Hcore & Hc) (t' & c' & Hcore' & Hc')]].
  - (* the body is all whitespace *)
    rewrite Hempty in *. cbn [app] in Hsplit.
    apply (rmatch_greedy_first 0 is_space None _ mid close gs); auto.
    + rewrite Hsplit. apply forallb_all_app; assumption.
    + lia.
    + cbn [set_cap]. apply (rmatch_lazy_first any_char (Some 2) _ [] close gs); auto.
      * intros j Hj. simpl in Hj. lia.
      * cbn [set_cap]. apply (rmatch_greedy_first 0 is_space None _ [] close); auto.
  - (* leading whitespace, core, trailing whitespace *)
    rewrite Hsplit at 1. rewrite <- ?app_assoc.
    apply (rmatch_greedy_first 0 is_space None _ w1 (strip mid ++ w2 ++ close) gs); auto.
    + lia.
    + right. rewrite Hcore. eauto.
    + cbn [set_cap].
      apply (rmatch_lazy_first any_char (Some 2) _ (strip mid) (w2 ++ close) gs).
      * apply forallb_forall. reflexivity.
      * intros j Hj. rewrite rmatch_rep_eq.
        apply first_some_None. intros m Hm. apply candidates_range in Hm.
        apply rmatch_lit_clash.
        (* the text at [j + m] is still inside the core *)
        assert (Hlen : length (strip mid) = S (length t'))
          by (rewrite Hcore', length_app; simpl; lia).
        assert (Hj' : j <= length t') by lia.
        assert (Hd : drop j (strip mid ++ w2 ++ close)
                     = (drop j t' ++ [c']) ++ w2 ++ close).
        { rewrite Hcore'. rewrite <- ?app_assoc.
          rewrite drop_app_le by exact Hj'. rewrite <- ?app_assoc. reflexivity. }
        rewrite Hd in *.
        assert (Hm' : m <= length (drop j t')) by (pose proof (span_stops is_space (drop j t') c' (w2 ++ close) Hc'); lia).
        rewrite <- ?app_assoc. rewrite drop_app_le by exact Hm'.
        assert (Hin : lacks 60 (drop m (drop j t') ++ [c']) = true).
        { assert (Hl : lacks 60 (strip mid) = true).
          { rewrite Hsplit in Hmid. rewrite !lacks_app in Hmid.
            apply andb_true_iff in Hmid as [_ Hmid]. apply andb_true_iff in Hmid as [Hmid _].
            exact Hmid. }
          rewrite Hcore' in Hl. rewrite lacks_app in *.
          apply andb_true_iff in Hl as [Hl1 Hl2]. rewrite Hl2, andb_true_r.
          apply lacks_drop, lacks_drop. exact Hl1. }
        destruct (drop m (drop j t')) as [|x xs]; cbn [app] in Hin.
        -- apply (startswith_lacks 60 C c' [] (w2 ++ close) Hin).
        -- change ((x :: xs) ++ [c'] ++ w2 ++ close) with ((x :: xs) ++ ([c'] ++ w2 ++ close)).
           rewrite app_assoc. apply (startswith_lacks 60 C x (xs ++ [c']) (w2 ++ close) Hin).
      * cbn [set_cap].
        apply (rmatch_greedy_first 0 is_space None _ w2 close); auto. lia.
Qed.

(** *** Scanning *)

Lemma rmatch_quiet_head (l : list N) (r : list atom) (c : N) (p s : list N)
    (gs : gmap nat (list N)) :
  quiet l (c :: p) = true -> rmatch (Lit l :: r) ((c :: p) ++ s) gs = None.
Proof.
  intros H. simpl in H. apply andb_true_iff in H as [H _].
  apply rmatch_lit_clash, clash_startswith, clash_app. exact H.
Qed.

Lemma finditer_skip (r : list atom) (p s : list N) :
  finditer_from r (length p) (p ++ s) = finditer_from r 0 s.
Proof. induction p as [|c p IH]; simpl; auto. Qed.

Lemma finditer_quiet (l : list N) (r : list atom) (p s : list N) :
  quiet l p = true ->
  finditer_from (Lit l :: r) 0 (p ++ s) = finditer_from (Lit l :: r) 0 s.
Proof.
  induction p as [|c p IH]; intros H; [reflexivity|].
  change (finditer_from (Lit l :: r) 0 ((c :: p) ++ s))
    with (match rmatch (Lit l :: r) ((c :: p) ++ s) ∅ with
          | Some (rest, gs) =>
              gs :: finditer_from (Lit l :: r) (length ((c :: p) ++ s) - length rest - 1) (p ++ s)
          | None => finditer_from (Lit l :: r) 0 (p ++ s)
          end).
  rewrite rmatch_quiet_head by exact H. apply IH.
  simpl in H. apply andb_true_iff in H as [_ H]. exact H.
Qed.

Lemma finditer_match (r : list atom) (c : N) (blk rest : list N) (gs : gmap nat (list N)) :
  rmatch r ((c :: blk) ++ rest) ∅ = Some (rest, gs) ->
  finditer_from r 0 ((c :: blk) ++ rest) = gs :: finditer_from r 0 rest.
Proof.
  intros H.
  change (finditer_from r 0 ((c :: blk) ++ rest))
    with (match rmatch r ((c :: blk) ++ rest) ∅ with
          | Some (rest', gs') =>
              gs' :: finditer_from r (length ((c :: blk) ++ rest) - length rest' - 1) (blk ++ rest)
          | None => finditer_from r 0 (blk ++ rest)
          end).
  rewrite H. f_equal.
  replace (length ((c :: blk) ++ rest) - length rest - 1) with (length blk)
    by (rewrite length_app; simpl; lia).
  apply finditer_skip.
Qed.

Lemma finditer_match_at (r : list atom) (t pre rest : list N) (gs : gmap nat (list N)) :
  t = pre ++ rest -> pre <> [] ->
  rmatch r t ∅ = Some (rest, gs) ->
  finditer_from r 0 t = gs :: finditer_from r 0 rest.
Proof.
  intros -> Hpre H. destruct pre as [|c blk]; [congruence|].
  apply finditer_match. exact H.
Qed.

Lemma finditer_nil (l : list N) (r : list atom) (c : N) :
  finditer_from (Lit (c :: l) :: r) 0 [] = [].
Proof. reflexivity. Qed.

Lemma search_quiet (l : list N) (r : list atom) (p s : list N) :
  quiet l p = true -> search (Lit l :: r) (p ++ s) = search (Lit l :: r) s.
Proof.
  induction p as [|c p IH]; intros H; [reflexivity|].
  change (search (Lit l :: r) ((c :: p) ++ s))
    with (match rmatch (Lit l :: r) ((c :: p) ++ s) ∅ with
          | Some (_, gs) => Some gs
          | None => search (Lit l :: r) (p ++ s)
          end).
  rewrite rmatch_quiet_head by exact H. apply IH.
  simpl in H. apply andb_true_iff in H as [_ H]. exact H.
Qed.

Lemma search_nil (l : list N) (r : list atom) (c : N) : search (Lit (c :: l) :: r) [] = None.
Proof. reflexivity. Qed.

Lemma search_none (l : list N) (r : list atom) (c : N) (s : list N) :
  quiet (c :: l) s = true -> search (Lit (c :: l) :: r) s = None.
Proof.
  intros H. rewrite <- (app_nil_r s). rewrite search_quiet by exact H. apply search_nil.
Qed.

Lemma search_match (r : list atom) (s rest : list N) (gs : gmap nat (list N)) :
  rmatch r s ∅ = Some (rest, gs) -> search r s = Some gs.
Proof. intros H. destruct s; simpl; rewrite H; reflexivity. Qed.

Lemma sub_skip (r : list atom) (p s : list N) :
  sub_from r (length p) (p ++ s) = sub_from r 0 s.
Proof. induction p as [|c p IH]; simpl; auto. Qed.

Lemma sub_quiet (l : list N) (r : list atom) (p s : list N) :
  quiet l p = true -> sub_from (Lit l :: r) 0 (p ++ s) = p ++ sub_from (Lit l :: r) 0 s.
Proof.
  induction p as [|c p IH]; intros H; [reflexivity|].
  change (sub_from (Lit l :: r) 0 ((c :: p) ++ s))
    with (match rmatch (Lit l :: r) ((c :: p) ++ s) ∅ with
          | Some (rest, _) =>
              (if Nat.eqb (length ((c :: p) ++ s) - length rest) 0 then [c] else [])
              ++ sub_from (Lit l :: r) (length ((c :: p) ++ s) - length rest - 1) (p ++ s)
          | None => c :: sub_from (Lit l :: r) 0 (p ++ s)
          end).
  rewrite rmatch_quiet_head by exact H. cbn [app]. f_equal. apply IH.
  simpl in H. apply andb_true_iff in H as [_ H]. exact H.
Qed.

Lemma sub_nil (l : list N) (r : list atom) (c : N) : sub_from (Lit (c :: l) :: r) 0 [] = [].
Proof. reflexivity. Qed.

Lemma sub_match (r : list atom) (c : N) (blk rest : list N) (gs : gmap nat (list N)) :
  rmatch r ((c :: blk) ++ rest) ∅ = Some (rest, gs) ->
  sub_from r 0 ((c :: blk) ++ rest) = sub_from r 0 rest.
Proof.
  intros H.
  change (sub_from r 0 ((c :: blk) ++ rest))
    with (match rmatch r ((c :: blk) ++ rest) ∅ with
          | Some (rest', _) =>
              (if Nat.eqb (length ((c :: blk) ++ rest) - length rest') 0 then [c] else [])
              ++ sub_from r (length ((c :: blk) ++ rest) - length rest' - 1) (blk ++ rest)
          | None => c :: sub_from r 0 (blk ++ rest)
          end).
  rewrite H.
  replace (length ((c :: blk) ++ rest) - length rest) with (S (length blk))
    by (rewrite length_app; simpl; lia).
  cbn [Nat.eqb app]. replace (S (length blk) - 1) with (length blk) by lia.
  apply sub_skip.
Qed.

Lemma sub_match_at (r : list atom) (t pre rest : list N) (gs : gmap nat (list N)) :
  t = pre ++ rest -> pre <> [] ->
  rmatch r t ∅ = Some (rest, gs) ->
  sub_from r 0 t = sub_from r 0 rest.
Proof.
  intros -> Hpre H. destruct pre as [|c blk]; [congruence|].
  eapply sub_match. exact H.
Qed.

(** *** The two block patterns *)

(** A block: open marker with a name in the class, a body without ['<'],
    and the close marker of the same name. *)
Lemma rmatch_block (A C B : list N) (cls : N -> bool) (name mid rest : list N) (b0 : N)
    (B' : list N) :
  B = b0 :: B' -> cls b0 = false ->
  forallb cls name = true -> 1 <= length name ->
  lacks 60 mid = true ->
  rmatch [ Lit A; Rep Greedy 1 cls (Some 1); Lit B;
           Rep Greedy 0 is_space None; Rep Lazy 0 any_char (Some 2);
           Rep Greedy 0 is_space None; Lit (60%N :: C); Backref 1; Lit B ]
         (A ++ name ++ B ++ mid ++ (60%N :: C) ++ name ++ B ++ rest) ∅
  = Some (rest, <[2 := strip mid]> (<[1 := name]> ∅)).
Proof.
  intros HB Hb0 Hname Hlen Hmid.
  rewrite rmatch_lit_app.
  apply rmatch_greedy_first; auto.
  - right. exists b0, (B' ++ mid ++ (60%N :: C) ++ name ++ B ++ rest). rewrite HB. auto.
  - cbn [set_cap]. rewrite rmatch_lit_app.
    apply rmatch_block_tail; [apply lookup_insert_eq | exact Hmid].
Qed.

End MatchFacts.


(** ** The rendered document *)

Section RenderFacts.

Lemma mapM_as_text (lines : list value) :
  Forall is_str lines -> mapM as_text lines = Ok (List.map as_str lines).
Proof.
  induction 1 as [|v lines [s ->] _ IH]; [reflexivity|].
  cbn [mapM as_text mbind result_bind]. rewrite IH. reflexivity.
Qed.

Lemma py_join_str (lines : list value) :
  Forall is_str lines -> py_join lines = Ok (join_lines (List.map as_str lines)).
Proof. intros H. unfold py_join. rewrite mapM_as_text by exact H. reflexivity. Qed.

Lemma unlines_app (a b : list (list N)) : unlines (a ++ b) = unlines a ++ unlines b.
Proof. unfold unlines. rewrite map_app, concat_app. reflexivity. Qed.

Lemma unlines_cons (l : list N) (ls : list (list N)) :
  unlines (l :: ls) = l ++ NL :: unlines ls.
Proof. unfold unlines. simpl. rewrite <- app_assoc. reflexivity. Qed.

Lemma unlines_nil : unlines [] = [].
Proof. reflexivity. Qed.

Lemma join_lines_unlines (ls : list (list N)) (l : list N) :
  join_lines (ls ++ [l]) = unlines ls ++ l.
Proof.
  induction ls as [|x ls IH]; [reflexivity|].
  rewrite unlines_cons. cbn [app]. rewrite <- app_assoc. cbn [app]. rewrite <- IH.
  destruct ls; reflexivity.
Qed.

Lemma is_str_L (s : string) : is_str (L s).
Proof. eexists. reflexivity. Qed.

Lemma is_str_VStr (s : list N) : is_str (VStr s).
Proof. eexists. reflexivity. Qed.

Lemma Forall_when (P : value -> Prop) (b : bool) (ls : list value) :
  (b = true -> Forall P ls) -> Forall P (when b ls).
Proof. destruct b; simpl; auto. Qed.

Lemma lacks_unlines (c : N) (ls : list (list N)) :
  c <> NL -> Forall (fun l => lacks c l = true) ls -> lacks c (unlines ls) = true.
Proof.
  intros Hc. induction 1 as [|l ls Hl _ IH]; [reflexivity|].
  rewrite unlines_cons, lacks_app, Hl, lacks_cons, IH.
  destruct (N.eqb_spec NL c); [congruence | reflexivity].
Qed.

(** A value that is missing or a string ([get] of a well-formed field). *)
Lemma plain_value_cases (excluded : list N) (v : value) :
  plain_value excluded v ->
  (truthy v = false /\ (v = VNone \/ v = VStr []))
  \/ exists s, v = VStr s /\ truthy v = true /\ nonempty s = true /\ strip s = s
               /\ forallb (fun c => lacks c s) excluded = true.
Proof.
  intros [-> | (s & -> & [-> | [Hs He]])]; auto.
  destruct s as [|c s]; auto. right. exists (c :: s). auto.
Qed.

Lemma clean_Forall (lines : list value) :
  Forall clean_line lines ->
  Forall is_str lines /\ lacks 60 (unlines (List.map as_str lines)) = true.
Proof.
  intros H. split.
  - eapply Forall_impl; [|exact H]. intros v [Hv _]. exact Hv.
  - apply lacks_unlines; [discriminate|]. apply Forall_map.
    eapply Forall_impl; [|exact H]. intros v [_ Hv]. exact Hv.
Qed.

Lemma get_lacks (tour : dict) (k : list N) :
  (forall k v, tour !! k = Some v -> lacks 60 (fmt v) = true) ->
  lacks 60 (fmt (get tour k)) = true.
Proof.
  intros H. unfold get. destruct (tour !! k) as [v|] eqn:E; simpl; eauto.
Qed.

Lemma replace_underscore_lacks (s : list N) :
  lacks 60 s = true -> lacks 60 (replace_underscore s) = true.
Proof.
  unfold replace_underscore. induction s as [|x s IH]; [reflexivity|].
  cbn [List.map]. rewrite !lacks_cons. intros H. apply andb_true_iff in H as [H1 H2].
  rewrite IH by exact H2. destruct (x =? 95)%N; [reflexivity | rewrite H1; reflexivity].
Qed.

Lemma strftime_lacks (now : datetime) : lacks 60 (strftime now) = true.
Proof.
  assert (Hp : forall n, lacks 60 (pad2 n) = true).
  { intros n. unfold pad2. destruct (n <? 10)%N; [rewrite lacks_cons|];
      rewrite str_of_N_lacks; reflexivity. }
  unfold strftime. rewrite !lacks_app, !Hp, str_of_N_lacks by reflexivity. reflexivity.
Qed.

Ltac lacks_leaf :=
  first
    [ assumption
    | apply get_lacks; assumption
    | apply strftime_lacks
    | (vm_compute; reflexivity) ].

Ltac lacks_tac :=
  cbn [as_str L]; rewrite ?lacks_app;
  repeat (apply andb_true_intro; split); lacks_leaf.

Ltac clean_tac :=
  repeat first
    [ apply Forall_nil
    | apply Forall_app; split
    | apply Forall_cons
    | apply Forall_when; intros ?
    | (split; [first [apply is_str_L | apply is_str_VStr] | lacks_tac]) ].

Section ReadOnly.

Variable str_title : list N -> list N.
Hypothesis str_title_lacks : forall s, lacks 60 s = true -> lacks 60 (str_title s) = true.

Variable tour : dict.
Hypothesis tour_lacks : forall k v, tour !! k = Some v -> lacks 60 (fmt v) = true.

Lemma pricing_lines_clean (note : list N) (pricing : list (list N * value * value))
    (fees : list (list N * value)) :
  lacks 60 note = true -> wf_pricing pricing fees ->
  Forall clean_line (pricing_lines str_title note pricing fees).
Proof.
  intros Hnote [Hp Hf]. unfold pricing_lines.
  apply Forall_when. intros _.
  apply Forall_app. split; [clean_tac|].
  apply Forall_app. split.
  { apply Forall_map. eapply Forall_impl; [|exact Hp].
    intros [[ptype variant] amount] (H1 & H2 & H3). simpl in H1, H2, H3.
    unfold pricing_line. split; [apply is_str_VStr|]. cbn [as_str].
    assert (Hl : lacks 60 (str_title (replace_underscore ptype)) = true)
      by (apply str_title_lacks, replace_underscore_lacks; exact H1).
    destruct (truthy variant && negb (bool_decide (variant = VStr (str "default")))); lacks_tac. }
  apply Forall_app. split; [|clean_tac].
  apply Forall_when. intros _. apply Forall_app. split; [clean_tac|].
  apply Forall_map. eapply Forall_impl; [|exact Hf].
  intros [fee_type amount] (H1 & H2). simpl in H1, H2.
  unfold fee_line. split; [apply is_str_VStr|]. cbn [as_str].
  assert (Hl : lacks 60 (str_title (replace_underscore fee_type)) = true)
    by (apply str_title_lacks, replace_underscore_lacks; exact H1).
  lacks_tac.
Qed.

Lemma read_only_lines_clean (title : value) (pricing : list (list N * value * value))
    (fees : list (list N * value)) :
  lacks 60 (fmt title) = true -> wf_pricing pricing fees ->
  Forall clean_line (read_only_lines str_title tour title pricing fees).
Proof.
  intros Htitle Hp. unfold read_only_lines, reference_rows, info_lines, info_items.
  cbn [flat_map].
  repeat (apply Forall_app; split);
    try (apply pricing_lines_clean; [vm_compute; reflexivity | exact Hp]);
    clean_tac.
Qed.

End ReadOnly.

End RenderFacts.


(** ** Field Blocks of the rendered document *)

Section FieldBlocks.

Variable uni_alnum : N -> bool.

Lemma field_block_text (name : string) (b : list N) :
  unlines (List.map as_str (field_block name (VStr b))) = block_text name b ++ [NL; NL].
Proof.
  unfold field_block, block_text, field_open, field_close. cbn [List.map as_str L].
  rewrite !unlines_cons, unlines_nil. flat. reflexivity.
Qed.

Lemma field_block_is_str (name : string) (b : list N) :
  Forall is_str (field_block name (VStr b)).
Proof. unfold field_block. repeat constructor; eexists; reflexivity. Qed.

(** Scanning for fields passes over a segment in which the open marker
    cannot start. *)
Lemma finditer_field_quiet (p s : list N) :
  quiet (str "<!-- FIELD:") p = true ->
  finditer_from (field_pattern uni_alnum) 0 (p ++ s)
  = finditer_from (field_pattern uni_alnum) 0 s.
Proof. apply finditer_quiet. Qed.

Lemma finditer_field_end (p : list N) :
  quiet (str "<!-- FIELD:") p = true -> finditer_from (field_pattern uni_alnum) 0 p = [].
Proof.
  intros H. rewrite <- (app_nil_r p), finditer_field_quiet by exact H. reflexivity.
Qed.

(** The field pattern on a rendered Field Block: its name and its
    stripped body. *)
Lemma rmatch_field_block (name : string) (b rest : list N) :
  forallb (is_word uni_alnum) (str name) = true -> nonempty (str name) = true ->
  lacks 60 b = true ->
  rmatch (field_pattern uni_alnum) (block_text name b ++ rest) ∅
  = Some (rest, <[2 := strip b]> (<[1 := str name]> ∅)).
Proof.
  intros Hw Hne Hb.
  replace (strip b) with (strip (NL :: b ++ [NL]))
    by (apply (strip_ws_padding [NL] b [NL]); reflexivity).
  replace (block_text name b ++ rest)
    with (str "<!-- FIELD:" ++ str name ++ str " -->" ++ (NL :: b ++ [NL])
          ++ (60%N :: str "!-- /FIELD:") ++ str name ++ str " -->" ++ rest)
    by (unfold block_text, field_open, field_close; flat; reflexivity).
  apply (rmatch_block (str "<!-- FIELD:") (str "!-- /FIELD:") (str " -->") (is_word uni_alnum)
           (str name) (NL :: b ++ [NL]) rest 32%N (str "-->")).
  - reflexivity.
  - reflexivity.
  - exact Hw.
  - destruct (str name); [discriminate Hne | simpl; lia].
  - rewrite lacks_cons, lacks_app, Hb. reflexivity.
Qed.

Lemma block_text_nonempty (name : string) (b : list N) : block_text name b <> [].
Proof. unfold block_text, field_open. discriminate. Qed.

(** Scanning a rendered Field Block yields its name and its stripped body. *)
Lemma finditer_field_block (name : string) (b rest : list N) :
  forallb (is_word uni_alnum) (str name) = true -> nonempty (str name) = true ->
  lacks 60 b = true ->
  finditer_from (field_pattern uni_alnum) 0
    (unlines (List.map as_str (field_block name (VStr b))) ++ rest)
  = <[2 := strip b]> (<[1 := str name]> ∅) :: finditer_from (field_pattern uni_alnum) 0 rest.
Proof.
  intros Hw Hne Hb. rewrite field_block_text.
  rewrite (finditer_match_at _ _ (block_text name b) (NL :: NL :: rest)
             (<[2 := strip b]> (<[1 := str name]> ∅))).
  - reflexivity.
  - flat. reflexivity.
  - apply block_text_nonempty.
  - replace ((block_text name b ++ [NL; NL]) ++ rest)
      with (block_text name b ++ NL :: NL :: rest) by (flat; reflexivity).
    apply rmatch_field_block; assumption.
Qed.

End FieldBlocks.

Section FieldValues.

Lemma group_1 (name body : list N) :
  group 1 (<[2 := body]> (<[1 := name]> (∅ : gmap nat (list N)))) = name.
Proof. unfold group. rewrite lookup_insert_ne by discriminate. rewrite lookup_insert_eq. reflexivity. Qed.

Lemma group_2 (name body : list N) :
  group 2 (<[2 := body]> (<[1 := name]> (∅ : gmap nat (list N)))) = body.
Proof. unfold group. rewrite lookup_insert_eq. reflexivity. Qed.

Lemma group_1_single (v : list N) : group 1 (<[1 := v]> (∅ : gmap nat (list N))) = v.
Proof. unfold group. rewrite lookup_insert_eq. reflexivity. Qed.

Lemma forallb_dot (v : list N) : lacks NL v = true -> forallb dot v = true.
Proof. intros H. exact H. Qed.

(** The value pattern on a rendered label line. *)
Lemma search_label_value (lab v : list N) :
  forallb not_star lab = true -> 1 <= length lab ->
  nonempty v = true -> strip v = v -> lacks NL v = true ->
  search label_value_pattern (str "**" ++ lab ++ str ":** " ++ v)
  = Some (<[1 := v]> ∅).
Proof.
  intros Hlab Hlen Hne Hstrip Hnl.
  destruct (strip_shape v Hstrip) as [-> | [(c & t & Hv & Hc) _]]; [discriminate Hne|].
  eapply search_match. unfold label_value_pattern.
  rewrite rmatch_lit_app.
  change (str ":** " ++ v) with (58%N :: (str "** " ++ v)).
  apply rmatch_greedy_second.
  - exact Hlab.
  - reflexivity.
  - exact Hlen.
  - right. exists 42%N, (str "* " ++ v). split; reflexivity.
  - cbn [set_cap]. apply rmatch_lit_clash. reflexivity.
  - cbn [set_cap]. change (58%N :: str "** " ++ v) with (str ":**" ++ ([32%N] ++ v)).
    rewrite rmatch_lit_app.
    apply rmatch_greedy_first; [reflexivity | simpl; lia | right; exists c, t; auto |].
    cbn [set_cap]. rewrite <- (app_nil_r v) at 1.
    apply rmatch_greedy_first; [apply forallb_dot; exact Hnl | | left; reflexivity | reflexivity].
    rewrite Hv. simpl. lia.
Qed.

Lemma strip_label (x v : list N) :
  strip v = v -> nonempty v = true -> strip (str "**" ++ x ++ v) = str "**" ++ x ++ v.
Proof.
  intros Hstrip Hne.
  destruct (strip_shape v Hstrip) as [-> | [_ (t & c & Hv & Hc)]]; [discriminate Hne|].
  rewrite <- (app_nil_r (str "**" ++ x ++ v)) at 1.
  change ((str "**" ++ x ++ v) ++ []) with ([] ++ (str "**" ++ x ++ v) ++ []).
  apply strip_core; auto. right. split.
  - exists 42%N, (42%N :: x ++ v). split; reflexivity.
  - exists (str "**" ++ x ++ t), c. split; auto. rewrite Hv. flat. reflexivity.
Qed.

Variable tour : dict.

(** A field that is rendered bare: its value, or the placeholder of the
    renderer when it has none. *)
Lemma parse_plain_field (name body : list N) (fs : gmap (list N) (list N)) :
  name ∉ LABELED_FIELDS ->
  (exists v, get tour name = VStr v /\ nonempty v = true /\ strip v = v /\ body = v)
  \/ (truthy (get tour name) = false
      /\ (body = str "_No short description yet._" \/ body = str "_No description yet._")) ->
  parse_field fs (<[2 := strip body]> (<[1 := name]> ∅))
  = match field_value tour name with Some v => <[name := v]> fs | None => fs end.
Proof.
  intros Hname Hbody. unfold parse_field. rewrite group_1, group_2, strip_idem.
  rewrite bool_decide_eq_false_2 by exact Hname.
  destruct Hbody as [(v & Hget & Hne & Hstrip & ->) | [Hfalse Hbody]].
  - rewrite Hstrip. unfold field_value, is_placeholder. rewrite Hget, Hne.
    rewrite bool_decide_eq_false_2 by exact Hname. cbn [andb orb].
    destruct (text_eqb v (str "_No short description yet._")),
             (text_eqb v (str "_No description yet._")); reflexivity.
  - assert (Hnone : field_value tour name = None).
    { unfold field_value. destruct (get tour name) as [|v| |]; auto.
      destruct v; [reflexivity | discriminate Hfalse]. }
    rewrite Hnone. destruct Hbody as [-> | ->]; reflexivity.
Qed.

(** A field that is rendered after a label. *)
Lemma parse_labeled_field (name lab v : list N) (fs : gmap (list N) (list N)) :
  name ∈ LABELED_FIELDS ->
  forallb not_star lab = true -> 1 <= length lab ->
  (get tour name = VStr v /\ nonempty v = true /\ strip v = v /\ lacks NL v = true)
  \/ (truthy (get tour name) = false /\ v = str "_Not specified_") ->
  parse_field fs (<[2 := strip (str "**" ++ lab ++ str ":** " ++ v)]> (<[1 := name]> ∅))
  = match field_value tour name with Some v => <[name := v]> fs | None => fs end.
Proof.
  intros Hname Hlab Hlen Hv. unfold parse_field. rewrite group_1, group_2, strip_idem.
  rewrite bool_decide_eq_true_2 by exact Hname.
  assert (Hfacts : nonempty v = true /\ strip v = v /\ lacks NL v = true).
  { destruct Hv as [(_ & H1 & H2 & H3) | [_ ->]]; auto. }
  destruct Hfacts as (Hne & Hstrip & Hnl).
  replace (strip (str "**" ++ lab ++ str ":** " ++ v)) with (str "**" ++ lab ++ str ":** " ++ v).
  2:{ symmetry. replace (str "**" ++ lab ++ str ":** " ++ v)
        with (str "**" ++ (lab ++ str ":** ") ++ v) by (rewrite <- app_assoc; reflexivity).
      apply strip_label; assumption. }
  rewrite search_label_value by assumption.
  rewrite group_1_single, Hstrip.
  destruct Hv as [(Hget & _) | [Hfalse ->]].
  - unfold field_value, is_placeholder. rewrite Hget, Hne.
    rewrite bool_decide_eq_true_2 by exact Hname. cbn [andb orb].
    destruct (text_eqb v (str "_Not specified_")) eqn:E1.
    + cbn [nonempty andb orb negb]. reflexivity.
    + rewrite Hne.
      destruct (text_eqb v (str "_No short description yet._")),
               (text_eqb v (str "_No description yet._")); reflexivity.
  - assert (Hnone : field_value tour name = None).
    { unfold field_value. destruct (get tour name) as [|v| |]; auto.
      destruct v; [reflexivity | discriminate Hfalse]. }
    rewrite Hnone. reflexivity.
Qed.

End FieldValues.

Section FieldSteps.

Variable uni_alnum : N -> bool.
Variable tour : dict.
Hypothesis tour_lacks : forall k v, tour !! k = Some v -> lacks 60 (fmt v) = true.

Local Abbreviation scan := (finditer_from (field_pattern uni_alnum) 0).

Lemma get_str_lacks (k s : list N) : get tour k = VStr s -> lacks 60 s = true.
Proof.
  unfold get. destruct (tour !! k) as [v|] eqn:E; simpl; [|discriminate].
  intros ->. apply (tour_lacks k (VStr s) E).
Qed.

Lemma step_quiet (p rest : list N) (fs : gmap (list N) (list N)) :
  quiet (str "<!-- FIELD:") p = true ->
  fold_left parse_field (scan (p ++ rest)) fs = fold_left parse_field (scan rest) fs.
Proof. intros H. rewrite finditer_field_quiet by exact H. reflexivity. Qed.

Lemma step_plain (name ph : string) (rest : list N) (fs : gmap (list N) (list N)) :
  str name ∉ LABELED_FIELDS ->
  forallb (is_word uni_alnum) (str name) = true -> nonempty (str name) = true ->
  plain_value [] (get tour (str name)) ->
  str ph = str "_No short description yet._" \/ str ph = str "_No description yet._" ->
  fold_left parse_field
    (scan (unlines (List.map as_str
                      (field_block name (py_or (get tour (str name)) (L ph)))) ++ rest)) fs
  = fold_left parse_field (scan rest)
      (match field_value tour (str name) with Some v => <[str name := v]> fs | None => fs end).
Proof.
  intros Hname Hw Hne Hplain Hph.
  destruct (plain_value_cases _ _ Hplain) as [[Hf _] | (s & Hs & Ht & Hn & Hstrip & _)].
  - unfold py_or. rewrite Hf. unfold L.
    rewrite finditer_field_block; auto.
    + cbn [fold_left]. rewrite (parse_plain_field tour); auto.
    + destruct Hph as [-> | ->]; reflexivity.
  - unfold py_or. rewrite Ht, Hs.
    rewrite finditer_field_block; auto.
    + cbn [fold_left]. rewrite (parse_plain_field tour); auto.
      left. exists s. rewrite <- Hs. auto.
    + apply (get_str_lacks (str name)). exact Hs.
Qed.

Lemma step_bare (name : string) (rest : list N) (fs : gmap (list N) (list N)) :
  str name ∉ LABELED_FIELDS ->
  forallb (is_word uni_alnum) (str name) = true -> nonempty (str name) = true ->
  plain_value [] (get tour (str name)) ->
  truthy (get tour (str name)) = true ->
  fold_left parse_field
    (scan (unlines (List.map as_str (field_block name (get tour (str name)))) ++ rest)) fs
  = fold_left parse_field (scan rest)
      (match field_value tour (str name) with Some v => <[str name := v]> fs | None => fs end).
Proof.
  intros Hname Hw Hne Hplain Htrue.
  destruct (plain_value_cases _ _ Hplain) as [[Hf _] | (s & Hs & Ht & Hn & Hstrip & _)];
    [congruence|].
  rewrite Hs. rewrite finditer_field_block; auto.
  - cbn [fold_left]. rewrite (parse_plain_field tour); auto.
    left. exists s. rewrite <- Hs. auto.
  - apply (get_str_lacks (str name)). exact Hs.
Qed.

Lemma field_value_falsy (name : list N) :
  truthy (get tour name) = false -> field_value tour name = None.
Proof.
  intros H. unfold field_value. destruct (get tour name) as [|v| |]; auto.
  destruct v; [reflexivity | discriminate H].
Qed.

Lemma step_labeled (name label : string) (rest : list N) (fs : gmap (list N) (list N)) :
  str name ∈ LABELED_FIELDS ->
  forallb (is_word uni_alnum) (str name) = true -> nonempty (str name) = true ->
  forallb not_star (str label) = true -> 1 <= length (str label) ->
  lacks 60 (str label) = true ->
  plain_value [NL] (get tour (str name)) ->
  fold_left parse_field
    (scan (unlines (List.map as_str
                      (field_block name (labeled label (get tour (str name)) "_Not specified_")))
           ++ rest)) fs
  = fold_left parse_field (scan rest)
      (match field_value tour (str name) with Some v => <[str name := v]> fs | None => fs end).
Proof.
  intros Hname Hw Hne Hlab Hlen Hlt Hplain. unfold labeled.
  destruct (plain_value_cases _ _ Hplain) as [[Hf _] | (s & Hs & Ht & Hn & Hstrip & Hex)].
  - unfold py_or. rewrite Hf. unfold L. cbn [fmt].
    rewrite finditer_field_block; auto.
    + cbn [fold_left]. rewrite (parse_labeled_field tour); auto.
    + rewrite !lacks_app. repeat (apply andb_true_intro; split); try reflexivity.
      exact Hlt.
  - unfold py_or. rewrite Ht, Hs. cbn [fmt].
    assert (Hl : lacks 60 s = true) by (apply (get_str_lacks (str name)); exact Hs).
    rewrite finditer_field_block; auto.
    + cbn [fold_left]. rewrite (parse_labeled_field tour); auto.
      left. rewrite <- Hs. repeat split; auto.
      cbn [forallb] in Hex. apply andb_true_iff in Hex as [Hex _]. exact Hex.
    + rewrite !lacks_app. repeat (apply andb_true_intro; split); try reflexivity; auto.
Qed.

End FieldSteps.


(** ** The editable fields of a generated document *)

Section DocumentFields.

Variable uni_alnum : N -> bool.
Variable tour : dict.
Hypothesis tour_ok : wf_tour tour.

Local Abbreviation scan := (finditer_from (field_pattern uni_alnum) 0).

Ltac field_side :=
  match goal with
  | |- _ ∉ LABELED_FIELDS => apply (bool_decide_unpack _); vm_compute; exact I
  | |- _ ∈ LABELED_FIELDS => apply (bool_decide_unpack _); vm_compute; exact I
  | |- forallb _ _ = true => reflexivity
  | |- nonempty _ = true => reflexivity
  | |- lacks _ _ = true => reflexivity
  | |- _ <= _ => vm_compute; lia
  | |- quiet _ _ = true => vm_compute; reflexivity
  | |- plain_value [] _ => apply (proj1 (proj2 tour_ok)); apply (bool_decide_unpack _); vm_compute; exact I
  | |- plain_value [NL] _ => apply (proj2 (proj2 tour_ok)); apply (bool_decide_unpack _); vm_compute; exact I
  | |- _ \/ _ => first [left; reflexivity | right; reflexivity]
  end.

Lemma description_fields (rest : list N) (fs : gmap (list N) (list N)) :
  fold_left parse_field (scan (unlines (List.map as_str (description_lines tour)) ++ rest)) fs
  = fold_left parse_field (scan rest)
      (fold_left (fun fs name => match field_value tour name with
                                 | Some v => <[name := v]> fs
                                 | None => fs
                                 end)
                 [str "short_description"; str "description"; str "special_notes"] fs).
Proof.
  pose proof (proj1 tour_ok) as Hl.
  unfold description_lines. rewrite !map_app, !unlines_app. flat.
  rewrite step_quiet by field_side.
  rewrite (step_plain uni_alnum tour Hl) by field_side.
  rewrite step_quiet by field_side.
  rewrite (step_plain uni_alnum tour Hl) by field_side.
  cbn [fold_left].
  destruct (truthy (get tour (str "special_notes"))) eqn:Ht; cbn [when].
  - match goal with
    | |- context [List.map as_str (?x :: field_block ?a ?b)] =>
        change (List.map as_str (x :: field_block a b))
          with (List.map as_str ([x] ++ field_block a b))
    end.
    rewrite !map_app, !unlines_app. flat.
    rewrite step_quiet by field_side.
    rewrite (step_bare uni_alnum tour Hl) by (first [exact Ht | field_side]).
    reflexivity.
  - cbn [List.map unlines concat app].
    rewrite (field_value_falsy tour (str "special_notes") Ht). reflexivity.
Qed.

Lemma trip_details_fields (rest : list N) (fs : gmap (list N) (list N)) :
  fold_left parse_field (scan (unlines (List.map as_str (trip_details_lines tour)) ++ rest)) fs
  = fold_left parse_field (scan rest)
      (fold_left (fun fs name => match field_value tour name with
                                 | Some v => <[name := v]> fs
                                 | None => fs
                                 end) LABELED_FIELDS fs).
Proof.
  pose proof (proj1 tour_ok) as Hl.
  unfold trip_details_lines. rewrite !map_app, !unlines_app. flat.
  rewrite step_quiet by field_side.
  rewrite (step_labeled uni_alnum tour Hl) by field_side.
  rewrite (step_labeled uni_alnum tour Hl) by field_side.
  rewrite step_quiet by field_side.
  rewrite (step_labeled uni_alnum tour Hl) by field_side.
  rewrite (step_labeled uni_alnum tour Hl) by field_side.
  rewrite (step_labeled uni_alnum tour Hl) by field_side.
  rewrite (step_labeled uni_alnum tour Hl) by field_side.
  reflexivity.
Qed.

(** The fields a parse finds in a document whose read-only part and
    itinerary carry no field marker. *)
Lemma document_fields (head tail : list N) :
  quiet (str "<!-- FIELD:") head = true -> quiet (str "<!-- FIELD:") tail = true ->
  fold_left parse_field
    (finditer (field_pattern uni_alnum)
       (head ++ unlines (List.map as_str (description_lines tour))
             ++ unlines (List.map as_str (trip_details_lines tour)) ++ tail)) ∅
  = field_values BLOCK_FIELDS tour.
Proof.
  intros Hh Ht. unfold finditer.
  rewrite step_quiet by exact Hh.
  rewrite description_fields, trip_details_fields.
  rewrite finditer_field_end by exact Ht.
  reflexivity.
Qed.

End DocumentFields.


(** ** Paragraphs and labelled lines *)

Lemma sep_tail_cons (p : list N) (ps : list (list N)) :
  sep_tail (p :: ps) = NL :: NL :: sep_join (p :: ps).
Proof. reflexivity. Qed.

Lemma sep_join_cons (p : list N) (ps : list (list N)) :
  sep_join (p :: ps) = p ++ sep_tail ps.
Proof.
  destruct ps as [|q ps]; cbn [sep_join sep_tail]; [rewrite app_nil_r|]; reflexivity.
Qed.

Lemma sep_join_app (a : list (list N)) (p : list N) (c : list (list N)) :
  sep_join (a ++ p :: c)
  = concat (List.map (fun q => q ++ [NL; NL]) a) ++ p ++ sep_tail c.
Proof.
  induction a as [|q a IH]; cbn [app List.map concat].
  - apply sep_join_cons.
  - rewrite sep_join_cons.
    assert (E : sep_tail (a ++ p :: c) = NL :: NL :: sep_join (a ++ p :: c))
      by (destruct a; reflexivity).
    rewrite E, IH. flat. reflexivity.
Qed.

Lemma sep_tail_head (ps : list (list N)) (cls : N -> bool) :
  cls NL = false ->
  sep_tail ps = [] \/ exists c t, sep_tail ps = c :: t /\ cls c = false.
Proof.
  intros H. destruct ps as [|p ps]; [left; reflexivity|].
  right. exists NL, (NL :: sep_join (p :: ps)). split; [reflexivity | exact H].
Qed.

Lemma paragraphs_text (p : list N) (ps : list (list N)) :
  concat (List.map (fun q => q ++ [NL; NL]) (p :: ps)) = sep_join (p :: ps) ++ [NL; NL].
Proof.
  revert p. induction ps as [|q ps IH]; intros p.
  - cbn [List.map concat sep_join]. rewrite app_nil_r. reflexivity.
  - change (concat (List.map (fun q => q ++ [NL; NL]) (p :: q :: ps)))
      with ((p ++ [NL; NL]) ++ concat (List.map (fun q => q ++ [NL; NL]) (q :: ps))).
    rewrite IH. cbn [sep_join]. flat. reflexivity.
Qed.

Section Quiet.

Variable l : list N.
Hypothesis l_line : clash l [NL] = true.

Lemma quiet_break : quiet l [NL; NL] = true.
Proof.
  cbn [quiet]. rewrite l_line.
  pose proof (clash_app l [NL] [NL] l_line) as H. cbn [app] in H.
  rewrite H. reflexivity.
Qed.

Lemma quiet_paragraphs (ps : list (list N)) :
  Forall (fun p => quiet l p = true) ps ->
  quiet l (concat (List.map (fun q => q ++ [NL; NL]) ps)) = true.
Proof.
  intros H. apply quiet_concat. apply Forall_map.
  eapply Forall_impl; [|exact H].
  intros p Hp. cbn beta. apply quiet_app; [exact Hp | apply quiet_break].
Qed.

Lemma quiet_sep_join (ps : list (list N)) :
  Forall (fun p => quiet l p = true) ps -> quiet l (sep_join ps) = true.
Proof.
  induction ps as [|p ps IH]; intros H; [reflexivity|].
  inversion H as [|? ? Hp Hps]; subst.
  rewrite sep_join_cons. apply quiet_app; [exact Hp|].
  destruct ps as [|q ps]; [reflexivity|].
  rewrite sep_tail_cons.
  change (NL :: NL :: sep_join (q :: ps)) with ([NL; NL] ++ sep_join (q :: ps)).
  apply quiet_app; [apply quiet_break | apply IH; exact Hps].
Qed.

Lemma quiet_sep_tail (ps : list (list N)) :
  Forall (fun p => quiet l p = true) ps -> quiet l (sep_tail ps) = true.
Proof.
  intros H. destruct ps as [|q ps]; [reflexivity|].
  rewrite sep_tail_cons.
  change (NL :: NL :: sep_join (q :: ps)) with ([NL; NL] ++ sep_join (q :: ps)).
  apply quiet_app; [apply quiet_break | apply quiet_sep_join; exact H].
Qed.

End Quiet.

(** A search for a label, optional blanks and a value finds the first
    label and takes the value up to the first character outside the class. *)
Lemma search_label (l : list N) (c : N) (l' : list N) (cls : N -> bool)
    (P x Q : list N) (h : N) (x' : list N) :
  l = c :: l' -> quiet l P = true ->
  x = h :: x' -> is_space h = false -> forallb cls x = true ->
  Q = [] \/ (exists c' t', Q = c' :: t' /\ cls c' = false) ->
  search [Lit l; Rep Greedy 0 is_space None; Rep Greedy 1 cls (Some 1)]
         (P ++ l ++ 32%N :: x ++ Q)
  = Some (<[1 := x]> ∅).
Proof.
  intros Hl HP Hx Hh Hcls HQ.
  rewrite search_quiet by exact HP.
  apply (search_match _ _ Q).
  rewrite rmatch_lit_app.
  change (32%N :: x ++ Q) with ([32%N] ++ (x ++ Q)).
  apply rmatch_greedy_first.
  - reflexivity.
  - cbn [length]. lia.
  - right. exists h, (x' ++ Q). split; [rewrite Hx; reflexivity | exact Hh].
  - cbn [set_cap]. apply rmatch_greedy_first.
    + exact Hcls.
    + rewrite Hx. cbn [length]. lia.
    + exact HQ.
    + reflexivity.
Qed.

(** Removing a label and its value leaves what is around them. *)
Lemma sub_absent (l : list N) (c : N) (l' : list N) (r : list atom) (s : list N) :
  l = c :: l' -> quiet l s = true -> re_sub (Lit l :: r) s = s.
Proof.
  intros Hl Hs. unfold re_sub.
  rewrite <- (app_nil_r s) at 1. rewrite sub_quiet by exact Hs.
  rewrite Hl, sub_nil, app_nil_r. reflexivity.
Qed.

Lemma sub_label (l : list N) (c : N) (l' : list N) (cls : N -> bool) (P x Q : list N) :
  l = c :: l' -> quiet l P = true -> quiet l Q = true ->
  forallb cls x = true -> 1 <= length x ->
  Q = [] \/ (exists c' t', Q = c' :: t' /\ cls c' = false) ->
  re_sub [Lit l; Rep Greedy 1 cls None] (P ++ l ++ x ++ Q) = P ++ Q.
Proof.
  intros Hl HP HQ Hcls Hlen Hhead. unfold re_sub.
  rewrite sub_quiet by exact HP.
  rewrite (sub_match_at _ (l ++ x ++ Q) (l ++ x) Q ∅).
  - fold (re_sub [Lit l; Rep Greedy 1 cls None] Q).
    rewrite (sub_absent l c l') by assumption. reflexivity.
  - flat. reflexivity.
  - rewrite Hl. discriminate.
  - rewrite rmatch_lit_app. apply rmatch_greedy_first; auto.
Qed.

(** Blank paragraphs disappear under [strip]. *)
Lemma sep_join_blank (ws : list (list N)) :
  Forall (fun w => forallb is_space w = true) ws -> forallb is_space (sep_join ws) = true.
Proof.
  induction ws as [|w ws IH]; intros H; [reflexivity|].
  inversion H as [|? ? Hw Hws]; subst.
  rewrite sep_join_cons. apply forallb_all_app; [exact Hw|].
  destruct ws as [|q ws]; [reflexivity|].
  rewrite sep_tail_cons. cbn [forallb]. 
  change (is_space NL) with true. cbn [andb]. apply IH. exact Hws.
Qed.

Lemma strip_blank (w : list N) : forallb is_space w = true -> strip w = [].
Proof.
  intros H. rewrite <- (app_nil_r w).
  change (w ++ []) with (w ++ [] ++ []).
  apply strip_core; auto.
Qed.

Lemma strip_after_blanks (ws : list (list N)) (c : list N) :
  Forall (fun w => forallb is_space w = true) ws -> strip c = c ->
  strip (sep_join (ws ++ [c])) = c.
Proof.
  intros Hws Hc. rewrite sep_join_app. cbn [sep_tail].
  apply strip_padded; [|reflexivity|exact Hc].
  clear Hc. induction Hws as [|w ws Hw _ IH]; [reflexivity|].
  cbn [List.map concat]. apply forallb_all_app; [|exact IH].
  apply forallb_all_app; [exact Hw | reflexivity].
Qed.


(** ** The labelled lines of a rendered day *)

Lemma label_split (label : string) (s : list N) :
  str "**" ++ str label ++ str ":** " ++ s
  = (str "**" ++ str label ++ str ":**") ++ 32%N :: s.
Proof.
  change (str ":** ") with (str ":**" ++ [32%N]). flat. reflexivity.
Qed.

Lemma excluded_lacks (s : list N) :
  forallb (fun c => lacks c s) [60%N; 42%N; 124%N; NL] = true ->
  lacks 60 s = true /\ lacks 42 s = true /\ lacks 124 s = true /\ lacks NL s = true.
Proof.
  cbn [forallb]. rewrite !andb_true_iff. tauto.
Qed.

Lemma stat_falsy (label : string) (v : value) : truthy v = false -> stat label v = [].
Proof. intros H. unfold stat. rewrite H. reflexivity. Qed.

Lemma stat_truthy (label : string) (s : list N) :
  nonempty s = true ->
  stat label (VStr s) = [(str "**" ++ str label ++ str ":**") ++ 32%N :: s].
Proof.
  intros H. unfold stat. destruct s as [|c s]; [discriminate|].
  cbn [truthy fmt]. rewrite label_split. reflexivity.
Qed.

Lemma foreign_lacks (c : N) (l : list N) (ps : list (list N)) :
  Forall (fun p => lacks c p = true) ps -> Forall (fun p => quiet (c :: l) p = true) ps.
Proof.
  intros H. eapply Forall_impl; [|exact H].
  intros p Hp. apply quiet_lacks. exact Hp.
Qed.

Lemma foreign_blank (l : list N) (ps : list (list N)) :
  Forall (fun p => quiet l p = true) (blank_of ps).
Proof. unfold blank_of. apply Forall_map. apply Forall_forall. intros; reflexivity. Qed.

(** The line of another label, or of the same label under a pattern that
    starts with a character no value has, is skipped by a scan. *)
Lemma foreign_stat (c : N) (l : list N) (label : string) (v : value) :
  c = 42%N \/ c = 124%N ->
  quiet (c :: l) ((str "**" ++ str label ++ str ":**") ++ [32%N]) = true ->
  plain_value [60%N; 42%N; 124%N; NL] v ->
  Forall (fun p => quiet (c :: l) p = true) (stat label v).
Proof.
  intros Hc Hq Hv.
  destruct (plain_value_cases _ _ Hv) as [[Hf _] | (s & -> & Ht & Hn & Hstrip & Hex)].
  - rewrite stat_falsy by exact Hf. constructor.
  - rewrite stat_truthy by exact Hn. constructor; [|constructor].
    change (32%N :: s) with ([32%N] ++ s). rewrite app_assoc.
    apply quiet_app; [exact Hq|]. apply quiet_lacks.
    apply excluded_lacks in Hex. destruct Hc as [-> | ->]; tauto.
Qed.

Section Slot.

Variables (key label : string) (cls : N -> bool).
Hypothesis cls_blank : cls 32%N = true.
Hypothesis cls_break : cls NL = false.
Hypothesis cls_value :
  forall s, lacks NL s = true -> lacks 124 s = true -> forallb cls s = true.

Local Abbreviation lit := (str "**" ++ str label ++ str ":**").

Variables (A C : list (list N)) (v : value).
Hypothesis A_foreign : Forall (fun p => quiet lit p = true) A.
Hypothesis C_foreign : Forall (fun p => quiet lit p = true) C.
Hypothesis v_plain : plain_value [60%N; 42%N; 124%N; NL] v.

Lemma lit_line : clash lit [NL] = true.
Proof. reflexivity. Qed.

Lemma capture_slot (acc : dict) :
  capture key [Lit lit; Rep Greedy 0 is_space None; Rep Greedy 1 cls (Some 1)]
          (sep_join (A ++ stat label v ++ C)) acc
  = match v with
    | VStr s => if nonempty s then <[str key := VStr s]> acc else acc
    | _ => acc
    end.
Proof.
  unfold capture.
  destruct (plain_value_cases _ _ v_plain) as [[Hf Hv] | (s & Hs & Ht & Hn & Hstrip & Hex)].
  - rewrite stat_falsy by exact Hf. cbn [app].
    rewrite (search_none (42%N :: str label ++ str ":**") _ 42%N).
    + destruct Hv as [-> | ->]; reflexivity.
    + apply (quiet_sep_join lit lit_line). apply Forall_app_2; assumption.
  - subst v. rewrite stat_truthy by exact Hn. cbn [app].
    rewrite sep_join_app. apply excluded_lacks in Hex as (_ & _ & Hbar & Hnl).
    destruct (strip_shape s Hstrip) as [-> | [(h & s' & Hhead & Hh) _]]; [discriminate|].
    rewrite <- app_assoc. cbn [app].
    rewrite (search_label lit 42%N (42%N :: str label ++ str ":**") cls _ s _ h s').
    + rewrite group_1_single, Hstrip, Hn. reflexivity.
    + reflexivity.
    + apply (quiet_paragraphs lit lit_line). exact A_foreign.
    + exact Hhead.
    + exact Hh.
    + apply cls_value; assumption.
    + apply sep_tail_head. exact cls_break.
Qed.

Lemma remove_slot :
  re_sub [Lit lit; Rep Greedy 1 cls None] (sep_join (A ++ stat label v ++ C))
  = sep_join (A ++ blank_of (stat label v) ++ C).
Proof.
  destruct (plain_value_cases _ _ v_plain) as [[Hf Hv] | (s & Hs & Ht & Hn & Hstrip & Hex)].
  - rewrite stat_falsy by exact Hf. cbn [app blank_of List.map].
    apply (sub_absent lit 42%N (42%N :: str label ++ str ":**")); [reflexivity|].
    apply (quiet_sep_join lit lit_line). apply Forall_app_2; assumption.
  - subst v. rewrite stat_truthy by exact Hn. cbn [app blank_of List.map].
    rewrite !sep_join_app. apply excluded_lacks in Hex as (_ & _ & Hbar & Hnl).
    rewrite <- app_assoc. cbn [app].
    change (32%N :: s ++ sep_tail C) with ((32%N :: s) ++ sep_tail C).
    apply (sub_label lit 42%N (42%N :: str label ++ str ":**")).
    + reflexivity.
    + apply (quiet_paragraphs lit lit_line). exact A_foreign.
    + apply (quiet_sep_tail lit lit_line). exact C_foreign.
    + cbn [forallb]. rewrite cls_blank. apply cls_value; assumption.
    + cbn [length]. lia.
    + apply sep_tail_head. exact cls_break.
Qed.

End Slot.


(** ** A rendered day and its parse *)

Ltac text_eq := repeat (progress (rewrite <- ?app_assoc; cbn [app])); reflexivity.

Lemma strip_prefixed (a s : list N) (h : N) (a' : list N) :
  a = h :: a' -> is_space h = false -> strip s = s -> nonempty s = true ->
  strip (a ++ s) = a ++ s.
Proof.
  intros Ha Hh Hs Hn.
  destruct (strip_shape s Hs) as [-> | [_ (t & c & Ht & Hc)]]; [discriminate|].
  assert (E : strip ([] ++ (a ++ s) ++ []) = a ++ s).
  { apply strip_core; [reflexivity | reflexivity |].
    right. split.
    - exists h, (a' ++ s). rewrite Ha. split; [reflexivity | exact Hh].
    - exists (a ++ t), c. rewrite Ht, app_assoc. split; [reflexivity | exact Hc]. }
  cbn [app] in E. rewrite app_nil_r in E. exact E.
Qed.

Lemma sep_join_shape (ps : list (list N)) :
  Forall (fun p => strip p = p /\ nonempty p = true) ps ->
  ps = [] \/ ((exists c t, sep_join ps = c :: t /\ is_space c = false)
              /\ (exists t c, sep_join ps = t ++ [c] /\ is_space c = false)).
Proof.
  induction ps as [|p ps IH]; intros H; [left; reflexivity|].
  right. inversion H as [|? ? [Hp Hn] Hps]; subst.
  destruct (strip_shape p Hp) as [-> | [(c & t & Hc & Hcs) (t' & c' & Ht & Hts)]];
    [discriminate|].
  rewrite sep_join_cons. split.
  - exists c, (t ++ sep_tail ps). rewrite Hc. split; [reflexivity | exact Hcs].
  - destruct (IH Hps) as [-> | [_ (u & e & Hu & He)]].
    + exists t', c'. cbn [sep_tail]. rewrite app_nil_r. split; [exact Ht | exact Hts].
    + destruct ps as [|q ps]; [destruct u; discriminate Hu|].
      rewrite sep_tail_cons, Hu. exists (p ++ NL :: NL :: u), e.
      split; [text_eq | exact He].
Qed.

Lemma strip_paragraphs (ps : list (list N)) :
  Forall (fun p => strip p = p /\ nonempty p = true) ps ->
  strip (NL :: NL :: concat (List.map (fun q => q ++ [NL; NL]) ps)) = sep_join ps.
Proof.
  intros H. destruct (sep_join_shape ps H) as [-> | Hshape].
  - reflexivity.
  - destruct ps as [|p ps]; [destruct Hshape as [(c & t & Hc & _) _]; discriminate Hc|].
    rewrite paragraphs_text.
    change (NL :: NL :: sep_join (p :: ps) ++ [NL; NL])
      with ([NL; NL] ++ sep_join (p :: ps) ++ [NL; NL]).
    apply strip_core; [reflexivity | reflexivity | right; exact Hshape].
Qed.

Lemma blank_is_space (ps : list (list N)) :
  Forall (fun w => forallb is_space w = true) (blank_of ps).
Proof. unfold blank_of. apply Forall_map. apply Forall_forall. intros; reflexivity. Qed.

Lemma blank_lacks (c : N) (ps : list (list N)) :
  Forall (fun p => lacks c p = true) (blank_of ps).
Proof. unfold blank_of. apply Forall_map. apply Forall_forall. intros; reflexivity. Qed.

Lemma blank_of_app (a b : list (list N)) : blank_of (a ++ b) = blank_of a ++ blank_of b.
Proof. apply map_app. Qed.

Lemma stat_stripped (label : string) (v : value) :
  plain_value [60%N; 42%N; 124%N; NL] v ->
  Forall (fun p => strip p = p /\ nonempty p = true) (stat label v).
Proof.
  intros Hv.
  destruct (plain_value_cases _ _ Hv) as [[Hf _] | (s & -> & Ht & Hn & Hstrip & Hex)].
  - rewrite stat_falsy by exact Hf. constructor.
  - rewrite stat_truthy by exact Hn. constructor; [|constructor]. split; [|reflexivity].
    replace ((str "**" ++ str label ++ str ":**") ++ 32%N :: s)
      with (((str "**" ++ str label ++ str ":**") ++ [32%N]) ++ s) by text_eq.
    apply (strip_prefixed _ s 42%N ((42%N :: str label ++ str ":**") ++ [32%N]));
      [reflexivity | reflexivity | exact Hstrip | exact Hn].
Qed.


Lemma remove_slot_at (label : string) (cls : N -> bool) (A C : list (list N)) (v : value)
    (T : list (list N)) :
  cls 32%N = true -> cls NL = false ->
  (forall s, lacks NL s = true -> lacks 124 s = true -> forallb cls s = true) ->
  Forall (fun p => quiet (str "**" ++ str label ++ str ":**") p = true) A ->
  Forall (fun p => quiet (str "**" ++ str label ++ str ":**") p = true) C ->
  plain_value [60%N; 42%N; 124%N; NL] v ->
  T = A ++ stat label v ++ C ->
  re_sub [Lit (str "**" ++ str label ++ str ":**"); Rep Greedy 1 cls None] (sep_join T)
  = sep_join (A ++ blank_of (stat label v) ++ C).
Proof. intros H1 H2 H3 H4 H5 H6 ->. apply remove_slot; assumption. Qed.

Lemma capture_slot_at (key label : string) (cls : N -> bool) (A C : list (list N))
    (v : value) (T : list (list N)) (acc : dict) :
  cls NL = false ->
  (forall s, lacks NL s = true -> lacks 124 s = true -> forallb cls s = true) ->
  Forall (fun p => quiet (str "**" ++ str label ++ str ":**") p = true) A ->
  Forall (fun p => quiet (str "**" ++ str label ++ str ":**") p = true) C ->
  plain_value [60%N; 42%N; 124%N; NL] v ->
  T = A ++ stat label v ++ C ->
  capture key [Lit (str "**" ++ str label ++ str ":**"); Rep Greedy 0 is_space None;
               Rep Greedy 1 cls (Some 1)] (sep_join T) acc
  = match v with
    | VStr s => if nonempty s then <[str key := VStr s]> acc else acc
    | _ => acc
    end.
Proof. intros H2 H3 H4 H5 H6 ->. apply capture_slot; assumption. Qed.

Lemma not_nl_bar_value (s : list N) :
  lacks NL s = true -> lacks 124 s = true -> forallb not_nl_bar s = true.
Proof.
  induction s as [|c s IH]; [reflexivity|].
  rewrite !lacks_cons, !andb_true_iff. intros [H1 H2] [H3 H4].
  cbn [forallb]. unfold not_nl_bar at 1. rewrite H1, H3. cbn [andb]. auto.
Qed.

Lemma dot_value (s : list N) :
  lacks NL s = true -> lacks 124 s = true -> forallb dot s = true.
Proof. intros H _. apply forallb_dot. exact H. Qed.

Section DayContent.

Variable d : dict.
Hypothesis d_ok : wf_day d.

Ltac day_key := apply (bool_decide_unpack _); vm_compute; exact I.

Lemma miles_plain : plain_value [60%N; 42%N; 124%N; NL] (get d (str "miles")).
Proof. apply (proj1 (proj2 d_ok)). day_key. Qed.
Lemma elevation_plain : plain_value [60%N; 42%N; 124%N; NL] (get d (str "elevation")).
Proof. apply (proj1 (proj2 d_ok)). day_key. Qed.
Lemma route_plain : plain_value [60%N; 42%N; 124%N; NL] (get d (str "trails_waypoints")).
Proof. apply (proj1 (proj2 d_ok)). day_key. Qed.
Lemma lodging_plain : plain_value [60%N; 42%N; 124%N; NL] (get d (str "camp_lodging")).
Proof. apply (proj1 (proj2 d_ok)). day_key. Qed.
Lemma meals_plain : plain_value [60%N; 42%N; 124%N; NL] (get d (str "meals")).
Proof. apply (proj1 (proj2 d_ok)). day_key. Qed.

Lemma content_cases :
  (truthy (get d (str "content")) = false /\ as_str (get d (str "content")) = [])
  \/ exists s, get d (str "content") = VStr s /\ truthy (get d (str "content")) = true
               /\ nonempty s = true /\ strip s = s
               /\ lacks 60 s = true /\ lacks 42 s = true /\ lacks 124 s = true.
Proof.
  destruct (plain_value_cases _ _ (proj2 (proj2 d_ok)))
    as [[Hf Hv] | (s & Hs & Ht & Hn & Hstrip & Hex)].
  - left. split; [exact Hf|]. destruct Hv as [-> | ->]; reflexivity.
  - right. exists s. cbn [forallb] in Hex. rewrite !andb_true_iff in Hex. tauto.
Qed.

(** The paragraphs of the day. *)
Lemma day_items_text :
  unlines (List.map as_str (day_items d))
  = concat (List.map (fun q => q ++ [NL; NL]) (day_paragraphs d)).
Proof.
  unfold day_items, day_paragraphs, stats_paragraph, line_paragraphs, content_paragraph.
  rewrite !map_app, !unlines_app, !concat_app, <- ?app_assoc. unfold stat.
  destruct (nonempty _); destruct (truthy (get d (str "trails_waypoints")));
    destruct (truthy (get d (str "camp_lodging"))); destruct (truthy (get d (str "meals")));
    destruct (truthy (get d (str "content")));
    cbn [when]; unfold unlines; cbn [List.map concat as_str L];
    rewrite <- ?app_assoc; reflexivity.
Qed.

Lemma day_items_is_str : Forall is_str (day_items d).
Proof.
  unfold day_items.
  repeat first [ apply Forall_app_2 | apply Forall_when; intros ?
               | apply Forall_cons_2 | apply Forall_nil_2
               | apply is_str_L | apply is_str_VStr ].
  destruct content_cases as [[Hf _] | (s & -> & _)]; [congruence | apply is_str_VStr].
Qed.

Lemma stats_single :
  truthy (get d (str "miles")) = false \/ truthy (get d (str "elevation")) = false ->
  stats_paragraph d = stat "Miles" (get d (str "miles")) ++ stat "Elevation" (get d (str "elevation")).
Proof.
  unfold stats_paragraph, stat.
  destruct (truthy (get d (str "miles"))), (truthy (get d (str "elevation")));
    intros [H | H]; try discriminate H; reflexivity.
Qed.

Lemma stats_cases :
  (stats_paragraph d
   = stat "Miles" (get d (str "miles")) ++ stat "Elevation" (get d (str "elevation")))
  \/ exists m e,
       get d (str "miles") = VStr m /\ get d (str "elevation") = VStr e
       /\ stats_paragraph d = [both_stats m e]
       /\ (nonempty m = true /\ strip m = m
           /\ lacks 42 m = true /\ lacks 124 m = true /\ lacks NL m = true)
       /\ (nonempty e = true /\ strip e = e
           /\ lacks 42 e = true /\ lacks 124 e = true /\ lacks NL e = true).
Proof.
  destruct (plain_value_cases _ _ miles_plain) as [[Hf _] | (m & Hm & _ & Hmn & Hms & Hmx)].
  { left. apply stats_single. left. exact Hf. }
  destruct (plain_value_cases _ _ elevation_plain)
    as [[Hf _] | (e & He & _ & Hen & Hes & Hex)].
  { left. apply stats_single. right. exact Hf. }
  right. exists m, e. apply excluded_lacks in Hmx, Hex.
  repeat split; try tauto.
  unfold stats_paragraph. rewrite Hm, He, !stat_truthy by assumption.
  cbn [app nonempty join_bar]. unfold both_stats. rewrite <- ?app_assoc. reflexivity.
Qed.

Ltac plain_side :=
  first [ apply miles_plain | apply elevation_plain | apply route_plain
        | apply lodging_plain | apply meals_plain ].

Lemma content_foreign (c : N) (l : list N) :
  c = 42%N \/ c = 124%N ->
  Forall (fun p => quiet (c :: l) p = true) (content_paragraph d).
Proof.
  intros Hc. unfold content_paragraph.
  destruct content_cases as [[-> _] | (s & -> & _ & _ & _ & _ & H42 & H124)];
    [constructor|].
  cbn [truthy as_str]. destruct s as [|x s]; constructor; [|constructor].
  apply quiet_lacks. destruct Hc as [-> | ->]; assumption.
Qed.

(** The statistics line is skipped by the scan for a later label. *)
Lemma stats_foreign (c : N) (l : list N) :
  c = 42%N \/ c = 124%N ->
  quiet (c :: l) ((str "**" ++ str "Miles" ++ str ":**") ++ [32%N]) = true ->
  quiet (c :: l) ((str "**" ++ str "Elevation" ++ str ":**") ++ [32%N]) = true ->
  quiet (c :: l) (str " | ") = true ->
  Forall (fun p => quiet (c :: l) p = true) (stats_paragraph d).
Proof.
  intros Hc HM HE Hbar.
  destruct stats_cases as [-> | (m & e & _ & _ & -> & Hm & He)].
  - apply Forall_app_2; apply foreign_stat; auto; plain_side.
  - constructor; [|constructor]. unfold both_stats.
    replace ((str "**" ++ str "Miles" ++ str ":**") ++ 32%N :: m ++ str " | "
             ++ (str "**" ++ str "Elevation" ++ str ":**") ++ 32%N :: e)
      with (((str "**" ++ str "Miles" ++ str ":**") ++ [32%N]) ++ m ++ str " | "
            ++ ((str "**" ++ str "Elevation" ++ str ":**") ++ [32%N]) ++ e) by text_eq.
    apply quiet_app; [exact HM|].
    apply quiet_app; [apply quiet_lacks; destruct Hc as [-> | ->]; tauto|].
    apply quiet_app; [exact Hbar|].
    apply quiet_app; [exact HE|].
    apply quiet_lacks; destruct Hc as [-> | ->]; tauto.
Qed.

Ltac foreign :=
  repeat first
    [ apply Forall_nil_2
    | apply Forall_app_2
    | apply foreign_blank
    | assumption
    | (apply foreign_lacks; assumption)
    | (apply content_foreign; left; reflexivity)
    | (apply stats_foreign; [left; reflexivity | reflexivity ..])
    | match goal with
      | |- Forall (fun p => quiet (str "**" ++ str ?lab ++ str ":**") p = true) (stat ?l2 ?v) =>
          apply (foreign_stat 42%N (42%N :: str lab ++ str ":**") l2 v);
          [left; reflexivity | reflexivity | plain_side]
      end ].

Lemma day_paragraphs_stripped :
  Forall (fun p => strip p = p /\ nonempty p = true) (day_paragraphs d).
Proof.
  unfold day_paragraphs, line_paragraphs. repeat apply Forall_app_2.
  - destruct stats_cases as [-> | (m & e & _ & _ & -> & Hm & He)].
    + apply Forall_app_2; apply stat_stripped; plain_side.
    + constructor; [|constructor]. split; [|reflexivity]. unfold both_stats.
      replace ((str "**" ++ str "Miles" ++ str ":**") ++ 32%N :: m ++ str " | "
               ++ (str "**" ++ str "Elevation" ++ str ":**") ++ 32%N :: e)
        with (((str "**" ++ str "Miles" ++ str ":**") ++ 32%N :: m ++ str " | "
               ++ (str "**" ++ str "Elevation" ++ str ":**") ++ [32%N]) ++ e) by text_eq.
      apply (strip_prefixed _ e 42%N
               ((42%N :: str "Miles" ++ str ":**") ++ 32%N :: m ++ str " | "
                ++ (str "**" ++ str "Elevation" ++ str ":**") ++ [32%N]));
        [reflexivity | reflexivity | tauto | tauto].
  - apply stat_stripped; plain_side.
  - apply stat_stripped; plain_side.
  - apply stat_stripped; plain_side.
  - unfold content_paragraph.
    destruct content_cases as [[-> _] | (s & -> & Ht & Hn & Hs & _)]; [constructor|].
    rewrite Ht. cbn [as_str]. constructor; [tauto | constructor].
Qed.

Lemma day_content_text :
  strip (NL :: NL :: unlines (List.map as_str (day_items d))) = sep_join (day_paragraphs d).
Proof. rewrite day_items_text. apply strip_paragraphs. apply day_paragraphs_stripped. Qed.

(** What the parser captures for each label. *)
Lemma capture_miles (C : list (list N)) (acc : dict) :
  Forall (fun p => quiet (str "**" ++ str "Miles" ++ str ":**") p = true) C ->
  capture "miles" (stat_pattern "Miles") (sep_join (stats_paragraph d ++ C)) acc
  = match get d (str "miles") with
    | VStr s => if nonempty s then <[str "miles" := VStr s]> acc else acc
    | _ => acc
    end.
Proof.
  intros HC. destruct stats_cases as [-> | (m & e & -> & _ & -> & Hm & He)].
  - apply (capture_slot_at "miles" "Miles" not_nl_bar []
             (stat "Elevation" (get d (str "elevation")) ++ C));
      [reflexivity | exact not_nl_bar_value | foreign | foreign | plain_side | text_eq].
  - destruct Hm as (Hn & Hs & Hm42 & Hm124 & HmNL). rewrite Hn.
    destruct (strip_shape m Hs) as [-> | [(h & m' & Hhead & Hh) _]]; [discriminate|].
    unfold capture. cbn [app]. rewrite sep_join_cons.
    assert (E : search (stat_pattern "Miles") (both_stats m e ++ sep_tail C)
                = Some (<[1 := m ++ [32%N]]> ∅)).
    { replace (both_stats m e ++ sep_tail C)
        with ([] ++ (str "**" ++ str "Miles" ++ str ":**") ++ 32%N :: (m ++ [32%N])
              ++ (124%N :: 32%N :: (str "**" ++ str "Elevation" ++ str ":**") ++ 32%N :: e
                  ++ sep_tail C))
        by (unfold both_stats; text_eq).
      apply (search_label _ 42%N (42%N :: str "Miles" ++ str ":**") not_nl_bar []
               (m ++ [32%N]) _ h (m' ++ [32%N])).
      - reflexivity.
      - reflexivity.
      - rewrite Hhead. reflexivity.
      - exact Hh.
      - apply forallb_all_app; [apply not_nl_bar_value; assumption | reflexivity].
      - right. eexists _, _. split; reflexivity. }
    rewrite E, group_1_single.
    replace (strip (m ++ [32%N])) with m; [reflexivity|].
    symmetry. apply (strip_padded [] m [32%N]); [reflexivity | reflexivity | exact Hs].
Qed.

Lemma capture_elevation (C : list (list N)) (acc : dict) :
  Forall (fun p => quiet (str "**" ++ str "Elevation" ++ str ":**") p = true) C ->
  capture "elevation" (stat_pattern "Elevation") (sep_join (stats_paragraph d ++ C)) acc
  = match get d (str "elevation") with
    | VStr s => if nonempty s then <[str "elevation" := VStr s]> acc else acc
    | _ => acc
    end.
Proof.
  intros HC. destruct stats_cases as [-> | (m & e & _ & -> & -> & Hm & He)].
  - apply (capture_slot_at "elevation" "Elevation" not_nl_bar
             (stat "Miles" (get d (str "miles"))) C);
      [reflexivity | exact not_nl_bar_value | foreign | foreign | plain_side | text_eq].
  - destruct He as (Hn & Hs & He42 & He124 & HeNL). rewrite Hn.
    destruct (strip_shape e Hs) as [-> | [(h & e' & Hhead & Hh) _]]; [discriminate|].
    unfold capture. cbn [app]. rewrite sep_join_cons.
    assert (E : search (stat_pattern "Elevation") (both_stats m e ++ sep_tail C)
                = Some (<[1 := e]> ∅)).
    { replace (both_stats m e ++ sep_tail C)
        with ((((str "**" ++ str "Miles" ++ str ":**") ++ [32%N]) ++ m ++ str " | ")
              ++ (str "**" ++ str "Elevation" ++ str ":**") ++ 32%N :: e ++ sep_tail C)
        by (unfold both_stats; text_eq).
      apply (search_label _ 42%N (42%N :: str "Elevation" ++ str ":**") not_nl_bar _
               e _ h e').
      - reflexivity.
      - apply quiet_app; [reflexivity|].
        apply quiet_app; [apply quiet_lacks; tauto | reflexivity].
      - exact Hhead.
      - exact Hh.
      - apply not_nl_bar_value; assumption.
      - apply sep_tail_head. reflexivity. }
    rewrite E, group_1_single, Hs. reflexivity.
Qed.

Lemma capture_route (acc : dict) :
  capture "trails_waypoints" (line_pattern "Route") (sep_join (day_paragraphs d)) acc
  = match get d (str "trails_waypoints") with
    | VStr s => if nonempty s then <[str "trails_waypoints" := VStr s]> acc else acc
    | _ => acc
    end.
Proof.
  apply (capture_slot_at "trails_waypoints" "Route" dot (stats_paragraph d)
           (stat "Lodging" (get d (str "camp_lodging")) ++ stat "Meals" (get d (str "meals"))
            ++ content_paragraph d));
    [reflexivity | exact dot_value | foreign | foreign | plain_side
    | unfold day_paragraphs, line_paragraphs; text_eq].
Qed.

Lemma capture_lodging (acc : dict) :
  capture "camp_lodging" (line_pattern "Lodging") (sep_join (day_paragraphs d)) acc
  = match get d (str "camp_lodging") with
    | VStr s => if nonempty s then <[str "camp_lodging" := VStr s]> acc else acc
    | _ => acc
    end.
Proof.
  apply (capture_slot_at "camp_lodging" "Lodging" dot
           (stats_paragraph d ++ stat "Route" (get d (str "trails_waypoints")))
           (stat "Meals" (get d (str "meals")) ++ content_paragraph d));
    [reflexivity | exact dot_value | foreign | foreign | plain_side
    | unfold day_paragraphs, line_paragraphs; text_eq].
Qed.

Lemma capture_meals (acc : dict) :
  capture "meals" (line_pattern "Meals") (sep_join (day_paragraphs d)) acc
  = match get d (str "meals") with
    | VStr s => if nonempty s then <[str "meals" := VStr s]> acc else acc
    | _ => acc
    end.
Proof.
  apply (capture_slot_at "meals" "Meals" dot
           (stats_paragraph d ++ stat "Route" (get d (str "trails_waypoints"))
            ++ stat "Lodging" (get d (str "camp_lodging")))
           (content_paragraph d));
    [reflexivity | exact dot_value | foreign | foreign | plain_side
    | unfold day_paragraphs, line_paragraphs; text_eq].
Qed.

(** What is left once the labelled lines are removed. *)
Lemma remove_stats (C : list (list N)) :
  Forall (fun p => quiet (str "**" ++ str "Miles" ++ str ":**") p = true) C ->
  Forall (fun p => quiet (str "**" ++ str "Elevation" ++ str ":**") p = true) C ->
  exists S,
    re_sub (stat_removal "Elevation")
      (re_sub (stat_removal "Miles") (sep_join (stats_paragraph d ++ C)))
    = sep_join (S ++ C)
    /\ (S = [str "| "] \/ Forall (fun p => p = []) S).
Proof.
  intros HM HE. destruct stats_cases as [-> | (m & e & _ & _ & -> & Hm & He)].
  - exists (blank_of (stat "Miles" (get d (str "miles")))
            ++ blank_of (stat "Elevation" (get d (str "elevation")))).
    split.
    + rewrite (remove_slot_at "Miles" not_nl_bar []
                 (stat "Elevation" (get d (str "elevation")) ++ C) (get d (str "miles")));
        [| reflexivity | reflexivity | exact not_nl_bar_value | foreign | foreign
         | plain_side | text_eq ].
      rewrite (remove_slot_at "Elevation" not_nl_bar
                 (blank_of (stat "Miles" (get d (str "miles")))) C
                 (get d (str "elevation")));
        [| reflexivity | reflexivity | exact not_nl_bar_value | foreign | foreign
         | plain_side | text_eq ].
      f_equal. text_eq.
    + right. apply Forall_app_2; unfold blank_of; apply Forall_map;
        apply Forall_forall; intros; reflexivity.
  - exists [str "| "]. split; [|left; reflexivity].
    destruct Hm as (Hmn & Hms & Hm42 & Hm124 & HmNL).
    destruct He as (Hen & Hes & He42 & He124 & HeNL).
    cbn [app]. rewrite !sep_join_cons.
    assert (E1 : re_sub (stat_removal "Miles") (both_stats m e ++ sep_tail C)
                 = [] ++ (str "| " ++ ((str "**" ++ str "Elevation" ++ str ":**") ++ [32%N])
                          ++ e ++ sep_tail C)).
    { replace (both_stats m e ++ sep_tail C)
        with ([] ++ (str "**" ++ str "Miles" ++ str ":**") ++ (32%N :: m ++ [32%N])
              ++ (str "| " ++ ((str "**" ++ str "Elevation" ++ str ":**") ++ [32%N])
                  ++ e ++ sep_tail C))
        by (unfold both_stats; text_eq).
      apply (sub_label _ 42%N (42%N :: str "Miles" ++ str ":**") not_nl_bar).
      - reflexivity.
      - reflexivity.
      - apply quiet_app; [reflexivity|]. apply quiet_app; [reflexivity|].
        apply quiet_app; [apply quiet_lacks; exact He42|].
        apply (quiet_sep_tail _ (lit_line "Miles")). exact HM.
      - cbn [forallb]. apply forallb_all_app; [|reflexivity].
        apply not_nl_bar_value; assumption.
      - cbn [length]. lia.
      - right. eexists _, _. split; reflexivity. }
    rewrite E1. cbn [app].
    replace (str "| " ++ ((str "**" ++ str "Elevation" ++ str ":**") ++ [32%N])
             ++ e ++ sep_tail C)
      with (str "| " ++ (str "**" ++ str "Elevation" ++ str ":**") ++ (32%N :: e)
            ++ sep_tail C) by text_eq.
    apply (sub_label _ 42%N (42%N :: str "Elevation" ++ str ":**") not_nl_bar).
    + reflexivity.
    + reflexivity.
    + apply (quiet_sep_tail _ (lit_line "Elevation")). exact HE.
    + cbn [forallb]. apply not_nl_bar_value; assumption.
    + cbn [length]. lia.
    + apply sep_tail_head. reflexivity.
Qed.

Lemma remove_lines (S : list (list N)) :
  Forall (fun p => lacks 42 p = true) S ->
  re_sub (line_removal "Meals")
    (re_sub (line_removal "Lodging")
       (re_sub (line_removal "Route")
          (sep_join (S ++ line_paragraphs d ++ content_paragraph d))))
  = sep_join (S ++ blank_of (line_paragraphs d) ++ content_paragraph d).
Proof.
  intros HS. unfold line_paragraphs.
  rewrite (remove_slot_at "Route" dot S
             (stat "Lodging" (get d (str "camp_lodging")) ++ stat "Meals" (get d (str "meals"))
              ++ content_paragraph d) (get d (str "trails_waypoints")));
    [| reflexivity | reflexivity | exact dot_value | foreign | foreign
     | plain_side | text_eq ].
  rewrite (remove_slot_at "Lodging" dot
             (S ++ blank_of (stat "Route" (get d (str "trails_waypoints"))))
             (stat "Meals" (get d (str "meals")) ++ content_paragraph d)
             (get d (str "camp_lodging")));
    [| reflexivity | reflexivity | exact dot_value | foreign | foreign
     | plain_side | text_eq ].
  rewrite (remove_slot_at "Meals" dot
             ((S ++ blank_of (stat "Route" (get d (str "trails_waypoints"))))
              ++ blank_of (stat "Lodging" (get d (str "camp_lodging"))))
             (content_paragraph d) (get d (str "meals")));
    [| reflexivity | reflexivity | exact dot_value | foreign | foreign
     | plain_side | text_eq ].
  f_equal. rewrite !blank_of_app. text_eq.
Qed.

Lemma strip_blank_content (W : list (list N)) :
  Forall (fun w => forallb is_space w = true) W ->
  strip (sep_join (W ++ content_paragraph d)) = as_str (get d (str "content")).
Proof.
  intros HW. unfold content_paragraph.
  destruct content_cases as [[Hf Hs] | (s & Hs & Ht & Hn & Hstrip & _)].
  - rewrite Hf, Hs, app_nil_r. apply strip_blank. apply sep_join_blank. exact HW.
  - rewrite Ht, Hs. cbn [as_str]. apply strip_after_blanks; assumption.
Qed.

Lemma remove_bar (S X : list (list N)) :
  S = [str "| "] \/ Forall (fun p => p = []) S ->
  strip (re_sub [Lit (str "|")] (sep_join (S ++ blank_of X ++ content_paragraph d)))
  = as_str (get d (str "content")).
Proof.
  intros [-> | HS].
  - cbn [app]. rewrite sep_join_cons. unfold re_sub.
    rewrite (sub_match_at _ _ (str "|") (32%N :: sep_tail (blank_of X ++ content_paragraph d)) ∅);
      [| reflexivity | discriminate | reflexivity].
    fold (re_sub [Lit (str "|")] (32%N :: sep_tail (blank_of X ++ content_paragraph d))).
    rewrite (sub_absent (str "|") 124%N []); [| reflexivity |].
    + change (32%N :: sep_tail (blank_of X ++ content_paragraph d))
        with ([32%N] ++ sep_tail (blank_of X ++ content_paragraph d)).
      rewrite <- (sep_join_cons [32%N]).
      apply (strip_blank_content ([32%N] :: blank_of X)).
      constructor; [reflexivity | apply blank_is_space].
    + change (32%N :: sep_tail (blank_of X ++ content_paragraph d))
        with ([32%N] ++ sep_tail (blank_of X ++ content_paragraph d)).
      apply quiet_app; [reflexivity|].
      apply quiet_sep_tail; [reflexivity|].
      apply Forall_app_2; [apply foreign_blank | apply content_foreign; right; reflexivity].
  - rewrite (sub_absent (str "|") 124%N []); [| reflexivity |].
    + rewrite app_assoc. apply strip_blank_content.
      apply Forall_app_2; [|apply blank_is_space].
      eapply Forall_impl; [|exact HS]. intros p ->. reflexivity.
    + apply quiet_sep_join; [reflexivity|].
      apply Forall_app_2; [|apply Forall_app_2].
      * eapply Forall_impl; [|exact HS]. intros p ->. reflexivity.
      * apply foreign_blank.
      * apply content_foreign. right. reflexivity.
Qed.

Lemma remaining_content :
  strip (fold_left (fun rem p => re_sub p rem) removal_patterns (sep_join (day_paragraphs d)))
  = as_str (get d (str "content")).
Proof.
  unfold removal_patterns. cbn [fold_left]. unfold day_paragraphs.
  destruct (remove_stats (line_paragraphs d ++ content_paragraph d)) as (S & -> & HS).
  - unfold line_paragraphs. foreign.
  - unfold line_paragraphs. foreign.
  - rewrite remove_lines.
    + apply remove_bar. exact HS.
    + destruct HS as [-> | HS]; [repeat constructor|].
      eapply Forall_impl; [|exact HS]. intros p ->. reflexivity.
Qed.

(** A parse of the rendered day gives the day back. *)
Lemma parse_rendered_day (uni_decimal : N -> option N) (n : Z) :
  d !! str "day_number" = Some (VInt n) -> (0 <= n)%Z ->
  int_digits_ok (str_of_Z n) = true ->
  parse_day uni_decimal
    (<[2 := strip (NL :: NL :: unlines (List.map as_str (day_items d)))]>
       (<[1 := str_of_Z n]> ∅))
  = Ok (restored_day d).
Proof.
  intros Hday Hn Hlen. unfold parse_day.
  rewrite group_1, group_2, strip_idem, day_content_text.
  assert (Hnum : py_int uni_decimal (str_of_Z n) = Ok n).
  { replace (str_of_Z n) with (str_of_N (Z.to_N n)) in *
      by (destruct n; [reflexivity..|lia]).
    rewrite py_int_str_of_N, Z2N.id by assumption. reflexivity. }
  rewrite Hnum. cbn [mbind result_bind].
  pose proof (capture_miles (line_paragraphs d ++ content_paragraph d)) as HM.
  pose proof (capture_elevation (line_paragraphs d ++ content_paragraph d)) as HE.
  change (stats_paragraph d ++ line_paragraphs d ++ content_paragraph d)
    with (day_paragraphs d) in HM, HE.
  rewrite remaining_content.
  rewrite !HM by (unfold line_paragraphs; foreign).
  rewrite !HE by (unfold line_paragraphs; foreign).
  rewrite !capture_route, !capture_lodging, !capture_meals.
  unfold restored_day, DAY_FIELDS. cbn [fold_left].
  assert (Hget : get d (str "day_number") = VInt n) by (unfold get; rewrite Hday; reflexivity).
  rewrite Hget. f_equal.
  destruct (get d (str "content")) as [|s| |]; reflexivity.
Qed.

End DayContent.


(** ** The sections of a document under the two scans *)

Section SectionFacts.

Variable tour : dict.
Hypothesis tour_ok : wf_tour tour.

Ltac tour_key := apply (bool_decide_unpack _); vm_compute; exact I.

(** The body of a block is a string without ['<']. *)
Lemma plain_body (ex : list N) (k : list N) (ph : string) :
  plain_value ex (get tour k) -> lacks 60 (str ph) = true ->
  exists b, py_or (get tour k) (L ph) = VStr b /\ lacks 60 b = true.
Proof.
  intros Hv Hph.
  destruct (plain_value_cases _ _ Hv) as [[Hf _] | (s & Hs & Ht & _)].
  - unfold py_or. rewrite Hf. exists (str ph). split; [reflexivity | exact Hph].
  - unfold py_or. rewrite Ht, Hs. exists s. split; [reflexivity|].
    apply (get_str_lacks tour (proj1 tour_ok) k). exact Hs.
Qed.

Lemma labeled_body (label : string) (k : list N) (ph : string) :
  lacks 60 (str label) = true -> lacks 60 (str ph) = true ->
  exists b, labeled label (get tour k) ph = VStr b /\ lacks 60 b = true.
Proof.
  intros Hl Hph. unfold labeled. eexists. split; [reflexivity|].
  rewrite !lacks_app, Hl. cbn [andb].
  change (lacks 60 (str "**")) with true. change (lacks 60 (str ":** ")) with true.
  cbn [andb]. unfold py_or. destruct (truthy (get tour k)).
  - apply get_lacks. exact (proj1 tour_ok).
  - exact Hph.
Qed.

Variable l : list N.
Variable l' : list N.
Hypothesis l_head : l = 60%N :: l'.

Lemma field_block_quiet (name : string) (body : value) (b : list N) :
  body = VStr b -> lacks 60 b = true ->
  quiet l (field_open (str name) ++ [NL]) = true ->
  quiet l (NL :: field_close (str name) ++ [NL; NL]) = true ->
  quiet l (unlines (List.map as_str (field_block name body))) = true.
Proof.
  intros -> Hb Ho Hc. rewrite field_block_text. unfold block_text.
  replace ((field_open (str name) ++ NL :: b ++ NL :: field_close (str name)) ++ [NL; NL])
    with ((field_open (str name) ++ [NL]) ++ b ++ (NL :: field_close (str name) ++ [NL; NL]))
    by text_eq.
  apply quiet_app; [exact Ho|]. apply quiet_app; [|exact Hc].
  rewrite l_head. apply quiet_lacks. exact Hb.
Qed.

End SectionFacts.

Section EditableSections.

Variable tour : dict.
Hypothesis tour_ok : wf_tour tour.

Ltac tour_key := apply (bool_decide_unpack _); vm_compute; exact I.

Ltac block_quiet E H :=
  eapply (field_block_quiet (str "<!-- ITINERARY_DAY:") _ eq_refl _ _ _ E H);
  reflexivity.

Ltac block_str E := rewrite E; apply is_str_VStr.

Lemma description_lines_ok :
  Forall is_str (description_lines tour)
  /\ quiet (str "<!-- ITINERARY_DAY:")
            (unlines (List.map as_str (description_lines tour))) = true.
Proof.
  destruct (plain_body tour tour_ok [] (str "short_description") "_No short description yet._")
    as (b1 & E1 & H1); [apply (proj1 (proj2 tour_ok)); tour_key | reflexivity |].
  destruct (plain_body tour tour_ok [] (str "description") "_No description yet._")
    as (b2 & E2 & H2); [apply (proj1 (proj2 tour_ok)); tour_key | reflexivity |].
  assert (H3 : truthy (get tour (str "special_notes")) = true ->
               exists b, get tour (str "special_notes") = VStr b /\ lacks 60 b = true).
  { intros Ht.
    assert (Hp : plain_value [] (get tour (str "special_notes")))
      by (apply (proj1 (proj2 tour_ok)); tour_key).
    destruct (plain_value_cases _ _ Hp) as [[Hf _] | (s & Hs & _)]; [congruence|].
    exists s. split; [exact Hs|]. apply (get_str_lacks tour (proj1 tour_ok) _ _ Hs). }
  unfold description_lines. split.
  - repeat first [ apply Forall_app_2 | apply Forall_cons_2 | apply Forall_nil_2
                 | apply is_str_L | apply is_str_VStr ].
    + block_str E1.
    + block_str E2.
    + apply Forall_when. intros Ht. destruct (H3 Ht) as (b3 & E3 & _).
      rewrite E3.
      apply Forall_app_2; [repeat constructor; apply is_str_L | apply field_block_is_str].
  - rewrite !map_app, !unlines_app.
    apply quiet_app; [reflexivity|]. apply quiet_app; [block_quiet E1 H1|].
    apply quiet_app; [reflexivity|]. apply quiet_app; [block_quiet E2 H2|].
    destruct (truthy (get tour (str "special_notes"))) eqn:Ht; [|reflexivity].
    destruct (H3 eq_refl) as (b3 & E3 & Hb3). cbn [when].
    rewrite !map_app, !unlines_app.
    apply quiet_app; [reflexivity | block_quiet E3 Hb3].
Qed.

Lemma trip_details_lines_ok :
  Forall is_str (trip_details_lines tour)
  /\ quiet (str "<!-- ITINERARY_DAY:")
            (unlines (List.map as_str (trip_details_lines tour))) = true.
Proof.
  destruct (labeled_body tour tour_ok "Time" (str "meeting_time") "_Not specified_")
    as (b1 & E1 & H1); [reflexivity | reflexivity |].
  destruct (labeled_body tour tour_ok "Location" (str "meeting_location") "_Not specified_")
    as (b2 & E2 & H2); [reflexivity | reflexivity |].
  destruct (labeled_body tour tour_ok "Tour Rating" (str "tour_rating") "_Not specified_")
    as (b3 & E3 & H3); [reflexivity | reflexivity |].
  destruct (labeled_body tour tour_ok "Terrain" (str "terrain") "_Not specified_")
    as (b4 & E4 & H4); [reflexivity | reflexivity |].
  destruct (labeled_body tour tour_ok "Technical Difficulty" (str "technical_difficulty")
              "_Not specified_")
    as (b5 & E5 & H5); [reflexivity | reflexivity |].
  destruct (labeled_body tour tour_ok "Altitude" (str "altitude") "_Not specified_")
    as (b6 & E6 & H6); [reflexivity | reflexivity |].
  unfold trip_details_lines. split.
  - repeat first [ apply Forall_app_2 | apply Forall_cons_2 | apply Forall_nil_2
                 | apply is_str_L | apply is_str_VStr ].
  - rewrite !map_app, !unlines_app.
    apply quiet_app; [reflexivity|]. apply quiet_app; [block_quiet E1 H1|].
    apply quiet_app; [block_quiet E2 H2|].
    apply quiet_app; [reflexivity|]. apply quiet_app; [block_quiet E3 H3|].
    apply quiet_app; [block_quiet E4 H4|]. apply quiet_app; [block_quiet E5 H5|].
    block_quiet E6 H6.
Qed.

End EditableSections.


(** ** The itinerary of a document under the two scans *)

Lemma lacks_concat (c : N) (ps : list (list N)) :
  Forall (fun p => lacks c p = true) ps -> lacks c (concat ps) = true.
Proof.
  induction 1 as [|p ps Hp _ IH]; [reflexivity|].
  cbn [concat]. rewrite lacks_app, Hp, IH. reflexivity.
Qed.

Lemma stat_lacks (label : string) (v : value) :
  lacks 60 (str label) = true ->
  plain_value [60%N; 42%N; 124%N; NL] v ->
  Forall (fun p => lacks 60 p = true) (stat label v).
Proof.
  intros Hl Hv.
  destruct (plain_value_cases _ _ Hv) as [[Hf _] | (s & -> & Ht & Hn & Hstrip & Hex)].
  - rewrite stat_falsy by exact Hf. constructor.
  - rewrite stat_truthy by exact Hn. constructor; [|constructor].
    apply excluded_lacks in Hex. rewrite !lacks_app, lacks_cons, Hl.
    destruct Hex as (-> & _). reflexivity.
Qed.

Lemma plain_lacks (v : value) (s : list N) :
  plain_value [60%N; 42%N; 124%N; NL] v -> v = VStr s -> lacks 60 s = true.
Proof.
  intros [-> | (s' & -> & [-> | [_ Hex]])] [= <-]; [reflexivity|].
  apply excluded_lacks in Hex. tauto.
Qed.

Section RenderedDay.

Variable uni_decimal : N -> option N.
Variable d : dict.
Hypothesis d_ok : wf_day d.

Lemma day_number_value :
  exists n, d !! str "day_number" = Some (VInt n) /\ (0 <= n)%Z
            /\ get d (str "day_number") = VInt n
            /\ subscript d (str "day_number") = Ok (VInt n)
            /\ int_digits_ok (str_of_Z n) = true.
Proof.
  destruct (proj1 d_ok) as (n & Hn & Hle & Hlen). exists n.
  unfold get, subscript. rewrite Hn. auto.
Qed.

Lemma day_paragraphs_lack : Forall (fun p => lacks 60 p = true) (day_paragraphs d).
Proof.
  unfold day_paragraphs, line_paragraphs. repeat apply Forall_app_2.
  - destruct (stats_cases d d_ok) as [-> | (m & e & Hm & He & -> & _)].
    + apply Forall_app_2; apply stat_lacks;
        first [reflexivity | apply miles_plain | apply elevation_plain]; exact d_ok.
    + constructor; [|constructor]. unfold both_stats.
      repeat (progress (rewrite ?lacks_app, ?lacks_cons)).
      rewrite (plain_lacks _ m (miles_plain d d_ok) Hm).
      rewrite (plain_lacks _ e (elevation_plain d d_ok) He).
      reflexivity.
  - apply stat_lacks; [reflexivity | apply route_plain; exact d_ok].
  - apply stat_lacks; [reflexivity | apply lodging_plain; exact d_ok].
  - apply stat_lacks; [reflexivity | apply meals_plain; exact d_ok].
  - unfold content_paragraph.
    destruct (content_cases d d_ok) as [[-> _] | (s & -> & Ht & _ & _ & H60 & _)];
      [constructor|].
    rewrite Ht. constructor; [exact H60 | constructor].
Qed.

Lemma day_items_lacks : lacks 60 (unlines (List.map as_str (day_items d))) = true.
Proof.
  rewrite (day_items_text d). apply lacks_concat. apply Forall_map.
  eapply Forall_impl; [|exact day_paragraphs_lack].
  intros p Hp. cbn beta. rewrite lacks_app, Hp. reflexivity.
Qed.

Lemma rendered_day_is_str : Forall is_str (rendered_day d).
Proof.
  unfold rendered_day.
  repeat first [ apply (day_items_is_str d d_ok) | apply Forall_app_2
               | apply Forall_cons_2 | apply Forall_nil_2
               | apply is_str_L | apply is_str_VStr ].
Qed.

Lemma day_block_rendered : day_block d = Ok (rendered_day d).
Proof.
  destruct day_number_value as (n & _ & _ & Hget & Hsub & _).
  rewrite day_block_items, Hsub. unfold rendered_day. rewrite Hget. reflexivity.
Qed.

(** The text of the day: its heading, and the block between the markers. *)
Lemma rendered_day_text (n : Z) :
  get d (str "day_number") = VInt n ->
  unlines (List.map as_str (rendered_day d))
  = (str "### Day " ++ str_of_Z n ++ [NL])
    ++ (str "<!-- ITINERARY_DAY:" ++ str_of_Z n ++ str " -->"
        ++ (NL :: NL :: unlines (List.map as_str (day_items d)))
        ++ str "<!-- /ITINERARY_DAY:" ++ str_of_Z n ++ str " -->")
    ++ [NL; NL].
Proof.
  intros Hget. unfold rendered_day. rewrite Hget, !map_app, !unlines_app.
  unfold unlines at 1 3. cbn [List.map concat as_str L fmt]. text_eq.
Qed.

Lemma str_of_Z_digits (n : Z) :
  (0 <= n)%Z ->
  forallb ascii_digit (str_of_Z n) = true /\ nonempty (str_of_Z n) = true.
Proof.
  intros Hn.
  replace (str_of_Z n) with (str_of_N (Z.to_N n)) by (destruct n; [reflexivity..|lia]).
  split; [apply str_of_N_digits | apply str_of_N_nonempty].
Qed.

Lemma rendered_day_quiet_field :
  quiet (str "<!-- FIELD:") (unlines (List.map as_str (rendered_day d))) = true.
Proof.
  destruct day_number_value as (n & _ & Hn & Hget & _).
  rewrite (rendered_day_text n Hget).
  destruct (str_of_Z_digits n Hn) as [Hd _].
  assert (Hl : lacks 60 (str_of_Z n) = true) by (apply digits_lack; [reflexivity | exact Hd]).
  apply quiet_app; [apply (quiet_lacks 60%N); rewrite !lacks_app, Hl; reflexivity|].
  apply quiet_app; [|reflexivity].
  apply quiet_app; [reflexivity|].
  apply quiet_app; [apply (quiet_lacks 60%N); exact Hl|].
  apply quiet_app; [reflexivity|].
  apply quiet_app.
  { change (NL :: NL :: unlines (List.map as_str (day_items d)))
      with ([NL; NL] ++ unlines (List.map as_str (day_items d))).
    apply quiet_app; [reflexivity|]. apply (quiet_lacks 60%N). exact day_items_lacks. }
  apply quiet_app; [reflexivity|].
  apply quiet_app; [apply (quiet_lacks 60%N); exact Hl | reflexivity].
Qed.

(** The scan for days finds the day and goes on after it. *)
Lemma finditer_rendered_day (rest : list N) :
  exists n,
    d !! str "day_number" = Some (VInt n) /\ (0 <= n)%Z
    /\ int_digits_ok (str_of_Z n) = true
    /\ finditer_from (day_pattern uni_decimal) 0
         (unlines (List.map as_str (rendered_day d)) ++ rest)
       = <[2 := strip (NL :: NL :: unlines (List.map as_str (day_items d)))]>
           (<[1 := str_of_Z n]> ∅)
         :: finditer_from (day_pattern uni_decimal) 0 rest.
Proof.
  destruct day_number_value as (n & Hday & Hn & Hget & _ & Hlen).
  exists n. split; [exact Hday|]. split; [exact Hn|]. split; [exact Hlen|].
  rewrite (rendered_day_text n Hget).
  destruct (str_of_Z_digits n Hn) as [Hd Hne].
  assert (Hl : lacks 60 (str_of_Z n) = true) by (apply digits_lack; [reflexivity | exact Hd]).
  unfold day_pattern.
  rewrite <- (app_assoc (str "### Day " ++ str_of_Z n ++ [NL])).
  rewrite finditer_quiet
    by (apply (quiet_lacks 60%N); rewrite !lacks_app, Hl; reflexivity).
  rewrite <- app_assoc.
  rewrite (finditer_match_at _ _
             (str "<!-- ITINERARY_DAY:" ++ str_of_Z n ++ str " -->"
              ++ (NL :: NL :: unlines (List.map as_str (day_items d)))
              ++ str "<!-- /ITINERARY_DAY:" ++ str_of_Z n ++ str " -->")
             ([NL; NL] ++ rest)
             (<[2 := strip (NL :: NL :: unlines (List.map as_str (day_items d)))]>
                (<[1 := str_of_Z n]> ∅))).
  - rewrite finditer_quiet by reflexivity. reflexivity.
  - reflexivity.
  - discriminate.
  - replace ((str "<!-- ITINERARY_DAY:" ++ str_of_Z n ++ str " -->"
              ++ (NL :: NL :: unlines (List.map as_str (day_items d)))
              ++ str "<!-- /ITINERARY_DAY:" ++ str_of_Z n ++ str " -->") ++ [NL; NL] ++ rest)
      with (str "<!-- ITINERARY_DAY:" ++ str_of_Z n ++ str " -->"
            ++ (NL :: NL :: unlines (List.map as_str (day_items d)))
            ++ (60%N :: str "!-- /ITINERARY_DAY:") ++ str_of_Z n ++ str " -->"
            ++ [NL; NL] ++ rest)
      by (rewrite <- !app_assoc; reflexivity).
    apply (rmatch_block (str "<!-- ITINERARY_DAY:") (str "!-- /ITINERARY_DAY:") (str " -->")
             (is_digit uni_decimal) (str_of_Z n)
             (NL :: NL :: unlines (List.map as_str (day_items d))) ([NL; NL] ++ rest)
             32%N (str "-->")).
    + reflexivity.
    + reflexivity.
    + apply is_digit_ascii. exact Hd.
    + destruct (str_of_Z n); [discriminate Hne | cbn [length]; lia].
    + cbn [lacks forallb]. exact day_items_lacks.
Qed.

End RenderedDay.

(** The days of a list, rendered one after the other. *)
Lemma mapM_day_block (days : list dict) :
  Forall wf_day days -> mapM day_block days = Ok (List.map rendered_day days).
Proof.
  induction 1 as [|d days Hd _ IH]; [reflexivity|].
  cbn [mapM List.map]. rewrite (day_block_rendered d Hd). cbn [mbind result_bind].
  rewrite IH. reflexivity.
Qed.

Lemma rendered_days_is_str (days : list dict) :
  Forall wf_day days -> Forall is_str (concat (List.map rendered_day days)).
Proof.
  induction 1 as [|d days Hd _ IH]; [constructor|].
  cbn [List.map concat]. apply Forall_app_2; [apply rendered_day_is_str; exact Hd | exact IH].
Qed.

Lemma rendered_days_quiet_field (days : list dict) :
  Forall wf_day days ->
  quiet (str "<!-- FIELD:") (unlines (List.map as_str (concat (List.map rendered_day days))))
  = true.
Proof.
  induction 1 as [|d days Hd _ IH]; [reflexivity|].
  cbn [List.map concat]. rewrite map_app, unlines_app.
  apply quiet_app; [apply rendered_day_quiet_field; exact Hd | exact IH].
Qed.

Lemma parse_rendered_days (uni_decimal : N -> option N) (days : list dict) (rest : list N) :
  Forall wf_day days ->
  quiet (str "<!-- ITINERARY_DAY:") rest = true ->
  mapM (parse_day uni_decimal)
    (finditer_from (day_pattern uni_decimal) 0
       (unlines (List.map as_str (concat (List.map rendered_day days))) ++ rest))
  = Ok (restored_day <$> days).
Proof.
  intros Hdays Hrest. induction Hdays as [|d days Hd _ IH].
  - cbn [List.map concat unlines app]. unfold day_pattern.
    rewrite <- (app_nil_r rest), finditer_quiet by exact Hrest. reflexivity.
  - cbn [List.map concat]. rewrite map_app, unlines_app, <- app_assoc.
    destruct (finditer_rendered_day uni_decimal d Hd
                (unlines (List.map as_str (concat (List.map rendered_day days))) ++ rest))
      as (n & Hday & Hn & Hlen & ->).
    cbn [mapM]. rewrite (parse_rendered_day d Hd uni_decimal n Hday Hn Hlen).
    cbn [mbind result_bind]. rewrite IH. reflexivity.
Qed.


(** ** Generating a document and parsing it back *)

Section RoundTrip.

Variable str_title : list N -> list N.
Variable uni_alnum : N -> bool.
Variable uni_decimal : N -> option N.
Hypothesis str_title_lacks : forall s, lacks 60 s = true -> lacks 60 (str_title s) = true.

Variable tour : dict.
Variable days : list dict.
Variable pricing : list (list N * value * value).
Variable fees : list (list N * value).
Variable now : datetime.
Variable title : value.

Hypothesis tour_title : tour !! str "title" = Some title.
Hypothesis tour_ok : wf_tour tour.
Hypothesis days_ok : Forall wf_day days.
Hypothesis pricing_ok : wf_pricing pricing fees.

Local Abbreviation read_only_text :=
  (unlines (List.map as_str (read_only_lines str_title tour title pricing fees))).
Local Abbreviation description_text := (unlines (List.map as_str (description_lines tour))).
Local Abbreviation trip_details_text := (unlines (List.map as_str (trip_details_lines tour))).
Local Abbreviation itinerary_text :=
  (unlines (List.map as_str (itinerary_lines (List.map rendered_day days)))).
Local Abbreviation footer_text :=
  (unlines (List.map as_str [L "---"; L "*This document is synced with the RimTours database.*"])
   ++ str "*Last sync: " ++ strftime now ++ str "*").

Lemma title_lacks : lacks 60 (fmt title) = true.
Proof. exact (proj1 tour_ok _ _ tour_title). Qed.

Lemma read_only_ok :
  Forall is_str (read_only_lines str_title tour title pricing fees)
  /\ lacks 60 read_only_text = true.
Proof.
  apply clean_Forall.
  apply (read_only_lines_clean str_title str_title_lacks tour (proj1 tour_ok));
    [exact title_lacks | exact pricing_ok].
Qed.

Lemma itinerary_is_str : Forall is_str (itinerary_lines (List.map rendered_day days)).
Proof.
  unfold itinerary_lines. apply Forall_when. intros _.
  apply Forall_app_2; [|apply rendered_days_is_str; exact days_ok].
  repeat constructor; first [apply is_str_L | apply is_str_VStr].
Qed.

Lemma footer_lacks : lacks 60 footer_text = true.
Proof.
  rewrite !lacks_app, strftime_lacks. reflexivity.
Qed.

(** The document is the text of its sections, one after the other. *)
Lemma generated_text :
  generate_tour_document str_title tour days pricing fees now
  = Ok (read_only_text ++ description_text ++ trip_details_text ++ itinerary_text
        ++ footer_text).
Proof.
  unfold generate_tour_document, subscript. rewrite tour_title. cbn [mbind result_bind].
  rewrite (mapM_day_block days days_ok). cbn [mbind result_bind].
  rewrite tour_document_lines_parts.
  rewrite py_join_str.
  2:{ apply Forall_app_2; [exact (proj1 read_only_ok)|].
      apply Forall_app_2; [exact (proj1 (description_lines_ok tour tour_ok))|].
      apply Forall_app_2; [exact (proj1 (trip_details_lines_ok tour tour_ok))|].
      apply Forall_app_2; [exact itinerary_is_str|].
      repeat constructor; first [apply is_str_L | apply is_str_VStr]. }
  f_equal. unfold footer_lines.
  replace (read_only_lines str_title tour title pricing fees ++ description_lines tour
           ++ trip_details_lines tour ++ itinerary_lines (List.map rendered_day days)
           ++ [L "---"; L "*This document is synced with the RimTours database.*";
               VStr (str "*Last sync: " ++ strftime now ++ str "*")])
    with ((read_only_lines str_title tour title pricing fees ++ description_lines tour
           ++ trip_details_lines tour ++ itinerary_lines (List.map rendered_day days)
           ++ [L "---"; L "*This document is synced with the RimTours database.*"])
          ++ [VStr (str "*Last sync: " ++ strftime now ++ str "*")])
    by (rewrite <- !app_assoc; reflexivity).
  rewrite map_app. cbn [List.map as_str]. rewrite join_lines_unlines.
  rewrite !map_app, !unlines_app, <- !app_assoc. reflexivity.
Qed.

Lemma itinerary_quiet_field : quiet (str "<!-- FIELD:") itinerary_text = true.
Proof.
  unfold itinerary_lines.
  destruct (nonempty (List.map rendered_day days)); [|reflexivity].
  cbn [when]. rewrite map_app, unlines_app.
  apply quiet_app; [reflexivity | apply rendered_days_quiet_field; exact days_ok].
Qed.

Lemma generated_fields :
  fold_left parse_field
    (finditer (field_pattern uni_alnum)
       (read_only_text ++ description_text ++ trip_details_text ++ itinerary_text
        ++ footer_text)) ∅
  = field_values BLOCK_FIELDS tour.
Proof.
  apply (document_fields uni_alnum tour tour_ok).
  - apply (quiet_lacks 60%N). exact (proj2 read_only_ok).
  - apply quiet_app; [exact itinerary_quiet_field|].
    apply (quiet_lacks 60%N). exact footer_lacks.
Qed.

Lemma generated_days :
  mapM (parse_day uni_decimal)
    (finditer (day_pattern uni_decimal)
       (read_only_text ++ description_text ++ trip_details_text ++ itinerary_text
        ++ footer_text))
  = Ok (restored_day <$> days).
Proof.
  unfold finditer, day_pattern.
  rewrite finditer_quiet by (apply (quiet_lacks 60%N); exact (proj2 read_only_ok)).
  rewrite finditer_quiet by exact (proj2 (description_lines_ok tour tour_ok)).
  rewrite finditer_quiet by exact (proj2 (trip_details_lines_ok tour tour_ok)).
  assert (Hfoot : quiet (str "<!-- ITINERARY_DAY:") footer_text = true)
    by (apply (quiet_lacks 60%N); exact footer_lacks).
  fold (day_pattern uni_decimal).
  unfold itinerary_lines.
  destruct (nonempty (List.map rendered_day days)) eqn:Hne.
  2:{ assert (E : days = []) by (destruct days; [reflexivity | discriminate Hne]).
      rewrite E. cbn [when]. change (unlines (List.map as_str [])) with (@nil N).
      rewrite app_nil_l. unfold day_pattern.
      rewrite <- (app_nil_r footer_text), finditer_quiet by exact Hfoot. reflexivity. }
  - cbn [when]. rewrite map_app, unlines_app, <- app_assoc.
    unfold day_pattern at 1. rewrite finditer_quiet by reflexivity.
    fold (day_pattern uni_decimal).
    apply parse_rendered_days; [exact days_ok | exact Hfoot].
Qed.

Lemma round_trip :
  exists doc,
    generate_tour_document str_title tour days pricing fees now = Ok doc
    /\ parse_outline_document uni_alnum uni_decimal doc
       = Ok {| fields := field_values BLOCK_FIELDS tour;
               itinerary_days := restored_day <$> days |}.
Proof.
  eexists. split; [exact generated_text|].
  unfold parse_outline_document.
  rewrite generated_fields, generated_days. reflexivity.
Qed.

End RoundTrip.

(** The example data is well formed. *)
Lemma ascii_title_lacks (s : list N) : lacks 60 s = true -> lacks 60 (ascii_title s) = true.
Proof.
  unfold ascii_title. generalize false.
  induction s as [|c s IH]; intros b; [reflexivity|].
  rewrite lacks_cons, andb_true_iff. intros [Hc Hs].
  cbn [ascii_title_from]. rewrite lacks_cons, IH by exact Hs.
  rewrite andb_true_r. apply negb_true_iff, N.eqb_neq. apply negb_true_iff, N.eqb_neq in Hc.
  unfold ascii_upper_char.
  destruct b; repeat match goal with
                     | |- context [if ?x then _ else _] => destruct x eqn:?
                     end;
    rewrite ?andb_true_iff, ?N.leb_le in *; try lia; try exact Hc.
  all: destruct_and?; lia.
Qed.

Lemma example_tour_wf : wf_tour example_tour.
Proof.
  split; [|split].
  - apply (bool_decide_unpack (map_Forall (fun _ v => lacks 60 (fmt v) = true) example_tour)).
    vm_compute. exact I.
  - intros name H.
    repeat (apply elem_of_cons in H as [-> | H]);
      [ left; reflexivity
      | right; eexists; split; [reflexivity | right; split; reflexivity]
      | left; reflexivity
      | inversion H ].
  - intros name H.
    repeat (apply elem_of_cons in H as [-> | H]);
      try (left; reflexivity);
      try (right; eexists; split; [reflexivity | right; split; reflexivity]).
    inversion H.
Qed.

Lemma example_day_wf : wf_day (example_day 3 "18-22").
Proof.
  split; [|split].
  - exists 3%Z. split; [reflexivity | split; [lia | reflexivity]].
  - intros k H.
    repeat (apply elem_of_cons in H as [-> | H]);
      try (left; reflexivity);
      try (right; eexists; split; [reflexivity | right; split; reflexivity]).
    inversion H.
  - right. eexists. split; [reflexivity | right; split; reflexivity].
Qed.

Lemma field_values_lookup (tour : dict) (names : list (list N)) (k : list N) :
  field_values names tour !! k
  = if bool_decide (k ∈ names) then field_value tour k else None.
Proof.
  unfold field_values.
  assert (G : forall (acc : gmap (list N) (list N)),
             fold_left (fun fs name => match field_value tour name with
                                       | Some v => <[name := v]> fs
                                       | None => fs
                                       end) names acc !! k
             = if bool_decide (k ∈ names) then
                 match field_value tour k with Some v => Some v | None => acc !! k end
               else acc !! k).
  { induction names as [|n names IH]; intros acc; [reflexivity|].
    cbn [fold_left]. rewrite IH.
    destruct (decide (k ∈ names)) as [Hin | Hin].
    - rewrite (bool_decide_eq_true_2 _ Hin).
      rewrite bool_decide_eq_true_2 by (right; exact Hin).
      destruct (field_value tour k) as [v|] eqn:Ek; [reflexivity|].
      destruct (field_value tour n) as [w|] eqn:En; [|reflexivity].
      apply lookup_insert_ne. intros ->. congruence.
    - rewrite (bool_decide_eq_false_2 _ Hin).
      destruct (decide (k = n)) as [-> | Hne].
      + rewrite bool_decide_eq_true_2 by left.
        destruct (field_value tour n) as [w|]; [apply lookup_insert_eq | reflexivity].
      + rewrite bool_decide_eq_false_2
          by (intros H; apply elem_of_cons in H as [? | ?]; contradiction).
        destruct (field_value tour n) as [w|]; [|reflexivity].
        apply lookup_insert_ne. congruence. }
  rewrite G. destruct (bool_decide (k ∈ names)); [|reflexivity].
  destruct (field_value tour k); reflexivity.
Qed.

(** X1. Round trip of the editable fields.  For a tour whose values print
    without ['<'], whose free-text fields are trimmed strings and whose
    labelled fields are trimmed one-line strings, with days as in X2 and
    pricing and fee rows that print without ['<'], [generate_tour_document]
    returns a document, [parse_outline_document] accepts it, and the field
    map it returns holds, for each of the nine fields rendered in a Field
    Block, exactly the value of the tour (nothing for a missing, empty or
    placeholder value) and nothing for any other name. *)
Theorem generated_fields_round_trip (str_title : list N -> list N) (uni_alnum : N -> bool)
    (uni_decimal : N -> option N) (tour : dict) (days : list dict)
    (pricing : list (list N * value * value)) (fees : list (list N * value))
    (now : datetime) (title : value) :
  (forall s, lacks 60 s = true -> lacks 60 (str_title s) = true) ->
  tour !! str "title" = Some title ->
  wf_tour tour -> Forall wf_day days -> wf_pricing pricing fees ->
  exists doc p,
    generate_tour_document str_title tour days pricing fees now = Ok doc
    /\ parse_outline_document uni_alnum uni_decimal doc = Ok p
    /\ forall name,
         fields p !! name
         = if bool_decide (name ∈ BLOCK_FIELDS) then field_value tour name else None.
Proof.
  intros Ht Htitle Htour Hdays Hpricing.
  destruct (round_trip str_title uni_alnum uni_decimal Ht tour days pricing fees now title
              Htitle Htour Hdays Hpricing) as (doc & Hgen & Hparse).
  exists doc. eexists. split; [exact Hgen|]. split; [exact Hparse|].
  intros name. cbn [fields]. apply field_values_lookup.
Qed.

Lemma generated_fields_round_trip_witness :
  exists doc p,
    generate_tour_document ascii_title example_tour [example_day 3 "18-22"] [] [] example_now
    = Ok doc
    /\ parse_outline_document no_alnum no_decimal doc = Ok p
    /\ forall name,
         fields p !! name
         = if bool_decide (name ∈ BLOCK_FIELDS) then field_value example_tour name else None.
Proof.
  apply (generated_fields_round_trip ascii_title no_alnum no_decimal example_tour
           [example_day 3 "18-22"] [] [] example_now (VStr (str "Moab Classic"))).
  - exact ascii_title_lacks.
  - reflexivity.
  - exact example_tour_wf.
  - apply Forall_cons_2; [exact example_day_wf | apply Forall_nil_2].
  - split; constructor.
Defined.

(** X2. Round trip of the itinerary.  Under the same conditions, with days
    that have a non-negative day number of at most [int_max_str_digits]
    digits and trimmed sub-fields free of ['<'], ['*'] and ['|'] (one line
    each, except the free text), the parse of the generated document returns
    the days in order, each with its day number and exactly the sub-fields
    that had a non-empty value. *)
Theorem generated_days_round_trip (str_title : list N -> list N) (uni_alnum : N -> bool)
    (uni_decimal : N -> option N) (tour : dict) (days : list dict)
    (pricing : list (list N * value * value)) (fees : list (list N * value))
    (now : datetime) (title : value) :
  (forall s, lacks 60 s = true -> lacks 60 (str_title s) = true) ->
  tour !! str "title" = Some title ->
  wf_tour tour -> Forall wf_day days -> wf_pricing pricing fees ->
  exists doc p,
    generate_tour_document str_title tour days pricing fees now = Ok doc
    /\ parse_outline_document uni_alnum uni_decimal doc = Ok p
    /\ itinerary_days p = restored_day <$> days.
Proof.
  intros Ht Htitle Htour Hdays Hpricing.
  destruct (round_trip str_title uni_alnum uni_decimal Ht tour days pricing fees now title
              Htitle Htour Hdays Hpricing) as (doc & Hgen & Hparse).
  exists doc. eexists. split; [exact Hgen|]. split; [exact Hparse|]. reflexivity.
Qed.

Lemma generated_days_round_trip_witness :
  exists doc p,
    generate_tour_document ascii_title example_tour [example_day 3 "18-22"] [] [] example_now
    = Ok doc
    /\ parse_outline_document no_alnum no_decimal doc = Ok p
    /\ itinerary_days p = restored_day <$> [example_day 3 "18-22"].
Proof.
  apply (generated_days_round_trip ascii_title no_alnum no_decimal example_tour
           [example_day 3 "18-22"] [] [] example_now (VStr (str "Moab Classic"))).
  - exact ascii_title_lacks.
  - reflexivity.
  - exact example_tour_wf.
  - apply Forall_cons_2; [exact example_day_wf | apply Forall_nil_2].
  - split; constructor.
Defined.


(** * When the renderer fails *)

Lemma mapM_as_text_raise (lines : list value) :
  ~ Forall is_str lines -> mapM as_text lines = Raise TypeError.
Proof.
  induction lines as [|v lines IH]; intros H.
  - exfalso. apply H. constructor.
  - cbn [mapM]. destruct v as [|s|z|t]; try reflexivity.
    cbn [as_text mbind result_bind]. rewrite IH; [reflexivity|].
    intros Hl. apply H. constructor; [apply is_str_VStr | exact Hl].
Qed.

Lemma Forall_is_str_dec (lines : list value) :
  Forall is_str lines \/ ~ Forall is_str lines.
Proof.
  induction lines as [|v lines [IH | IH]].
  - left. constructor.
  - destruct v as [|s|z|t];
      try (right; intros H; inversion H as [|? ? [s' Hs] _]; discriminate Hs).
    left. constructor; [apply is_str_VStr | exact IH].
  - right. intros H. inversion H. contradiction.
Qed.

Lemma py_join_cases (lines : list value) :
  (Forall is_str lines /\ py_join lines = Ok (join_lines (List.map as_str lines)))
  \/ (~ Forall is_str lines /\ py_join lines = Raise TypeError).
Proof.
  destruct (Forall_is_str_dec lines) as [H | H].
  - left. split; [exact H | apply py_join_str; exact H].
  - right. split; [exact H|]. unfold py_join. rewrite mapM_as_text_raise by exact H.
    reflexivity.
Qed.

Lemma text_or_empty_or (v : value) (ph : string) :
  is_str (py_or v (L ph)) <-> text_or_empty v = true.
Proof.
  unfold py_or, is_str. destruct v as [|s|z|t]; cbn [truthy text_or_empty].
  - split; [reflexivity | intros _; eexists; reflexivity].
  - destruct s; (split; [reflexivity | intros _; eexists; reflexivity]).
  - destruct (negb (z =? 0)%Z) eqn:E; cbn [negb].
    + split; [intros [s Hs]; discriminate Hs | discriminate].
    + split; [reflexivity | intros _; eexists; reflexivity].
  - split; [intros [s Hs]; discriminate Hs | discriminate].
Qed.

Lemma text_or_empty_when (v : value) (before after : list value) :
  Forall is_str before -> Forall is_str after ->
  (Forall is_str (when (truthy v) (before ++ v :: after)) <-> text_or_empty v = true).
Proof.
  intros Hb Ha. unfold when. destruct v as [|s|z|t]; cbn [truthy text_or_empty].
  - split; [reflexivity | constructor].
  - destruct s; (split; [reflexivity|]); intros _; [constructor|].
    apply Forall_app_2; [exact Hb|]. constructor; [apply is_str_VStr | exact Ha].
  - destruct (negb (z =? 0)%Z) eqn:E; cbn [negb].
    + split; [|discriminate]. intros H. apply Forall_app in H as [_ H].
      inversion H as [|? ? [s Hs] _]. discriminate Hs.
    + split; [reflexivity | constructor].
  - split; [|discriminate]. intros H. apply Forall_app in H as [_ H].
    inversion H as [|? ? [s Hs] _]. discriminate Hs.
Qed.

Ltac str_lines :=
  repeat first [ apply Forall_app_2 | apply Forall_cons_2 | apply Forall_nil_2
               | (apply Forall_when; intros ?) | apply is_str_L | apply is_str_VStr ].

Section RenderedLines.

Variable str_title : list N -> list N.

Lemma read_only_lines_is_str (tour : dict) (title : value)
    (pricing : list (list N * value * value)) (fees : list (list N * value)) :
  Forall is_str (read_only_lines str_title tour title pricing fees).
Proof.
  unfold read_only_lines, reference_rows, info_lines, info_items, pricing_lines.
  cbn [flat_map]. str_lines.
  - apply Forall_map. apply Forall_forall. intros [[a b] c] _. apply is_str_VStr.
  - apply Forall_map. apply Forall_forall. intros [a b] _. apply is_str_VStr.
Qed.

Lemma trip_details_lines_is_str (tour : dict) : Forall is_str (trip_details_lines tour).
Proof. unfold trip_details_lines, field_block, labeled. str_lines. Qed.

Lemma description_lines_is_str (tour : dict) :
  Forall is_str (description_lines tour)
  <-> text_or_empty (get tour (str "short_description")) = true
      /\ text_or_empty (get tour (str "description")) = true
      /\ text_or_empty (get tour (str "special_notes")) = true.
Proof.
  unfold description_lines, field_block.
  rewrite !Forall_app, !Forall_cons_iff.
  rewrite (text_or_empty_or (get tour (str "short_description"))).
  rewrite (text_or_empty_or (get tour (str "description"))).
  change ([L "### Special Notes"]
          ++ [VStr (str "<!-- FIELD:" ++ str "special_notes" ++ str " -->");
              get tour (str "special_notes");
              VStr (str "<!-- /FIELD:" ++ str "special_notes" ++ str " -->"); L ""])
    with ([L "### Special Notes";
           VStr (str "<!-- FIELD:" ++ str "special_notes" ++ str " -->")]
          ++ get tour (str "special_notes")
             :: [VStr (str "<!-- /FIELD:" ++ str "special_notes" ++ str " -->"); L ""]).
  rewrite text_or_empty_when by str_lines.
  split.
  - tauto.
  - intros (H1 & H2 & H3). repeat split; auto; first [apply is_str_L | apply is_str_VStr | constructor].
Qed.

Lemma rendered_day_lines_is_str (d : dict) :
  Forall is_str (rendered_day d) <-> text_or_empty (get d (str "content")) = true.
Proof.
  unfold rendered_day, day_items.
  change (when (truthy (get d (str "content"))) [get d (str "content"); L ""])
    with (when (truthy (get d (str "content"))) ([] ++ get d (str "content") :: [L ""])).
  rewrite !Forall_app, text_or_empty_when by str_lines.
  split; [tauto|]. intros H. repeat split; auto; str_lines.
Qed.

End RenderedLines.

Lemma mapM_day_block_cases (days : list dict) :
  (Forall (fun d => is_Some (d !! str "day_number")) days
   /\ mapM day_block days = Ok (List.map rendered_day days))
  \/ (Exists (fun d => d !! str "day_number" = None) days
      /\ mapM day_block days = Raise (KeyError (str "day_number"))).
Proof.
  induction days as [|d days IH]; [left; split; [constructor | reflexivity]|].
  cbn [mapM List.map]. rewrite day_block_items. unfold subscript.
  destruct (d !! str "day_number") as [n|] eqn:En.
  - cbn [mbind result_bind]. destruct IH as [[Hall ->] | [Hex ->]].
    + left. split; [constructor; [eauto | exact Hall]|].
      cbn [mbind result_bind]. unfold rendered_day, get. rewrite En. reflexivity.
    + right. split; [right; exact Hex | reflexivity].
  - right. split; [left; exact En | reflexivity].
Qed.

Lemma itinerary_lines_is_str (days : list dict) :
  Forall is_str (itinerary_lines (List.map rendered_day days))
  <-> Forall (fun d => text_or_empty (get d (str "content")) = true) days.
Proof.
  unfold itinerary_lines.
  assert (Hc : Forall is_str (concat (List.map rendered_day days))
               <-> Forall (fun d => text_or_empty (get d (str "content")) = true) days).
  { induction days as [|d days IH]; [split; constructor|].
    cbn [List.map concat]. rewrite Forall_app, Forall_cons_iff, IH, rendered_day_lines_is_str.
    reflexivity. }
  destruct days as [|d days]; [split; constructor|].
  cbn [List.map nonempty when]. rewrite Forall_app, Hc.
  split; [tauto|]. intros H. split; [str_lines | exact H].
Qed.



(** * Further properties of the marker parser *)

Section ParsedFields.

Variable uni_alnum : N -> bool.
Variable uni_decimal : N -> option N.

Lemma field_match_name (b rest : list N) (gs : gmap nat (list N)) :
  rmatch (field_pattern uni_alnum) b ∅ = Some (rest, gs) ->
  exists name, gs !! 1 = Some name /\ nonempty name = true
               /\ forallb (is_word uni_alnum) name = true.
Proof.
  unfold field_pattern. intros H.
  apply rmatch_lit in H as (s1 & -> & H).
  apply rmatch_rep in H as (name & s2 & -> & Hlen & Hname & H).
  exists name. repeat split; auto.
  - erewrite rmatch_frame; [| |exact H].
    + simpl. apply lookup_insert_eq.
    + simpl. intros [E | []]. discriminate E.
  - destruct name; simpl in *; [lia | reflexivity].
Qed.

Lemma parse_field_value (fs : gmap (list N) (list N)) (m : gmap nat (list N))
    (name v : list N) :
  parse_field fs m !! name = Some v ->
  fs !! name = Some v
  \/ (name = group 1 m /\ nonempty v = true /\ strip v = v
      /\ v <> str "_No short description yet._" /\ v <> str "_No description yet._").
Proof.
  unfold parse_field.
  set (fv := if bool_decide (group 1 m ∈ LABELED_FIELDS) then _ else _).
  assert (Hstrip : strip fv = fv).
  { unfold fv. destruct (bool_decide _); [|apply strip_idem].
    destruct (search _ _); [|apply strip_idem].
    destruct (text_eqb _ _); [reflexivity | apply strip_idem]. }
  clearbody fv.
  destruct (nonempty fv && negb (text_eqb fv (str "_No short description yet._"))
            && negb (text_eqb fv (str "_No description yet._"))) eqn:E; [|auto].
  apply andb_true_iff in E as [E E3]. apply andb_true_iff in E as [E1 E2].
  destruct (decide (group 1 m = name)) as [<- | Hne].
  - rewrite lookup_insert_eq. intros [= <-]. right. repeat split; auto.
    + intros ->. vm_compute in E2. discriminate E2.
    + intros ->. vm_compute in E3. discriminate E3.
  - rewrite lookup_insert_ne by exact Hne. auto.
Qed.

Lemma parse_fields_invariant (ms : list (gmap nat (list N))) (fs : gmap (list N) (list N))
    (name v : list N) :
  fold_left parse_field ms fs !! name = Some v ->
  fs !! name = Some v
  \/ (exists m, In m ms /\ name = group 1 m)
     /\ nonempty v = true /\ strip v = v
     /\ v <> str "_No short description yet._" /\ v <> str "_No description yet._".
Proof.
  revert fs. induction ms as [|m ms IH]; intros fs; cbn [fold_left]; [auto|].
  intros H. destruct (IH _ H) as [H1 | ((m' & Hin & Hm') & Hrest)].
  - destruct (parse_field_value _ _ _ _ H1) as [H2 | (Hname & Hrest)]; [auto|].
    right. split; [exists m; split; [left; reflexivity | exact Hname] | exact Hrest].
  - right. split; [exists m'; split; [right; exact Hin | exact Hm'] | exact Hrest].
Qed.

(** X14. What a parse can return as a field.  Every value in the field
    map of a parsed document is non-empty, has no white space at either end,
    and is neither of the placeholders ["_No short description yet._"] and
    ["_No description yet._"]; every name is a non-empty run of word
    characters.  So a Pull never writes an empty or untrimmed text. *)
Theorem parsed_fields_are_trimmed (doc : list N) (p : parsed) (name v : list N) :
  parse_outline_document uni_alnum uni_decimal doc = Ok p ->
  fields p !! name = Some v ->
  nonempty v = true /\ strip v = v
  /\ v <> str "_No short description yet._" /\ v <> str "_No description yet._"
  /\ nonempty name = true /\ forallb (is_word uni_alnum) name = true.
Proof.
  unfold parse_outline_document. intros Hp Hv.
  destruct (mapM _ _) as [days|e]; [|discriminate Hp].
  cbn [mbind result_bind] in Hp. injection Hp as <-. cbn [fields] in Hv.
  destruct (parse_fields_invariant _ _ _ _ Hv) as [H | ((m & Hin & ->) & H1 & H2 & H3 & H4)].
  { rewrite lookup_empty in H. discriminate H. }
  repeat split; auto.
  all: apply finditer_from_In in Hin as (a & b & rest & _ & Hm);
    destruct (field_match_name _ _ _ Hm) as (name & Hg & Hn & Hw);
    unfold group; rewrite Hg; assumption.
Qed.

End ParsedFields.

Lemma parsed_fields_are_trimmed_witness :
  nonempty (str "A better ride.") = true /\ strip (str "A better ride.") = str "A better ride."
  /\ str "A better ride." <> str "_No short description yet._"
  /\ str "A better ride." <> str "_No description yet._"
  /\ nonempty (str "description") = true
  /\ forallb (is_word no_alnum) (str "description") = true.
Proof.
  eapply (parsed_fields_are_trimmed no_alnum no_decimal edited_document).
  - vm_compute. reflexivity.
  - vm_compute. reflexivity.
Defined.

Lemma mapM_result_In {A B} (f : A -> result B) (l : list A) (ys : list B) (y : B) :
  mapM f l = Ok ys -> In y ys -> exists x, In x l /\ f x = Ok y.
Proof.
  revert ys. induction l as [|x l IH]; intros ys; cbn [mapM].
  - intros [= <-] [].
  - destruct (f x) as [y0|e] eqn:Ex; [|discriminate]. cbn [mbind result_bind].
    destruct (mapM f l) as [ys0|e] eqn:El; [|discriminate]. cbn [mbind result_bind].
    intros [= <-] [<- | Hin].
    + exists x. split; [left; reflexivity | exact Ex].
    + destruct (IH ys0 eq_refl Hin) as (x' & Hx' & Hf). exists x'. split; [right|]; assumption.
Qed.

Section ParsedDays.

Variable uni_alnum : N -> bool.
Variable uni_decimal : N -> option N.

(** The shape of a dictionary built by the captures of [parse_day]. *)
Local Abbreviation day_shape :=
  (fun (n : Z) (d : dict) =>
     d !! str "day_number" = Some (VInt n)
     /\ forall k v, d !! k = Some v ->
          k = str "day_number"
          \/ (k ∈ DAY_FIELDS /\ exists s, v = VStr s /\ strip s = s)).

Lemma insert_day_shape (n : Z) (d : dict) (key : string) (s : list N) :
  str key ∈ DAY_FIELDS -> strip s = s -> day_shape n d ->
  day_shape n (<[str key := VStr s]> d).
Proof.
  intros Hkey Hs [Hn Hd]. split.
  - rewrite lookup_insert_ne; [exact Hn|].
    intros E. rewrite E in Hkey. vm_compute in Hkey.
    repeat (apply elem_of_cons in Hkey as [Hkey | Hkey]; [discriminate Hkey|]).
    inversion Hkey.
  - intros k v. destruct (decide (str key = k)) as [<- | Hne].
    + rewrite lookup_insert_eq. intros [= <-]. right. split; [exact Hkey | eauto].
    + rewrite lookup_insert_ne by exact Hne. apply Hd.
Qed.

Lemma capture_day_shape (n : Z) (d : dict) (key : string) (r : list atom) (content : list N) :
  str key ∈ DAY_FIELDS -> day_shape n d -> day_shape n (capture key r content d).
Proof.
  intros Hkey Hd. unfold capture. destruct (search r content); [|exact Hd].
  apply insert_day_shape; [exact Hkey | apply strip_idem | exact Hd].
Qed.

(** X15. What a parse can return as a day.  Every parsed day has a day
    number that is an integer and not negative, and apart from it only
    sub-fields of the itinerary (miles, elevation, route, lodging, meals,
    free text), each a string without white space at either end. *)
Theorem parsed_days_are_well_formed (doc : list N) (p : parsed) (d : dict) :
  parse_outline_document uni_alnum uni_decimal doc = Ok p ->
  d ∈ itinerary_days p ->
  exists n, d !! str "day_number" = Some (VInt n) /\ (0 <= n)%Z
            /\ forall k v, d !! k = Some v ->
                 k = str "day_number"
                 \/ (k ∈ DAY_FIELDS /\ exists s, v = VStr s /\ strip s = s).
Proof.
  unfold parse_outline_document. intros Hp Hd.
  destruct (mapM _ _) as [days|e] eqn:Hdays; [|discriminate Hp].
  cbn [mbind result_bind] in Hp. injection Hp as <-. cbn [itinerary_days] in Hd.
  apply list_elem_of_In in Hd.
  destruct (mapM_result_In _ _ _ _ Hdays Hd) as (m & _ & Hm).
  unfold parse_day, py_int in Hm.
  destruct (nonempty (group 1 m) && forallb (is_digit uni_decimal) (group 1 m)
            && int_digits_ok (group 1 m));
    [|discriminate Hm].
  cbn [mbind result_bind] in Hm. injection Hm as <-.
  set (n := Z.of_N _). exists n.
  assert (Hshape : day_shape n
            (capture "meals" (line_pattern "Meals") (strip (group 2 m))
               (capture "camp_lodging" (line_pattern "Lodging") (strip (group 2 m))
                  (capture "trails_waypoints" (line_pattern "Route") (strip (group 2 m))
                     (capture "elevation" (stat_pattern "Elevation") (strip (group 2 m))
                        (capture "miles" (stat_pattern "Miles") (strip (group 2 m))
                           {[str "day_number" := VInt n]})))))).
  { repeat (apply capture_day_shape; [apply (bool_decide_unpack _); vm_compute; exact I|]).
    split; [apply lookup_singleton_eq|].
    intros k v Hk. apply lookup_singleton_Some in Hk as [<- _]. left. reflexivity. }
  assert (Hfinal : day_shape n
            (if nonempty (strip (fold_left (fun rem p => re_sub p rem) removal_patterns
                                   (strip (group 2 m))))
             then <[str "content" := VStr (strip (fold_left (fun rem p => re_sub p rem)
                                                     removal_patterns (strip (group 2 m))))]>
                    (capture "meals" (line_pattern "Meals") (strip (group 2 m))
                       (capture "camp_lodging" (line_pattern "Lodging") (strip (group 2 m))
                          (capture "trails_waypoints" (line_pattern "Route") (strip (group 2 m))
                             (capture "elevation" (stat_pattern "Elevation") (strip (group 2 m))
                                (capture "miles" (stat_pattern "Miles") (strip (group 2 m))
                                   {[str "day_number" := VInt n]})))))
             else capture "meals" (line_pattern "Meals") (strip (group 2 m))
                    (capture "camp_lodging" (line_pattern "Lodging") (strip (group 2 m))
                       (capture "trails_waypoints" (line_pattern "Route") (strip (group 2 m))
                          (capture "elevation" (stat_pattern "Elevation") (strip (group 2 m))
                             (capture "miles" (stat_pattern "Miles") (strip (group 2 m))
                                {[str "day_number" := VInt n]})))))).
  { destruct (nonempty _); [|exact Hshape].
    apply (insert_day_shape n _ "content");
      [apply (bool_decide_unpack _); vm_compute; exact I | apply strip_idem | exact Hshape]. }
  destruct Hfinal as [H1 H2]. split; [exact H1|]. split; [unfold n; lia | exact H2].
Qed.

End ParsedDays.

Lemma parsed_days_are_well_formed_witness :
  exists n, restored_day (example_day 3 "18-22") !! str "day_number" = Some (VInt n)
            /\ (0 <= n)%Z
            /\ forall k v, restored_day (example_day 3 "18-22") !! k = Some v ->
                 k = str "day_number"
                 \/ (k ∈ DAY_FIELDS /\ exists s, v = VStr s /\ strip s = s).
Proof.
  apply (parsed_days_are_well_formed no_alnum no_decimal created_document
           {| fields := {[ str "description" := str "A classic ride.";
                           str "terrain" := str "Slickrock" ]};
              itinerary_days := [restored_day (example_day 0 "10");
                                 restored_day (example_day 3 "18-22")] |}).
  - vm_compute. reflexivity.
  - right. left.
Defined.


(** * Further properties of the canonical store *)

Lemma upsert_day_lookup (stamp : list N) (tour_id day_num : value) (day : dict)
    (t : list dict) (i : nat) (row : dict) :
  t !! i = Some row -> conflict_with tour_id day_num row = false ->
  upsert_day stamp tour_id day_num day t !! i = Some row.
Proof.
  intros Hi Hc. unfold upsert_day.
  destruct (existsb (conflict_with tour_id day_num) t).
  - unfold sql_update. rewrite list_lookup_fmap, Hi. cbn [fmap option_fmap option_map].
    rewrite Hc. reflexivity.
  - apply lookup_app_l_Some. exact Hi.
Qed.

Lemma upsert_day_length (stamp : list N) (tour_id day_num : value) (day : dict)
    (t : list dict) :
  length t <= length (upsert_day stamp tour_id day_num day t).
Proof.
  unfold upsert_day. destruct (existsb (conflict_with tour_id day_num) t).
  - rewrite sql_update_length. lia.
  - rewrite length_app. lia.
Qed.

(** The loop of [update_itinerary_from_outline], from any store and count. *)
Lemma update_itinerary_fold (tour_id : value) (days : list dict) (conn : database) (k : nat) :
  let step := fun '(conn, count) (day : dict) =>
                let day_num := get day (str "day_number") in
                if negb (truthy day_num) then (conn, count)
                else (set_itinerary (upsert_day (CURRENT_TIMESTAMP conn) tour_id day_num day) conn,
                      S count) in
  let r := fold_left step days (conn, k) in
  length (tour_itinerary_days conn) <= length (tour_itinerary_days r.1)
  /\ (forall i row,
        tour_itinerary_days conn !! i = Some row ->
        (forall d, d ∈ days -> truthy (get d (str "day_number")) = true ->
                   conflict_with tour_id (get d (str "day_number")) row = false) ->
        tour_itinerary_days r.1 !! i = Some row)
  /\ r.2 = k + length (List.filter (fun d => truthy (get d (str "day_number"))) days)
  /\ tours r.1 = tours conn /\ tour_pricing r.1 = tour_pricing conn
  /\ tour_fees r.1 = tour_fees conn /\ sync_log r.1 = sync_log conn.
Proof.
  cbv zeta. revert conn k. induction days as [|d days IH]; intros conn k.
  - cbn [fold_left fst snd List.filter length]. repeat split; auto; lia.
  - cbn [fold_left List.filter].
    destruct (truthy (get d (str "day_number"))) eqn:Ht; cbn [negb].
    + specialize (IH (set_itinerary
                        (upsert_day (CURRENT_TIMESTAMP conn) tour_id (get d (str "day_number")) d)
                        conn) (S k)).
      destruct IH as (Hlen & Hrows & Hcount & Htours & Hp & Hf & Hlog).
      cbn [tour_itinerary_days set_itinerary] in Hlen, Hrows.
      repeat split.
      * pose proof (upsert_day_length (CURRENT_TIMESTAMP conn) tour_id
                      (get d (str "day_number")) d (tour_itinerary_days conn)). lia.
      * intros i row Hi Hfree. apply Hrows.
        -- apply upsert_day_lookup; [exact Hi|]. apply Hfree; [left | exact Ht].
        -- intros d' Hd'. apply Hfree. right. exact Hd'.
      * rewrite Hcount. cbn [length]. lia.
      * rewrite Htours. reflexivity.
      * rewrite Hp. reflexivity.
      * rewrite Hf. reflexivity.
      * rewrite Hlog. reflexivity.
    + specialize (IH conn k). destruct IH as (Hlen & Hrows & Hcount & Hrest).
      repeat split; try tauto.
      intros i row Hi Hfree. apply Hrows; [exact Hi|].
      intros d' Hd'. apply Hfree. right. exact Hd'.
Qed.

(** X11. Pulling an itinerary never deletes a row and never touches a row
    the document does not name: a row of the itinerary table whose
    (tour, day number) key is not the key of a parsed day with a non-zero
    number is, after [update_itinerary_from_outline], still there, at the
    same place and unchanged.  So the days of other tours, and the days
    somebody removed from the document, stay as they were. *)
Theorem update_itinerary_keeps_other_rows (conn : database) (tour_id : value)
    (days : list dict) :
  let conn' := (update_itinerary_from_outline conn tour_id days).1 in
  length (tour_itinerary_days conn) <= length (tour_itinerary_days conn')
  /\ forall i row,
       tour_itinerary_days conn !! i = Some row ->
       (forall d, d ∈ days -> truthy (get d (str "day_number")) = true ->
                  conflict_with tour_id (get d (str "day_number")) row = false) ->
       tour_itinerary_days conn' !! i = Some row.
Proof.
  pose proof (update_itinerary_fold tour_id days conn 0) as H. cbv zeta in H.
  cbv zeta. unfold update_itinerary_from_outline. tauto.
Qed.

(** X12. [update_itinerary_from_outline] returns the number of parsed days
    whose day number is not zero (counting a repeated number each time), and
    writes to the itinerary table only: tours, pricing, fees and the log are
    as before. *)
Theorem update_itinerary_count (conn : database) (tour_id : value) (days : list dict) :
  let r := update_itinerary_from_outline conn tour_id days in
  r.2 = length (List.filter (fun d => truthy (get d (str "day_number"))) days)
  /\ tours r.1 = tours conn /\ tour_pricing r.1 = tour_pricing conn
  /\ tour_fees r.1 = tour_fees conn /\ sync_log r.1 = sync_log conn.
Proof.
  pose proof (update_itinerary_fold tour_id days conn 0) as H. cbv zeta in H.
  cbv zeta. unfold update_itinerary_from_outline. tauto.
Qed.

(** X13. What [update_tour_from_outline] writes.  Rows of other tours are
    left exactly as they are; in a row of the tour, every editable field the
    parsed document has a value for holds that value afterwards.  The number
    returned is the number of rows of the tour when the document has a value
    for some editable field, and 0 otherwise. *)
Theorem update_tour_writes_editable (conn : database) (tour_id : value)
    (updates : gmap (list N) (list N)) :
  let r := update_tour_from_outline conn tour_id updates in
  Forall2 (fun row row' : dict =>
             if sql_eq (get row (str "id")) tour_id
             then forall k v, k ∈ EDITABLE_FIELDS -> updates !! k = Some v ->
                              row' !! k = Some (VStr v)
             else row' = row)
          (tours conn) (tours r.1)
  /\ r.2 = if existsb (fun k => bool_decide (is_Some (updates !! k))) EDITABLE_FIELDS
           then length (List.filter (fun row => sql_eq (get row (str "id")) tour_id) (tours conn))
           else 0.
Proof.
  cbv zeta. unfold update_tour_from_outline.
  set (safe := filter (fun kv : list N * list N => kv.1 ∈ EDITABLE_FIELDS) updates).
  assert (Hsafe : forall k v, k ∈ EDITABLE_FIELDS -> updates !! k = Some v -> safe !! k = Some v).
  { intros k v Hk Hv. unfold safe. apply map_lookup_filter_Some. split; [exact Hv | exact Hk]. }
  case_bool_decide as Hempty.
  - cbn [fst snd]. split.
    + apply Forall2_same_length_lookup. split; [reflexivity|].
      intros i row row' H1 H2. assert (row' = row) by congruence. subst row'.
      destruct (sql_eq (get row (str "id")) tour_id); [|reflexivity].
      intros k v Hk Hv. specialize (Hsafe k v Hk Hv). rewrite Hempty in Hsafe.
      rewrite lookup_empty in Hsafe. discriminate Hsafe.
    + destruct (existsb _ EDITABLE_FIELDS) eqn:E; [|reflexivity]. exfalso.
      apply existsb_exists in E as (k & Hk & Hv).
      apply bool_decide_eq_true_1 in Hv as [v Hv]. apply list_elem_of_In in Hk.
      specialize (Hsafe k v Hk Hv). rewrite Hempty in Hsafe.
      rewrite lookup_empty in Hsafe. discriminate Hsafe.
  - cbn [fst snd tours set_tours]. split.
    + unfold sql_update. apply Forall2_fmap_r. apply Forall_Forall2_diag.
      apply Forall_forall. intros row _. unfold compose. cbn beta.
      destruct (sql_eq (get row (str "id")) tour_id); [|reflexivity].
      intros k v Hk Hv. apply lookup_union_Some_l.
      rewrite lookup_fmap, (Hsafe k v Hk Hv). reflexivity.
    + destruct (map_choose safe Hempty) as (k & v & Hkv).
      apply map_lookup_filter_Some in Hkv as [Hv Hk].
      replace (existsb _ EDITABLE_FIELDS) with true; [reflexivity|].
      symmetry. apply existsb_exists. exists k. split; [apply list_elem_of_In; exact Hk|].
      apply bool_decide_eq_true_2. exists v. exact Hv.
Qed.


(** * Further properties of the engine *)

(** ** Pull *)

Section PullEffects.

Variable server : Type.
Variable outline_api : request -> server -> result (option dict) * server.
Variable uni_alnum : N -> bool.
Variable uni_decimal : N -> option N.

Local Abbreviation pull := (pull_tour_from_outline server outline_api uni_alnum uni_decimal).

Ltac pull_unfold :=
  unfold pull_tour_from_outline, bind, lift, ret, try_except, write_db, with_db,
    get_outline_document, outline_request.

Ltac pull_step :=
  match goal with
  | |- context [subscript ?t ?k] => destruct (subscript t k) eqn:?; cbn -[log_sync]
  | |- context [truthy ?v] => destruct (truthy v) eqn:?; cbn -[log_sync]
  | |- context [outline_api ?rq ?s] => destruct (outline_api rq s) as [[?|?] ?] eqn:?; cbn -[log_sync]
  | |- context [is_dict_true ?d] => destruct (is_dict_true d) eqn:?; cbn -[log_sync]
  | |- context [parse_value ?a ?b ?v] => destruct (parse_value a b v) as [?|?] eqn:?; cbn -[log_sync]
  | |- context [update_tour_from_outline ?c ?t ?f] =>
      destruct (update_tour_from_outline c t f) as [? ?] eqn:?; cbn -[log_sync]
  | |- context [update_itinerary_from_outline ?c ?t ?f] =>
      destruct (update_itinerary_from_outline c t f) as [? ?] eqn:?; cbn -[log_sync]
  | |- context [nonempty ?l] => destruct (nonempty l) eqn:?; cbn -[log_sync]
  end.

(** X3. A Pull never writes to the document store: the only request it can
    make is one [documents.info] for the document of the tour, and for a
    tour without a document id it makes none and leaves the world as it
    is. *)
Theorem pull_only_reads (w : world server) (tour : dict) (dry_run : bool) :
  let w' := (pull tour dry_run w).2 in
  (calls w' = calls w
   \/ calls w' = calls w ++ [documents_info (get tour (str "outline_doc_id"))])
  /\ files w' = files w
  /\ (truthy (get tour (str "outline_doc_id")) = false -> w' = w).
Proof.
  pull_unfold. cbn -[log_sync].
  destruct dry_run; repeat pull_step; auto; try (split; [auto|split; [auto|discriminate]]).
Qed.

(** X4. A Pull reports failures in its result instead of raising: for a
    tour that has an id and a title it returns a result, whatever the
    document store answers and whatever the document holds. *)
Theorem pull_never_raises (w : world server) (tour : dict) (dry_run : bool)
    (tour_id title : value) :
  tour !! str "id" = Some tour_id -> tour !! str "title" = Some title ->
  exists outcome, (pull tour dry_run w).1 = Ok outcome.
Proof.
  intros Hid Htitle. pull_unfold. unfold subscript. rewrite Hid, Htitle. cbn -[log_sync].
  destruct dry_run; repeat pull_step; eauto.
Qed.

(** X5. A failed Pull changes nothing but the log.  When the result is an
    error carrying an exception (the request failed, or the text could not
    be parsed), the store afterwards is the store before plus one
    ['failed'] row in [sync_log]; when the document was not found, the
    store is as before and nothing is logged. *)
Theorem pull_failure_leaves_tables (w : world server) (tour : dict) (dry_run : bool)
    (tour_id title : value) :
  (forall e, (pull tour dry_run w).1 = Ok (PullError tour_id title e) ->
             db (pull tour dry_run w).2
             = log_sync (db w) (str "outline_pull") tour_id (str "failed") [] (Some e))
  /\ ((pull tour dry_run w).1 = Ok (PullNotFound tour_id title) ->
      db (pull tour dry_run w).2 = db w).
Proof.
  pull_unfold. cbn -[log_sync].
  split; [intros e|]; destruct dry_run; repeat pull_step; intros Hres; inversion Hres; subst;
    reflexivity.
Qed.

(** X6. A dry-run Pull never changes the tours and the itinerary tables;
    when it reports what it would update, it has changed nothing at all, and
    the field names and the number of days it reports are those of the
    parsed document. *)
Theorem pull_dry_run_changes_nothing (w : world server) (tour : dict) :
  let w' := (pull tour true w).2 in
  tours (db w') = tours (db w)
  /\ tour_itinerary_days (db w') = tour_itinerary_days (db w)
  /\ forall tour_id title names n,
       (pull tour true w).1 = Ok (PullWouldUpdate tour_id title names n) ->
       db w' = db w
       /\ exists p, pulled_document server outline_api uni_alnum uni_decimal w tour = Some p
                    /\ names = (map_to_list (fields p)).*1
                    /\ n = length (itinerary_days p).
Proof.
  pull_unfold. unfold pulled_document. cbn -[log_sync].
  repeat pull_step; (split; [reflexivity | split; [reflexivity|]]);
    intros ? ? ? ? Hres; inversion Hres; subst.
  all: split; [reflexivity|].
  all: match goal with
       | Hd : is_dict_true ?d = true |- _ => destruct d as [doc|]; [|discriminate Hd]
       end.
  all: cbn [default from_option id] in *; eexists; split;
    [ match goal with Hp : parse_value _ _ _ = Ok _ |- _ => rewrite Hp; reflexivity end
    | split; reflexivity ].
Qed.

End PullEffects.

Lemma pull_never_raises_witness :
  exists outcome,
    (pull_tour_from_outline _ mem_api no_alnum no_decimal example_tour false
       (example_world edited_document)).1 = Ok outcome.
Proof.
  apply (pull_never_raises _ mem_api no_alnum no_decimal (example_world edited_document)
           example_tour false (VInt 42) (VStr (str "Moab Classic"))); reflexivity.
Defined.


(** ** Push *)

Section PushEffects.

Variable server : Type.
Variable outline_api : request -> server -> result (option dict) * server.
Variables OUTLINE_COLLECTION_ID OUTLINE_DAY_TOURS_DOC_ID OUTLINE_MD_TOURS_DOC_ID : list N.
Variable str_title : list N -> list N.
Variable str_lower : list N -> list N.

Local Abbreviation push :=
  (push_tour_to_outline server outline_api OUTLINE_COLLECTION_ID OUTLINE_DAY_TOURS_DOC_ID
     OUTLINE_MD_TOURS_DOC_ID str_title str_lower).

Ltac push_unfold :=
  unfold push_tour_to_outline, bind, lift, ret, read, try_except, write_db, with_db,
    get_outline_document, update_outline_document, create_outline_document, outline_request.

Ltac push_simpl :=
  cbn -[log_sync update_tour_outline_doc_id generate_reference_header generate_tour_document
        is_day_tour strip_existing_header get_tour_itinerary get_tour_pricing get_tour_fees
        contains_value subscript subscript_doc is_dict_true editable_heading nonempty].

Ltac push_step :=
  match goal with
  | |- context [subscript ?t ?k] => destruct (subscript t k) eqn:?; push_simpl
  | |- context [subscript_doc ?t ?k] => destruct (subscript_doc t k) eqn:?; push_simpl
  | |- context [is_dict_true ?d] => destruct (is_dict_true d) eqn:?; push_simpl
  | |- context [outline_api ?rq ?s] => destruct (outline_api rq s) as [[?|?] ?] eqn:?; push_simpl
  | |- context [contains_value ?a ?b] => destruct (contains_value a b) as [[|]|?] eqn:?; push_simpl
  | |- context [generate_reference_header ?a ?b ?c ?d ?e] =>
      destruct (generate_reference_header a b c d e) eqn:?; push_simpl
  | |- context [generate_tour_document ?a ?b ?c ?d ?e ?f] =>
      destruct (generate_tour_document a b c d e f) eqn:?; push_simpl
  | |- context [is_day_tour ?a ?b] => destruct (is_day_tour a b) as [[|]|?] eqn:?; push_simpl
  | |- context [truthy ?v] => destruct (truthy v) eqn:?; push_simpl
  | |- context [nonempty ?v] => destruct (nonempty v) eqn:?; push_simpl
  end.

Lemma push_dry_run_world (w : world server) (tour : dict)
    (existing_docs : gmap (list N) dict) (force_update : bool) :
  (push tour existing_docs true force_update w).2 = w.
Proof.
  push_unfold. push_simpl. repeat push_step; reflexivity.
Qed.

(** Whatever happens, a Push of a tour that has an id and a title ends in
    one of the actions the loop of [push_all_to_outline] counts, when every
    entry of [existing_docs] has an id. *)
Lemma push_outcome_action (w : world server) (tour : dict)
    (existing_docs : gmap (list N) dict) (dry_run force_update : bool)
    (tour_id title : value) :
  tour !! str "id" = Some tour_id -> tour !! str "title" = Some title ->
  (forall (s : list N) (d : dict), existing_docs !! s = Some d -> is_Some (d !! str "id")) ->
  exists outcome,
    (push tour existing_docs dry_run force_update w).1 = Ok outcome
    /\ In (push_action outcome)
         [str "create"; str "update"; str "prepend"; str "created"; str "updated";
          str "prepended"; str "skipped"; str "error"].
Proof.
  intros Hid Htitle Hdocs. destruct dry_run.
  - unfold push_tour_to_outline, bind, lift, ret, read, subscript at 1 2.
    rewrite Hid, Htitle. push_simpl.
    destruct (default (VStr []) (tour !! str "slug")) as [|slug| |];
      try (eexists; split; [reflexivity|]; cbn [push_action is_dict_true andb]; cbn; tauto).
    destruct (existing_docs !! slug) as [d|] eqn:Hd;
      [|eexists; split; [reflexivity|]; cbn; tauto].
    destruct (Hdocs _ _ Hd) as [id Hidd].
    destruct (is_dict_true (Some d)) eqn:Htrue.
    + unfold subscript_doc, subscript. rewrite Hidd. push_simpl.
      eexists; split; [reflexivity|]. cbn [push_action].
      destruct force_update; cbn; tauto.
    + eexists; split; [reflexivity|]; cbn; tauto.
  - push_unfold. unfold subscript at 1 2 3 4 5 6. rewrite Hid, Htitle.
    push_simpl. destruct force_update; repeat push_step; eexists; (split; [reflexivity|]);
      cbn; tauto.
Qed.

(** X7. A dry-run Push has no effect at all: it makes no request, not even
    the fetch of the existing document, and leaves the store, the log and
    the files as they are. *)
Theorem push_dry_run_changes_nothing (w : world server) (tour : dict)
    (existing_docs : gmap (list N) dict) (force_update : bool) :
  (push tour existing_docs true force_update w).2 = w.
Proof. apply push_dry_run_world. Qed.

(** X8. A Push that is not a dry run reports failures in its result
    instead of raising: for a tour that has an id and a title it returns a
    result, whatever the document store answers. *)
Theorem push_never_raises (w : world server) (tour : dict)
    (existing_docs : gmap (list N) dict) (force_update : bool) (tour_id title : value) :
  tour !! str "id" = Some tour_id -> tour !! str "title" = Some title ->
  exists outcome, (push tour existing_docs false force_update w).1 = Ok outcome.
Proof.
  intros Hid Htitle. push_unfold. unfold subscript at 1 2 3 4 5 6. rewrite Hid, Htitle.
  push_simpl. destruct force_update; repeat push_step; eauto.
Qed.

(** X9. The requests of a Push.  A Push makes no request, or fetches the
    existing document, or fetches it and then updates that same document
    without touching its title, or creates one document: never more than one
    write, and never an update of a document it has not just read. *)
Theorem push_requests (w : world server) (tour : dict)
    (existing_docs : gmap (list N) dict) (dry_run force_update : bool) :
  let w' := (push tour existing_docs dry_run force_update w).2 in
  calls w' = calls w
  \/ (exists id, calls w' = calls w ++ [documents_info id])
  \/ (exists id body,
        calls w' = calls w ++ [documents_info id; documents_update id None body])
  \/ (exists title body collection parent,
        calls w' = calls w ++ [documents_create title body collection parent]).
Proof.
  push_unfold. push_simpl.
  destruct dry_run, force_update; repeat push_step; rewrite <- ?app_assoc; cbn [app];
    eauto 10.
Qed.

(** X10. What a Push leaves in the store.  A Push that was skipped has
    changed nothing.  A Push that succeeded has changed the store in exactly
    two ways: the rows of the tour are linked to a document id (the id the
    store returned, when the document was created) and stamped, and one
    ['success'] row carrying the action is appended to the log.  A Push that
    reports an error has written a ['failed'] row carrying the exception as
    the last row of the log. *)
Theorem push_store_effect (w : world server) (tour : dict)
    (existing_docs : gmap (list N) dict) (force_update : bool)
    (tour_id title slug : value) :
  let r := push tour existing_docs false force_update w in
  (r.1 = Ok (PushSkipped tour_id title slug) -> db r.2 = db w)
  /\ (forall action doc_id,
        r.1 = Ok (PushDone tour_id title slug action doc_id) ->
        exists linked,
          db r.2 = log_sync (update_tour_outline_doc_id (db w) tour_id linked)
                     (str "outline_push") tour_id (str "success")
                     [(str "action", VStr action)] None
          /\ (action = str "created" -> linked = doc_id))
  /\ (forall e,
        r.1 = Ok (PushError tour_id title slug e) ->
        exists conn,
          db r.2 = log_sync conn (str "outline_push") tour_id (str "failed") [] (Some e)).
Proof.
  push_unfold. push_simpl.
  split; [|split]; [| intros action doc_id | intros e];
    destruct force_update; repeat push_step; intros Hres; inversion Hres; subst;
    try reflexivity; eexists; try (split; [reflexivity|]); try reflexivity;
    try (intros Ha; vm_compute in Ha; discriminate Ha); try (intros _; reflexivity).
Qed.

End PushEffects.

Lemma push_never_raises_witness :
  exists outcome, (example_push created_document false false).1 = Ok outcome.
Proof.
  apply (push_never_raises _ mem_api (str "collection") (str "day-tours")
           (str "multi-day-tours") ascii_title ascii_lower (example_world created_document)
           example_tour example_existing_docs false (VInt 42) (VStr (str "Moab Classic")));
    reflexivity.
Defined.


(** * The commands *)

Lemma select_lookup (cols : list (list N)) (row : dict) (c : list N) :
  c ∈ cols -> select cols row !! c = Some (get row c).
Proof.
  unfold select. induction cols as [|c' cols IH]; intros H; [inversion H|].
  cbn [List.map]. rewrite list_to_map_cons.
  destruct (decide (c' = c)) as [-> | Hne]; [apply lookup_insert_eq|].
  rewrite lookup_insert_ne by exact Hne. apply IH.
  apply elem_of_cons in H as [-> | H]; [contradiction | exact H].
Qed.

Lemma count_present (key : string) (results : gmap (list N) nat) (n : nat) :
  results !! str key = Some n -> count key results = Ok (<[str key := S n]> results).
Proof. intros H. unfold count. rewrite H. reflexivity. Qed.

Lemma bind_ok {server A B} (m : M server A) (f : A -> M server B) (w w1 : world server)
    (a : A) :
  m w = (Ok a, w1) -> bind server m f w = f a w1.
Proof. intros H. unfold bind. rewrite H. reflexivity. Qed.

Lemma bind_raise {server A B} (m : M server A) (f : A -> M server B) (w w1 : world server)
    (e : exn) :
  m w = (Raise e, w1) -> bind server m f w = (Raise e, w1).
Proof. intros H. unfold bind. rewrite H. reflexivity. Qed.

Section PullAll.

Variable server : Type.
Variable outline_api : request -> server -> result (option dict) * server.
Variable OUTLINE_API_KEY : list N.
Variable uni_alnum : N -> bool.
Variable uni_decimal : N -> option N.
Variable order_by_title : list dict -> list dict.

Local Abbreviation pull := (pull_tour_from_outline server outline_api uni_alnum uni_decimal).
Local Abbreviation pull_all :=
  (pull_all_from_outline server outline_api OUTLINE_API_KEY uni_alnum uni_decimal
     order_by_title).
Local Abbreviation tours_of := (get_tours_from_db order_by_title).
Local Abbreviation counters :=
  (fun u s e : nat =>
     <[str "updated" := u]> (<[str "skipped" := s]> (<[str "errors" := e]> (∅ : gmap (list N) nat)))).

Lemma tours_have_id_title (conn : database) (t : dict) :
  t ∈ tours_of conn ->
  t !! str "id" = Some (get t (str "id")) /\ t !! str "title" = Some (get t (str "title")).
Proof.
  unfold get_tours_from_db. intros H. apply list_elem_of_fmap in H as (row & -> & _).
  unfold get.
  rewrite !select_lookup by (apply (bool_decide_unpack _); vm_compute; exact I).
  split; reflexivity.
Qed.

Ltac pull_unfold :=
  unfold pull_tour_from_outline, bind, lift, ret, try_except, write_db, with_db,
    get_outline_document, outline_request.

Ltac pull_step :=
  match goal with
  | |- context [outline_api ?rq ?s] => destruct (outline_api rq s) as [[?|?] ?] eqn:?; cbn -[log_sync]
  | |- context [is_dict_true ?d] => destruct (is_dict_true d) eqn:?; cbn -[log_sync]
  | |- context [parse_value ?a ?b ?v] => destruct (parse_value a b v) as [?|?] eqn:?; cbn -[log_sync]
  | |- context [update_tour_from_outline ?c ?t ?f] =>
      destruct (update_tour_from_outline c t f) as [? ?] eqn:?; cbn -[log_sync]
  | |- context [update_itinerary_from_outline ?c ?t ?f] =>
      destruct (update_itinerary_from_outline c t f) as [? ?] eqn:?; cbn -[log_sync]
  | |- context [nonempty ?l] => destruct (nonempty l) eqn:?; cbn -[log_sync]
  end.

(** One turn of the loop: the Pull of a linked tour makes its one request
    and is counted as an update or as an error. *)
Lemma pull_linked (w : world server) (tour : dict) (dry_run : bool) (tour_id title : value) :
  tour !! str "id" = Some tour_id -> tour !! str "title" = Some title ->
  truthy (get tour (str "outline_doc_id")) = true ->
  exists o,
    (pull tour dry_run w).1 = Ok o
    /\ (pull_action o = str "updated" \/ pull_action o = str "would_update"
        \/ pull_action o = str "error")
    /\ calls (pull tour dry_run w).2
       = calls w ++ [documents_info (get tour (str "outline_doc_id"))]
    /\ files (pull tour dry_run w).2 = files w.
Proof.
  intros Hid Htitle Hdoc. pull_unfold. unfold subscript. rewrite Hid, Htitle, Hdoc.
  cbn -[log_sync].
  destruct dry_run; repeat pull_step; eexists; (split; [reflexivity|]); cbn [pull_action];
    auto.
Qed.

Ltac key_ne := let H := fresh in intros H; vm_compute in H; discriminate H.

Lemma tally_pull_counts (u e : nat) (tour : dict) (title : value) (o : pull_outcome) :
  tour !! str "title" = Some title ->
  pull_action o = str "updated" \/ pull_action o = str "would_update"
  \/ pull_action o = str "error" ->
  exists u' e', tally_pull (counters u 0 e) tour o = Ok (counters u' 0 e')
                /\ u' + e' = S (u + e).
Proof.
  intros Htitle Ho. unfold tally_pull, subscript. rewrite Htitle.
  destruct Ho as [-> | [-> | ->]].
  - exists (S u), e. split; [|lia].
    replace (text_eqb (str "updated") (str "updated") || _) with true by reflexivity.
    rewrite (count_present "updated" _ u) by apply lookup_insert_eq.
    cbn [mbind result_bind]. rewrite insert_insert_eq. reflexivity.
  - exists (S u), e. split; [|lia].
    replace (text_eqb (str "would_update") (str "updated") || _) with true by reflexivity.
    rewrite (count_present "updated" _ u) by apply lookup_insert_eq.
    cbn [mbind result_bind]. rewrite insert_insert_eq. reflexivity.
  - exists u, (S e). split; [|lia].
    replace (text_eqb (str "error") (str "updated") || _) with false by reflexivity.
    replace (text_eqb (str "error") (str "skipped")) with false by reflexivity.
    replace (text_eqb (str "error") (str "error")) with true by reflexivity.
    rewrite (count_present "errors" _ e)
      by (rewrite !lookup_insert_ne by key_ne; apply lookup_insert_eq).
    cbn [mbind result_bind].
    rewrite (insert_insert_ne _ (str "errors") (str "updated")) by key_ne.
    rewrite (insert_insert_ne _ (str "errors") (str "skipped")) by key_ne.
    rewrite insert_insert_eq. reflexivity.
Qed.

Lemma pull_loop (dry_run : bool) (l : list dict) :
  Forall (fun t => is_Some (t !! str "id") /\ is_Some (t !! str "title")
                   /\ truthy (get t (str "outline_doc_id")) = true) l ->
  forall (u e : nat) (w : world server),
    let r := for_each server
               (fun results tour =>
                  bind server (pull tour dry_run)
                    (fun result => lift server (tally_pull results tour result)))
               l (counters u 0 e) w in
    (exists u' e', r.1 = Ok (counters u' 0 e') /\ u' + e' = u + e + length l)
    /\ calls r.2
       = calls w ++ List.map (fun t => documents_info (get t (str "outline_doc_id"))) l
    /\ files r.2 = files w.
Proof.
  induction 1 as [|t l ([tid Hid] & [title Htitle] & Hdoc) _ IH]; intros u e w; cbv zeta.
  - cbn [for_each List.map length]. unfold ret. cbn [fst snd].
    rewrite app_nil_r. split; [exists u, e; split; [reflexivity | lia] | auto].
  - cbn [for_each List.map length].
    destruct (pull_linked w t dry_run tid title Hid Htitle Hdoc) as (o & Ho & Hact & Hcalls & Hfiles).
    destruct (pull t dry_run w) as [r1 w1] eqn:Hpull. cbn [fst snd] in Ho, Hcalls, Hfiles.
    subst r1.
    destruct (tally_pull_counts u e t title o Htitle Hact) as (u1 & e1 & Htally & Hsum).
    rewrite (bind_ok _ _ w w1 (counters u1 0 e1)).
    2:{ rewrite (bind_ok _ _ w w1 o Hpull). unfold lift. rewrite Htally. reflexivity. }
    specialize (IH u1 e1 w1). cbv zeta in IH.
    destruct IH as ((u' & e' & Hr & Hsum') & Hc & Hf).
    split; [exists u', e'; split; [exact Hr | lia]|].
    rewrite Hc, Hf, Hcalls, Hfiles, <- app_assoc. auto.
Qed.

(** X17. A Pull of all tours.  Without an API key it does nothing.  With
    one, it pulls the tours that have a document id, in the order of
    [get_tours_from_db], and always runs to the end: it makes exactly one
    [documents.info] request per linked tour and no other request, counts
    each of them as updated or as an error, and never counts a tour as
    skipped. *)
Theorem pull_all_counts (dry_run : bool) (w : world server) :
  let linked_tours :=
    List.filter (fun t => truthy (get t (str "outline_doc_id"))) (tours_of (db w)) in
  let r := pull_all dry_run w in
  (OUTLINE_API_KEY = [] -> r = (Ok None, w))
  /\ (OUTLINE_API_KEY <> [] ->
      (exists updated errors,
         r.1 = Ok (Some (counters updated 0 errors))
         /\ updated + errors = length linked_tours)
      /\ calls r.2
         = calls w
           ++ List.map (fun t => documents_info (get t (str "outline_doc_id"))) linked_tours
      /\ files r.2 = files w).
Proof.
  cbv zeta. unfold pull_all_from_outline. split.
  - intros ->. reflexivity.
  - intros Hkey. destruct OUTLINE_API_KEY as [|c key]; [contradiction|].
    cbn [nonempty negb]. unfold read.
    rewrite (bind_ok _ _ w w (tours_of (db w))) by reflexivity.
    pose proof (pull_loop dry_run
                  (List.filter (fun t => truthy (get t (str "outline_doc_id"))) (tours_of (db w))))
      as Hloop.
    specialize (Hloop ltac:(
      apply Forall_forall; intros t Ht;
      apply (proj1 (filter_In _ _ _)) in Ht as [Ht Hd];
      apply (proj2 (list_elem_of_In _ _)) in Ht; destruct (tours_have_id_title _ _ Ht) as [H1 H2];
      rewrite H1, H2; eauto) 0 0 w).
    cbv zeta in Hloop. destruct Hloop as ((u & e & Hr & Hsum) & Hc & Hf).
    destruct (for_each _ _ _ _ w) as [r1 w1] eqn:Hfor. cbn [fst snd] in Hr, Hc, Hf. subst r1.
    rewrite (bind_ok _ _ w w1 _ Hfor).
    unfold ret. cbn [fst snd]. split; [exists u, e; split; [reflexivity | lia] | auto].
Qed.

End PullAll.

(** ** The documents a Push of all tours starts from *)

Lemma text_keys_lookup (docs : gmap value dict) (s : list N) :
  text_keys docs !! s = docs !! VStr s.
Proof.
  unfold text_keys. revert s.
  apply (map_fold_weak_ind (fun (r : gmap (list N) dict) (m : gmap value dict) =>
                              forall s, r !! s = m !! VStr s)).
  - intros s. rewrite !lookup_empty. reflexivity.
  - intros k d m r _ IH s. destruct k as [|s'| |];
      try (rewrite lookup_insert_ne by discriminate; apply IH).
    destruct (decide (s' = s)) as [-> | Hne].
    + rewrite !lookup_insert_eq. reflexivity.
    + rewrite !lookup_insert_ne by congruence. apply IH.
Qed.

Lemma for_each_world {server A S} (body : S -> A -> M server S) (l : list A) :
  (forall (s : S) (x : A) (w : world server), (body s x w).2 = w) ->
  forall (s : S) (w : world server), (for_each server body l s w).2 = w.
Proof.
  intros Hbody. induction l as [|x l IH]; intros s w; [reflexivity|].
  cbn [for_each]. unfold bind. specialize (Hbody s x w).
  destruct (body s x w) as [[s1|e] w1]; cbn [snd] in Hbody; subst w1; [apply IH | reflexivity].
Qed.

Section PushAll.

Variable server : Type.
Variable outline_api : request -> server -> result (option dict) * server.
Variable outline_list_api : request -> server -> result (list dict) * server.
Variables OUTLINE_API_KEY OUTLINE_COLLECTION_ID : list N.
Variables OUTLINE_DAY_TOURS_DOC_ID OUTLINE_MD_TOURS_DOC_ID : list N.
Variable str_title : list N -> list N.
Variable str_lower : list N -> list N.
Variable order_by_title : list dict -> list dict.

Local Abbreviation push :=
  (push_tour_to_outline server outline_api OUTLINE_COLLECTION_ID OUTLINE_DAY_TOURS_DOC_ID
     OUTLINE_MD_TOURS_DOC_ID str_title str_lower).
Local Abbreviation push_all :=
  (push_all_to_outline server outline_api outline_list_api OUTLINE_API_KEY
     OUTLINE_COLLECTION_ID OUTLINE_DAY_TOURS_DOC_ID OUTLINE_MD_TOURS_DOC_ID str_title
     str_lower order_by_title).
Local Abbreviation existing_tour_docs :=
  (get_existing_tour_docs server outline_list_api OUTLINE_COLLECTION_ID
     OUTLINE_DAY_TOURS_DOC_ID OUTLINE_MD_TOURS_DOC_ID).
Local Abbreviation entry := (tour_doc_entry OUTLINE_DAY_TOURS_DOC_ID OUTLINE_MD_TOURS_DOC_ID).
Local Abbreviation listing := (documents_list OUTLINE_COLLECTION_ID 100 None).
Local Abbreviation tours_of := (get_tours_from_db order_by_title).
Local Abbreviation parent_of doc := (get doc (str "parentDocumentId")).
Local Abbreviation under_parents doc :=
  (parent_of doc = VStr OUTLINE_DAY_TOURS_DOC_ID \/ parent_of doc = VStr OUTLINE_MD_TOURS_DOC_ID).
Local Abbreviation entry_of id slug doc :=
  (<[str "id" := id]>
     (<[str "title" := slug]>
        (<[str "parent" := if bool_decide (parent_of doc = VStr OUTLINE_DAY_TOURS_DOC_ID)
                            then VStr (str "day") else VStr (str "multi-day")]>
           (∅ : dict)))).
Local Abbreviation counters6 c u p s e n :=
  (<[str "created" := c]> (<[str "updated" := u]> (<[str "prepended" := p]>
     (<[str "skipped" := s]> (<[str "errors" := e]>
        (<[str "no_slug" := n]> (∅ : gmap (list N) nat))))))).

Lemma entry_cases (m0 : gmap value dict) (doc : dict) :
  (under_parents doc /\
   match doc !! str "title", doc !! str "id" with
   | Some slug, Some id => entry m0 doc = Ok (<[slug := entry_of id slug doc]> m0)
   | Some _, None => entry m0 doc = Raise (KeyError (str "id"))
   | None, _ => entry m0 doc = Raise (KeyError (str "title"))
   end)
  \/ (~ under_parents doc /\ entry m0 doc = Ok m0).
Proof.
  unfold tour_doc_entry, subscript.
  destruct (bool_decide (parent_of doc = VStr OUTLINE_DAY_TOURS_DOC_ID)) eqn:Hd;
    [apply bool_decide_eq_true_1 in Hd | apply bool_decide_eq_false_1 in Hd];
    (destruct (bool_decide (parent_of doc = VStr OUTLINE_MD_TOURS_DOC_ID)) eqn:Hm;
     [apply bool_decide_eq_true_1 in Hm | apply bool_decide_eq_false_1 in Hm]);
    cbn [orb]; try (right; split; [intros [?|?]; contradiction | reflexivity]);
    (left; split; [auto|]);
    destruct (doc !! str "title") as [slug|]; try reflexivity;
    destruct (doc !! str "id") as [id|]; reflexivity.
Qed.

Lemma fold_entries (docs : list dict) :
  forall (m0 m : gmap value dict),
    fold_result entry docs m0 = Ok m ->
    (forall (slug : value) (d : dict),
       m !! slug = Some d ->
       m0 !! slug = Some d
       \/ exists doc id,
            doc ∈ docs /\ under_parents doc /\ doc !! str "title" = Some slug
            /\ doc !! str "id" = Some id /\ d = entry_of id slug doc)
    /\ (forall slug : value, is_Some (m0 !! slug) -> is_Some (m !! slug))
    /\ (forall doc : dict,
          doc ∈ docs -> under_parents doc ->
          exists slug, doc !! str "title" = Some slug /\ is_Some (m !! slug)).
Proof.
  induction docs as [|doc docs IH]; intros m0 m H.
  - cbn in H. inversion H; subst. split; [auto|]. split; [auto|].
    intros doc Hin. inversion Hin.
  - cbn [fold_result] in H.
    destruct (entry_cases m0 doc) as [[Hu Hc] | [Hu Hc]].
    + destruct (doc !! str "title") as [slug|] eqn:Ht;
        [|rewrite Hc in H; discriminate H].
      destruct (doc !! str "id") as [id|] eqn:Hi; [|rewrite Hc in H; discriminate H].
      rewrite Hc in H. cbn [mbind result_bind] in H.
      destruct (IH _ _ H) as (IH1 & IH2 & IH3). split; [|split].
      * intros k d Hk. destruct (IH1 k d Hk) as [Hk0 | (doc' & id' & Hin & Hrest)].
        -- destruct (decide (slug = k)) as [-> | Hne].
           ++ rewrite lookup_insert_eq in Hk0. inversion Hk0; subst.
              right. exists doc, id. split; [apply list_elem_of_here|]. auto.
           ++ rewrite lookup_insert_ne in Hk0 by exact Hne. auto.
        -- right. exists doc', id'. split; [apply list_elem_of_further; exact Hin | exact Hrest].
      * intros k Hk. apply IH2. destruct (decide (slug = k)) as [-> | Hne].
        -- rewrite lookup_insert_eq. eauto.
        -- rewrite lookup_insert_ne by exact Hne. exact Hk.
      * intros doc' Hin Hu'. apply elem_of_cons in Hin as [-> | Hin]; [|apply IH3; assumption].
        exists slug. split; [exact Ht|]. apply IH2. rewrite lookup_insert_eq. eauto.
    + rewrite Hc in H. cbn [mbind result_bind] in H.
      destruct (IH _ _ H) as (IH1 & IH2 & IH3). split; [|split].
      * intros k d Hk. destruct (IH1 k d Hk) as [Hk0 | (doc' & id' & Hin & Hrest)]; [auto|].
        right. exists doc', id'. split; [apply list_elem_of_further; exact Hin | exact Hrest].
      * exact IH2.
      * intros doc' Hin Hu'. apply elem_of_cons in Hin as [-> | Hin]; [contradiction|].
        apply IH3; assumption.
Qed.

Lemma fold_entries_ok (docs : list dict) :
  Forall (fun doc => under_parents doc ->
                     is_Some (doc !! str "title") /\ is_Some (doc !! str "id")) docs ->
  forall m0 : gmap value dict, exists m, fold_result entry docs m0 = Ok m.
Proof.
  induction 1 as [|doc docs Hdoc _ IH]; intros m0; [eexists; reflexivity|].
  cbn [fold_result]. destruct (entry_cases m0 doc) as [[Hu Hc] | [Hu Hc]].
  - destruct (Hdoc Hu) as [[slug Ht] [id Hi]]. rewrite Ht, Hi in Hc. rewrite Hc.
    cbn [mbind result_bind]. apply IH.
  - rewrite Hc. cbn [mbind result_bind]. apply IH.
Qed.

Lemma existing_docs_run (w : world server) :
  (existing_tour_docs w).1
  = match (outline_list_api listing (remote w)).1 with
    | Ok docs => fold_result entry docs ∅
    | Raise e => Raise e
    end
  /\ db (existing_tour_docs w).2 = db w
  /\ files (existing_tour_docs w).2 = files w
  /\ calls (existing_tour_docs w).2 = calls w ++ [listing].
Proof.
  unfold get_existing_tour_docs, bind, outline_list_request, lift.
  destruct (outline_list_api listing (remote w)) as [[docs|e] s]; cbn; auto.
Qed.

(** X18. The documents a Push of all tours knows.  When the listing
    succeeds and every listed document under one of the two parents has a
    title and an id, [get_existing_tour_docs] returns a dictionary in which
    every entry comes from such a document, is filed under its title, and
    carries its id, its title and ['day'] exactly when its parent is the Day
    Tours document; every such document's title has an entry; documents
    elsewhere are left out.  One [documents.list] request is made. *)
Theorem existing_tour_docs_entries (w : world server) (docs : list dict) :
  (outline_list_api listing (remote w)).1 = Ok docs ->
  Forall (fun doc => under_parents doc ->
                     is_Some (doc !! str "title") /\ is_Some (doc !! str "id")) docs ->
  exists m,
    (existing_tour_docs w).1 = Ok m
    /\ calls (existing_tour_docs w).2 = calls w ++ [listing]
    /\ (forall (slug : value) (d : dict),
          m !! slug = Some d ->
          exists doc id,
            doc ∈ docs /\ under_parents doc /\ doc !! str "title" = Some slug
            /\ doc !! str "id" = Some id /\ d = entry_of id slug doc)
    /\ (forall doc : dict,
          doc ∈ docs -> under_parents doc ->
          exists slug, doc !! str "title" = Some slug /\ is_Some (m !! slug)).
Proof.
  intros Hlist Hdocs. destruct (existing_docs_run w) as (Hr & _ & _ & Hc).
  rewrite Hlist in Hr. destruct (fold_entries_ok docs Hdocs ∅) as [m Hm].
  exists m. rewrite Hr. split; [exact Hm|]. split; [exact Hc|].
  destruct (fold_entries docs ∅ m Hm) as (H1 & _ & H3). split; [|exact H3].
  intros slug d Hd. destruct (H1 slug d Hd) as [He | H]; [|exact H].
  rewrite lookup_empty in He. discriminate He.
Qed.

(** X19. A listed document under one of the two parents that has no title
    or no id makes [get_existing_tour_docs] raise [KeyError]: the first such
    document decides, and nothing is returned for the documents before it. *)
Theorem existing_tour_docs_key_error (w : world server) (before after : list dict)
    (doc : dict) :
  (outline_list_api listing (remote w)).1 = Ok (before ++ doc :: after) ->
  Forall (fun doc => under_parents doc ->
                     is_Some (doc !! str "title") /\ is_Some (doc !! str "id")) before ->
  under_parents doc ->
  (doc !! str "title" = None -> (existing_tour_docs w).1 = Raise (KeyError (str "title")))
  /\ (is_Some (doc !! str "title") -> doc !! str "id" = None ->
      (existing_tour_docs w).1 = Raise (KeyError (str "id"))).
Proof.
  intros Hlist Hbefore Hu. destruct (existing_docs_run w) as (Hr & _). rewrite Hlist in Hr.
  rewrite Hr. clear Hr Hlist.
  generalize (∅ : gmap value dict). induction Hbefore as [|d before Hd _ IH]; intros m0.
  - cbn [app fold_result]. destruct (entry_cases m0 doc) as [[_ Hc] | [Hn _]]; [|contradiction].
    split.
    + intros Ht. rewrite Ht in Hc. rewrite Hc. reflexivity.
    + intros [slug Ht] Hi. rewrite Ht, Hi in Hc. rewrite Hc. reflexivity.
  - cbn [app fold_result]. destruct (entry_cases m0 d) as [[Hu' Hc] | [Hu' Hc]].
    + destruct (Hd Hu') as [[slug Ht] [id Hi]]. rewrite Ht, Hi in Hc. rewrite Hc.
      cbn [mbind result_bind]. apply IH.
    + rewrite Hc. cbn [mbind result_bind]. apply IH.
Qed.

(** ** A Push of all tours *)

Lemma count_no_slug (c u p s e n : nat) :
  count "no_slug" (counters6 c u p s e n) = Ok (counters6 c u p s e (S n)).
Proof. vm_compute. reflexivity. Qed.

Lemma tally_push_counts (c u p s e n : nat) (o : push_outcome) :
  In (push_action o)
    [str "create"; str "update"; str "prepend"; str "created"; str "updated";
     str "prepended"; str "skipped"; str "error"] ->
  exists c' u' p' s' e',
    tally_push (counters6 c u p s e n) o = Ok (counters6 c' u' p' s' e' n)
    /\ c' + u' + p' + s' + e' = S (c + u + p + s + e).
Proof.
  intros H. unfold tally_push. cbv zeta. cbn [In] in H.
  destruct H as [<- | [<- | [<- | [<- | [<- | [<- | [<- | [<- | []]]]]]]]].
  - exists (S c), u, p, s, e. split; [vm_compute; reflexivity | lia].
  - exists c, (S u), p, s, e. split; [vm_compute; reflexivity | lia].
  - exists c, u, (S p), s, e. split; [vm_compute; reflexivity | lia].
  - exists (S c), u, p, s, e. split; [vm_compute; reflexivity | lia].
  - exists c, (S u), p, s, e. split; [vm_compute; reflexivity | lia].
  - exists c, u, (S p), s, e. split; [vm_compute; reflexivity | lia].
  - exists c, u, p, (S s), e. split; [vm_compute; reflexivity | lia].
  - exists c, u, p, s, (S e). split; [vm_compute; reflexivity | lia].
Qed.

Local Abbreviation no_slug tour := (negb (truthy (default (VStr []) (tour !! str "slug")))).
Local Abbreviation push_turn docs dry_run force_update :=
  (fun (results : gmap (list N) nat) (tour : dict) =>
     let slug := default (VStr []) (tour !! str "slug") in
     if negb (truthy slug) then
       lift server (results ← count "no_slug" results;
                    _ ← subscript tour (str "title"); Ok results)
     else
       bind server (push tour docs dry_run force_update)
         (fun result => lift server (tally_push results result))).

Lemma push_loop (docs : gmap (list N) dict) (dry_run force_update : bool) (l : list dict) :
  (forall (s : list N) (d : dict), docs !! s = Some d -> is_Some (d !! str "id")) ->
  Forall (fun t => is_Some (t !! str "id") /\ is_Some (t !! str "title")) l ->
  forall (c u p s e n : nat) (w : world server),
    exists c' u' p' s' e',
      (for_each server (push_turn docs dry_run force_update) l (counters6 c u p s e n) w).1
      = Ok (counters6 c' u' p' s' e' (n + length (List.filter (fun t => no_slug t) l)))
      /\ c' + u' + p' + s' + e' + length (List.filter (fun t => no_slug t) l)
         = c + u + p + s + e + length l.
Proof.
  intros Hdocs. induction 1 as [|t l [[tid Hid] [title Htitle]] _ IH]; intros c u p s e n w.
  - cbn. exists c, u, p, s, e. rewrite Nat.add_0_r. split; [reflexivity | lia].
  - cbn [for_each List.filter length]. cbv zeta.
    destruct (truthy (default (VStr []) (t !! str "slug"))) eqn:Hslug; cbn [negb].
    + destruct (push_outcome_action server outline_api OUTLINE_COLLECTION_ID
                  OUTLINE_DAY_TOURS_DOC_ID OUTLINE_MD_TOURS_DOC_ID str_title str_lower
                  w t docs dry_run force_update tid title Hid Htitle Hdocs) as (o & Ho & Hact).
      destruct (push t docs dry_run force_update w) as [r1 w1] eqn:Hpush.
      cbn [fst] in Ho. subst r1.
      destruct (tally_push_counts c u p s e n o Hact) as (c1 & u1 & p1 & s1 & e1 & Ht & Hsum).
      rewrite (bind_ok _ _ w w1 (counters6 c1 u1 p1 s1 e1 n)).
      2:{ rewrite (bind_ok _ _ w w1 o Hpush). unfold lift.
          rewrite Ht. reflexivity. }
      destruct (IH c1 u1 p1 s1 e1 n w1) as (c' & u' & p' & s' & e' & Hr & Hsum').
      exists c', u', p', s', e'. split; [exact Hr | lia].
    + rewrite (bind_ok _ _ w w (counters6 c u p s e (S n))).
      2:{ unfold lift, subscript. rewrite count_no_slug, Htitle.
          reflexivity. }
      destruct (IH c u p s e (S n) w) as (c' & u' & p' & s' & e' & Hr & Hsum').
      exists c', u', p', s', e'. cbn [length]. rewrite <- Nat.add_succ_comm.
      split; [exact Hr | lia].
Qed.

Lemma push_turn_dry_run (docs : gmap (list N) dict) (force_update : bool)
    (results : gmap (list N) nat) (tour : dict) (w : world server) :
  (push_turn docs true force_update results tour w).2 = w.
Proof.
  cbv beta zeta. destruct (negb _); [reflexivity|]. unfold bind, lift.
  pose proof (push_dry_run_world server outline_api OUTLINE_COLLECTION_ID
                OUTLINE_DAY_TOURS_DOC_ID OUTLINE_MD_TOURS_DOC_ID str_title str_lower
                w tour docs force_update) as H.
  destruct (push tour docs true force_update w) as [[o|e] w1]; cbn [snd] in H; subst w1;
    reflexivity.
Qed.

(** X20. A Push of all tours.  Without an API key it does nothing.  With
    one, it first lists the documents; a failure of that listing is not
    caught: the command raises it, having made that one request and changed
    nothing in the database.  When the listing gives the documents, every
    tour of [get_tours_from_db] is counted once: the six counters add up to
    the number of tours, and [no_slug] counts exactly the tours without a
    slug. *)
Theorem push_all_counts (dry_run force_update : bool) (w : world server) :
  let r := push_all dry_run force_update w in
  let tours := tours_of (db w) in
  (OUTLINE_API_KEY = [] -> r = (Ok None, w))
  /\ (OUTLINE_API_KEY <> [] ->
      forall e : exn,
        (existing_tour_docs w).1 = Raise e ->
        r.1 = Raise e /\ db r.2 = db w /\ files r.2 = files w
        /\ calls r.2 = calls w ++ [listing])
  /\ (OUTLINE_API_KEY <> [] ->
      forall existing_docs : gmap value dict,
        (existing_tour_docs w).1 = Ok existing_docs ->
        exists created updated prepended skipped errors,
          r.1 = Ok (Some (counters6 created updated prepended skipped errors
                            (length (List.filter (fun t => no_slug t) tours))))
          /\ created + updated + prepended + skipped + errors
             + length (List.filter (fun t => no_slug t) tours)
             = length tours).
Proof.
  cbv zeta. unfold push_all_to_outline. split; [intros ->; reflexivity|].
  split; intros Hkey; (destruct OUTLINE_API_KEY as [|k key]; [contradiction|]);
    cbn [nonempty negb].
  - intros e He. destruct (existing_docs_run w) as (_ & Hdb & Hfiles & Hcalls).
    destruct (existing_tour_docs w) as [r1 w1] eqn:Hrun. cbn [fst snd] in *. subst r1.
    rewrite (bind_raise _ _ w w1 e Hrun). cbn [fst snd]. auto.
  - intros existing_docs Hok. destruct (existing_docs_run w) as (Hr & Hdb & _).
    destruct (existing_tour_docs w) as [r1 w1] eqn:Hrun. cbn [fst snd] in *. subst r1.
    rewrite (bind_ok _ _ w w1 existing_docs Hrun). unfold read.
    rewrite (bind_ok _ _ w1 w1 (tours_of (db w1))) by reflexivity. rewrite Hdb.
    assert (Hdocs : forall (s : list N) (d : dict),
               text_keys existing_docs !! s = Some d -> is_Some (d !! str "id")).
    { intros s d Hd. rewrite text_keys_lookup in Hd.
      destruct (outline_list_api listing (remote w)) as [[docs|e] s0]; cbn [fst] in Hr;
        [|discriminate Hr].
      symmetry in Hr. destruct (fold_entries docs ∅ existing_docs Hr) as (H1 & _).
      destruct (H1 _ _ Hd) as [He | (doc & id & _ & _ & _ & _ & ->)].
      - rewrite lookup_empty in He. discriminate He.
      - rewrite lookup_insert_eq. eauto. }
    assert (Htours : Forall (fun t => is_Some (t !! str "id") /\ is_Some (t !! str "title"))
                       (tours_of (db w))).
    { apply Forall_forall. intros t Ht. apply (proj2 (list_elem_of_In _ _)) in Ht.
      destruct (tours_have_id_title order_by_title _ _ Ht) as [H1 H2].
      rewrite H1, H2. eauto. }
    destruct (push_loop (text_keys existing_docs) dry_run force_update (tours_of (db w))
                Hdocs Htours 0 0 0 0 0 0 w1)
      as (c & u & p & s & e & Hloop & Hsum).
    destruct (for_each _ _ _ _ w1) as [r2 w2] eqn:Hfor. cbn [fst] in Hloop. subst r2.
    rewrite (bind_ok _ _ w1 w2 _ Hfor). unfold ret. cbn [fst].
    exists c, u, p, s, e. split; [reflexivity | lia].
Qed.

(** X21. A dry run of a Push of all tours changes nothing: it leaves the
    database and the files as they are, and the listing of the documents is
    the only request it makes. *)
Theorem push_all_dry_run_changes_nothing (force_update : bool) (w : world server) :
  let r := push_all true force_update w in
  db r.2 = db w /\ files r.2 = files w
  /\ calls r.2 = calls w ++ (if nonempty OUTLINE_API_KEY then [listing] else []).
Proof.
  cbv zeta. unfold push_all_to_outline.
  destruct (nonempty OUTLINE_API_KEY); cbn [negb];
    [|unfold ret; cbn [snd]; rewrite app_nil_r; auto].
  destruct (existing_docs_run w) as (_ & Hdb & Hfiles & Hcalls).
  destruct (existing_tour_docs w) as [[docs|e] w1] eqn:Hrun; cbn [fst snd] in *.
  - rewrite (bind_ok _ _ w w1 docs Hrun). unfold read.
    rewrite (bind_ok _ _ w1 w1 (tours_of (db w1))) by reflexivity.
    pose proof (for_each_world (push_turn (text_keys docs) true force_update)
                  (tours_of (db w1)) (push_turn_dry_run (text_keys docs) force_update)
                  (counters6 0 0 0 0 0 0) w1) as Hw.
    destruct (for_each _ _ _ _ w1) as [[r2|e] w2] eqn:Hfor; cbn [snd] in Hw; subst w2.
    + rewrite (bind_ok _ _ w1 w1 _ Hfor). unfold ret. cbn [snd]. auto.
    + rewrite (bind_raise _ _ w1 w1 _ Hfor). cbn [snd]. auto.
  - rewrite (bind_raise _ _ w w1 e Hrun). cbn [snd]. auto.
Qed.

End PushAll.

Lemma existing_tour_docs_entries_witness :
  exists m,
    (get_existing_tour_docs (gmap (list N) dict) mem_list_api (str "collection")
       (str "day-tours") (str "multi-day-tours") (example_world [])).1 = Ok m
    /\ calls (get_existing_tour_docs (gmap (list N) dict) mem_list_api (str "collection")
                (str "day-tours") (str "multi-day-tours") (example_world [])).2
       = calls (example_world []) ++ [documents_list (str "collection") 100 None]
    /\ (forall (slug : value) (d : dict),
          m !! slug = Some d ->
          exists doc id,
            doc ∈ example_listing
            /\ (get doc (str "parentDocumentId") = VStr (str "day-tours")
                \/ get doc (str "parentDocumentId") = VStr (str "multi-day-tours"))
            /\ doc !! str "title" = Some slug
            /\ doc !! str "id" = Some id
            /\ d = <[str "id" := id]>
                     (<[str "title" := slug]>
                        (<[str "parent" :=
                             if bool_decide (get doc (str "parentDocumentId")
                                             = VStr (str "day-tours"))
                             then VStr (str "day") else VStr (str "multi-day")]> ∅)))
    /\ (forall doc : dict,
          doc ∈ example_listing ->
          get doc (str "parentDocumentId") = VStr (str "day-tours")
          \/ get doc (str "parentDocumentId") = VStr (str "multi-day-tours") ->
          exists slug, doc !! str "title" = Some slug /\ is_Some (m !! slug)).
Proof.
  apply (existing_tour_docs_entries (gmap (list N) dict) mem_list_api (str "collection")
           (str "day-tours") (str "multi-day-tours") (example_world []) example_listing).
  - reflexivity.
  - repeat constructor; eexists; reflexivity.
Defined.

Lemma existing_tour_docs_key_error_witness :
  (get_existing_tour_docs unit
     (fun (_ : request) (s : unit) =>
        (Ok (example_listing
             ++ [<[str "title" := VStr (str "lost")]>
                   (<[str "parentDocumentId" := VStr (str "day-tours")]> ∅)]), s))
     (str "collection") (str "day-tours") (str "multi-day-tours")
     {| db := example_database; remote := tt; calls := []; files := ∅; now := example_now |}).1
  = Raise (KeyError (str "id")).
Proof.
  destruct (existing_tour_docs_key_error unit
              (fun (_ : request) (s : unit) =>
                 (Ok (example_listing
                      ++ [<[str "title" := VStr (str "lost")]>
                            (<[str "parentDocumentId" := VStr (str "day-tours")]> ∅)]), s))
              (str "collection") (str "day-tours") (str "multi-day-tours")
              {| db := example_database; remote := tt; calls := []; files := ∅;
                 now := example_now |}
              example_listing []
              (<[str "title" := VStr (str "lost")]>
                 (<[str "parentDocumentId" := VStr (str "day-tours")]> ∅)))
    as [_ H].
  - reflexivity.
  - repeat constructor; eexists; reflexivity.
  - left. reflexivity.
  - apply H; [eexists|]; reflexivity.
Defined.


(** * The legacy content under a prepended header *)

Lemma mapM_as_text_app (a b : list value) (ls : list (list N)) :
  mapM as_text (a ++ b) = Ok ls ->
  exists la lb, mapM as_text a = Ok la /\ mapM as_text b = Ok lb /\ ls = la ++ lb.
Proof.
  revert ls. induction a as [|v a IH]; intros ls H.
  - exists [], ls. auto.
  - cbn [app mapM] in H. destruct (as_text v) as [s|e] eqn:Hv; [|discriminate H].
    cbn [mbind result_bind] in H.
    destruct (mapM as_text (a ++ b)) as [l|e] eqn:Hl; [|discriminate H].
    cbn [mbind result_bind mret result_ret] in H. injection H as <-.
    destruct (IH l eq_refl) as (la & lb & Ha & Hb & ->).
    exists (s :: la), lb. cbn [mapM]. rewrite Hv. cbn [mbind result_bind]. rewrite Ha.
    auto.
Qed.

Lemma startswith_length (p s : list N) : startswith p s = true -> length p <= length s.
Proof.
  revert s. induction p as [|a p IH]; intros s H; [cbn; lia|].
  destruct s as [|b s]; [discriminate H|]. cbn in H.
  apply andb_true_iff in H as [_ H]. apply IH in H. cbn [length]. lia.
Qed.

Lemma startswith_app_r (p s t : list N) :
  length p <= length s -> startswith p (s ++ t) = startswith p s.
Proof.
  revert s. induction p as [|a p IH]; intros s H; [reflexivity|].
  destruct s as [|b s]; [cbn in H; lia|]. cbn [app startswith]. rewrite IH; [reflexivity|].
  cbn [length] in H. lia.
Qed.

Lemma find_length (needle s : list N) (n : nat) :
  find needle s = Some n -> n + length needle <= length s.
Proof.
  revert n. induction s as [|c s IH]; intros n H.
  - cbn [find] in H. destruct (startswith needle []) eqn:Hs; [|discriminate H].
    injection H as <-. apply startswith_length in Hs. lia.
  - cbn [find] in H. destruct (startswith needle (c :: s)) eqn:Hs.
    + injection H as <-. apply startswith_length in Hs. lia.
    + destruct (find needle s) as [m|]; [|discriminate H]. injection H as <-.
      specialize (IH m eq_refl). cbn [length]. lia.
Qed.

(** The first occurrence stays the first when text is appended. *)
Lemma find_app_r (needle s t : list N) (n : nat) :
  find needle s = Some n -> find needle (s ++ t) = Some n.
Proof.
  revert n. induction s as [|c s IH]; intros n H.
  - cbn [find] in H. destruct (startswith needle []) eqn:Hs; [|discriminate H].
    destruct needle; [|discriminate Hs]. destruct t; cbn [app find startswith]; exact H.
  - pose proof (find_length _ _ _ H) as Hlen. cbn [find] in H. cbn [app find].
    destruct (startswith needle (c :: s)) eqn:Hs.
    + change (c :: s ++ t) with ((c :: s) ++ t).
      rewrite startswith_app_r, Hs by (apply startswith_length; exact Hs). exact H.
    + destruct (find needle s) as [m|] eqn:Hm; [|discriminate H]. injection H as <-.
      change (c :: s ++ t) with ((c :: s) ++ t).
      rewrite startswith_app_r, Hs by lia. rewrite (IH m eq_refl). reflexivity.
Qed.

Lemma split_lines_cons (s : list N) : exists l ls, split_lines s = l :: ls.
Proof.
  induction s as [|c s (l & ls & E)]; cbn [split_lines]; [eauto|].
  destruct (c =? NL)%N; [eauto|]. rewrite E. eauto.
Qed.

Lemma split_lines_line (l rest : list N) :
  lacks NL l = true -> split_lines (l ++ NL :: rest) = l :: split_lines rest.
Proof.
  induction l as [|c l IH]; intros H.
  - cbn [app split_lines]. rewrite N.eqb_refl. reflexivity.
  - rewrite lacks_cons in H. apply andb_true_iff in H as [Hc Hl].
    cbn [app split_lines]. rewrite IH by exact Hl.
    destruct (c =? NL)%N; [discriminate Hc | reflexivity].
Qed.

Lemma join_split_lines (s : list N) : join_lines (split_lines s) = s.
Proof.
  induction s as [|c s IH]; [reflexivity|]. cbn [split_lines].
  destruct (split_lines_cons s) as (l & ls & E). rewrite E.
  assert (Hc : join_lines ((c :: l) :: ls) = c :: join_lines (l :: ls))
    by (destruct ls; reflexivity).
  destruct (N.eqb_spec c NL) as [-> | _].
  - change (join_lines ([] :: l :: ls)) with (NL :: join_lines (l :: ls)).
    rewrite <- E, IH. reflexivity.
  - rewrite Hc, <- E, IH. reflexivity.
Qed.

Lemma lstrip_keeps (s : list N) :
  Exists (fun c => is_space c = false) s -> lstrip s <> [].
Proof.
  induction 1 as [c s Hc | c s _ IH]; cbn [lstrip].
  - rewrite Hc. discriminate.
  - destruct (is_space c); [exact IH | discriminate].
Qed.

Lemma strip_keeps (c : N) (s : list N) : is_space c = false -> nonempty (strip (c :: s)) = true.
Proof.
  intros Hc. unfold strip. rewrite lstrip_head by exact Hc. unfold rstrip.
  assert (H : lstrip (rev (c :: s)) <> []).
  { apply lstrip_keeps. apply Exists_exists. exists c. split; [|exact Hc].
    apply in_rev. rewrite rev_involutive. left. reflexivity. }
  destruct (lstrip (rev (c :: s))) as [|x l] eqn:E; [contradiction|].
  destruct (rev (x :: l)) eqn:E'; [|reflexivity].
  apply (f_equal (@rev N)) in E'. rewrite rev_involutive in E'. discriminate E'.
Qed.

Section LegacyContent.

Variable str_title : list N -> list N.

(** The header ends with the legacy section. *)
Lemma header_ends_with_legacy_section (tour : dict)
    (pricing : list (list N * value * value)) (fees : list (list N * value))
    (days : list dict) (header : list N) :
  generate_reference_header str_title tour pricing fees days = Ok header ->
  exists pre, header = pre ++ legacy_section.
Proof.
  unfold generate_reference_header, py_join.
  destruct (subscript tour (str "title")) as [title|]; cbn [mbind result_bind]; [|discriminate].
  destruct (mapM header_day_block days) as [blocks|]; cbn [mbind result_bind]; [|discriminate].
  rewrite !app_assoc.
  match goal with |- context [mapM as_text (?a ++ ?b)] => generalize a end.
  intros a H.
  destruct (mapM as_text (a ++ _)) as [ls|] eqn:Hls; [|discriminate H].
  cbn [mbind result_bind] in H. injection H as <-.
  apply mapM_as_text_app in Hls as (la & lb & _ & Hb & ->).
  cbn [mapM as_text L mbind result_bind mret result_ret] in Hb. injection Hb as <-.
  exists (unlines la ++ str "---" ++ [NL]).
  match goal with
  | |- join_lines (la ++ [?a; ?b; ?c; ?d]) = _ =>
      replace (la ++ [a; b; c; d]) with ((la ++ [a; b; c]) ++ [d])
        by (rewrite <- app_assoc; reflexivity)
  end.
  rewrite join_lines_unlines, unlines_app, <- !app_assoc. f_equal; vm_compute; reflexivity.
Qed.


End LegacyContent.



(** * The file names of the local preview *)

Lemma Forall_lstrip (P : N -> Prop) (s : list N) : Forall P s -> Forall P (lstrip s).
Proof.
  induction 1 as [|c s Hc Hs IH]; cbn [lstrip]; [constructor|].
  destruct (is_space c); [exact IH | constructor; assumption].
Qed.

Lemma Forall_strip (P : N -> Prop) (s : list N) : Forall P s -> Forall P (strip s).
Proof.
  intros H. unfold strip, rstrip. apply Forall_rev, Forall_lstrip, Forall_rev, Forall_lstrip, H.
Qed.

Section PreviewFacts.

Variable uni_alnum : N -> bool.

Local Abbreviation name_ok :=
  (fun c : N => c = 45%N \/ (is_word uni_alnum c = true /\ is_space c = false)).

Lemma dash_runs_chars (s : list N) :
  Forall (fun c => name_char uni_alnum c = true) s ->
  forall in_run : bool, Forall name_ok (dash_runs in_run s).
Proof.
  induction 1 as [|c s Hc _ IH]; intros in_run; cbn [dash_runs]; [constructor|].
  destruct (dash_or_space c) eqn:Hd.
  - destruct in_run; [apply IH|]. constructor; [left; reflexivity | apply IH].
  - constructor; [|apply IH]. right. unfold name_char, dash_or_space in *.
    apply orb_false_iff in Hd as [Hdash Hspace]. rewrite Hdash, Hspace, !orb_false_r in Hc.
    auto.
Qed.

(** No two dashes in a row, and no dash first when a run is going on. *)
Lemma dash_runs_single (s : list N) :
  forall in_run : bool,
    (in_run = true -> forall rest, dash_runs in_run s <> 45%N :: rest)
    /\ (forall a b, dash_runs in_run s <> a ++ 45%N :: 45%N :: b).
Proof.
  induction s as [|c s IH]; intros in_run; cbn [dash_runs].
  - split; [discriminate|]. intros [|x a] b; discriminate.
  - destruct (dash_or_space c) eqn:Hd.
    + destruct in_run; [apply IH|]. split; [discriminate|].
      destruct (IH true) as [Hhead Hrest]. intros [|x a] b; cbn [app]; intros E.
      * injection E as E. exact (Hhead eq_refl _ E).
      * injection E as _ E. exact (Hrest _ _ E).
    + assert (Hc : c <> 45%N).
      { intros ->. unfold dash_or_space in Hd. rewrite N.eqb_refl in Hd. discriminate Hd. }
      split; [intros _ rest E; injection E as E _; contradiction|].
      destruct (IH false) as [_ Hrest]. intros [|x a] b; cbn [app]; intros E.
      * injection E as E _. contradiction.
      * injection E as _ E. exact (Hrest _ _ E).
Qed.

(** X23. The file a preview writes for a tour lies in the output directory
    itself: its name is the directory, ['/'], a name and ['.md'], where the
    name is made of word characters and single dashes only, so it holds no
    ['/'], no ['.'], no white space and no two dashes in a row. *)
Theorem filename_is_safe (output_dir : list N) (tour : dict) (path : list N) :
  filename uni_alnum output_dir tour = Ok path ->
  exists name,
    path = output_dir ++ str "/" ++ name ++ str ".md"
    /\ Forall name_ok name
    /\ ~ In 47%N name /\ ~ In 46%N name
    /\ (forall a b, name <> a ++ 45%N :: 45%N :: b).
Proof.
  unfold filename, safe_name. intros H.
  destruct (subscript tour (str "title")) as [[|t| |]|]; try discriminate H.
  cbn [mbind result_bind] in H. injection H as <-.
  eexists. split; [reflexivity|].
  assert (Hchars : Forall name_ok
                     (dash_runs false (strip (List.filter (name_char uni_alnum) t)))).
  { apply dash_runs_chars, Forall_strip, Forall_forall. intros c Hc.
    apply filter_In in Hc as [_ Hc]. exact Hc. }
  split; [exact Hchars|]. split; [|split].
  - intros Hin. rewrite Forall_forall in Hchars.
    apply Hchars in Hin as [Hin | [Hin _]]; vm_compute in Hin; discriminate Hin.
  - intros Hin. rewrite Forall_forall in Hchars.
    apply Hchars in Hin as [Hin | [Hin _]]; vm_compute in Hin; discriminate Hin.
  - apply dash_runs_single.
Qed.

End PreviewFacts.

Lemma filename_is_safe_witness :
  exists name,
    str "outline_preview/Moab-Classic.md" = str "outline_preview" ++ str "/" ++ name ++ str ".md"
    /\ Forall (fun c => c = 45%N \/ (is_word no_alnum c = true /\ is_space c = false)) name
    /\ ~ In 47%N name /\ ~ In 46%N name
    /\ (forall a b, name <> a ++ 45%N :: 45%N :: b).
Proof.
  apply (filename_is_safe no_alnum (str "outline_preview") example_tour).
  vm_compute. reflexivity.
Defined.
